(** * Triage and approval workflow: a shallow embedding

  The development follows the Python sources of the repository:

  - [skills/keyword_analyzer.py]        (module [Analyzer])
  - [skills/vault_update.py]            (module [VaultUpdate])
  - [skills/email_planner.py]           (module [Planner])
  - [skills/approved_plan_executor.py]  (module [Executor])
  - [Watchers/failure_manager.py]       (module [Health])
  - [Watchers/gmail_watcher.py]         (module [Watcher])
  - [skills/email_to_inbox.py]          (module [Mover])

  Text is a [string] of bytes.  The operations Python applies per
  character ([lower], [strip], the classes of regular expressions) are
  applied per byte, which is the same on ASCII text; bytes above 127 are
  neither letters nor whitespace.  The Python [int] is [Z]; a [set] of
  ids is a [gset string]; a folder of the vault is a finite map from
  file names to file contents.  File operations always succeed: the
  only failure of the store the model has is a file that is not there.
  The files of the model are those of the six folders; a text that two
  of the skills read from a plan and join to the path of a folder is
  followed from folder to folder ([Store.locate]). *)

From Stdlib Require Import ZArith Bool Ascii String List Lia.
From Stdlib Require Import Numbers.DecimalString.
From stdpp Require Import base gmap sets list strings.

Local Open Scope string_scope.
Local Open Scope Z_scope.

(** ** Python string operations *)

Module PyStr.

Definition nl : string := String (ascii_of_nat 10) "".

(** [str.isspace] on one ASCII character: tab, line feed, vertical tab,
    form feed, carriage return, the four separators 0x1c-0x1f and space.
    The same class is the regular expression [\s]. *)
Definition isspace (c : ascii) : bool :=
  let n := nat_of_ascii c in
  ((9 <=? n)%nat && (n <=? 13)%nat) || ((28 <=? n)%nat && (n <=? 32)%nat).

Definition isupper (c : ascii) : bool :=
  let n := nat_of_ascii c in (65 <=? n)%nat && (n <=? 90)%nat.

Definition islower (c : ascii) : bool :=
  let n := nat_of_ascii c in (97 <=? n)%nat && (n <=? 122)%nat.

Definition isdigit (c : ascii) : bool :=
  let n := nat_of_ascii c in (48 <=? n)%nat && (n <=? 57)%nat.

(** The regular expression class [\w] on ASCII. *)
Definition isword (c : ascii) : bool :=
  isupper c || islower c || isdigit c || Ascii.eqb c "_"%char.

Definition lower_char (c : ascii) : ascii :=
  if isupper c then ascii_of_nat (nat_of_ascii c + 32) else c.

Definition upper_char (c : ascii) : ascii :=
  if islower c then ascii_of_nat (nat_of_ascii c - 32) else c.

Fixpoint map_chars (f : ascii -> ascii) (s : string) : string :=
  match s with
  | EmptyString => EmptyString
  | String c r => String (f c) (map_chars f r)
  end.

(** [s.lower()] and [s.upper()] *)
Definition lower (s : string) : string := map_chars lower_char s.
Definition upper (s : string) : string := map_chars upper_char s.

(** [s.capitalize()] *)
Definition capitalize (s : string) : string :=
  match s with
  | EmptyString => EmptyString
  | String c r => String (upper_char c) (lower r)
  end.

(** [s.startswith(p)] *)
Fixpoint startswith (p s : string) : bool :=
  match p, s with
  | EmptyString, _ => true
  | String a p', String b s' => Ascii.eqb a b && startswith p' s'
  | String _ _, EmptyString => false
  end.

(** [needle in hay] *)
Fixpoint contains (needle hay : string) : bool :=
  startswith needle hay ||
  match hay with
  | EmptyString => false
  | String _ r => contains needle r
  end.

(** [any(k in text for k in keys)] *)
Definition any_in (keys : list string) (text : string) : bool :=
  existsb (fun k => contains k text) keys.

Fixpoint drop (n : nat) (s : string) : string :=
  match n, s with
  | O, _ => s
  | S _, EmptyString => EmptyString
  | S n', String _ r => drop n' r
  end.

Fixpoint take (n : nat) (s : string) : string :=
  match n, s with
  | O, _ => EmptyString
  | S _, EmptyString => EmptyString
  | S n', String c r => String c (take n' r)
  end.

(** [s.endswith(p)] *)
Definition endswith (p s : string) : bool :=
  (String.length p <=? String.length s)%nat &&
  String.eqb (drop (String.length s - String.length p) s) p.

(** Longest prefix of characters satisfying [p], and the rest. *)
Fixpoint span (p : ascii -> bool) (s : string) : string * string :=
  match s with
  | EmptyString => (EmptyString, EmptyString)
  | String c r =>
      if p c then let '(a, b) := span p r in (String c a, b)
      else (EmptyString, s)
  end.

Definition lstrip (s : string) : string := snd (span isspace s).

(** Removes trailing whitespace: a character is kept when something
    that is not whitespace follows it or it is not whitespace itself. *)
Fixpoint rstrip (s : string) : string :=
  match s with
  | EmptyString => EmptyString
  | String c r =>
      match rstrip r with
      | EmptyString => if isspace c then EmptyString else String c EmptyString
      | r' => String c r'
      end
  end.

(** [s.strip()] *)
Definition strip (s : string) : string := rstrip (lstrip s).

(** [s.find(sub)] from the start: the offset of the first occurrence. *)
Fixpoint find (sub s : string) : option nat :=
  if startswith sub s then Some O
  else match s with
       | EmptyString => None
       | String _ r => option_map S (find sub r)
       end.

(** [s.find(sub, start)] as an absolute offset. *)
Definition find_from (sub s : string) (start : nat) : option nat :=
  if (String.length s <? start)%nat then None
  else option_map (fun i => (i + start)%nat) (find sub (drop start s)).

(** [s.split(sep)] for a one-character separator; [re.split] on a
    character class is the same walk with a predicate. *)
Fixpoint split_on (p : ascii -> bool) (s : string) : list string :=
  match s with
  | EmptyString => [EmptyString]
  | String c r =>
      if p c then EmptyString :: split_on p r
      else match split_on p r with
           | [] => [String c EmptyString]
           | w :: ws => String c w :: ws
           end
  end.

Definition split_char (c : ascii) (s : string) : list string :=
  split_on (Ascii.eqb c) s.

(** [s.split(sep, 1)]: at most one cut. *)
Fixpoint split_once (c : ascii) (s : string) : string * option string :=
  match s with
  | EmptyString => (EmptyString, None)
  | String d r =>
      if Ascii.eqb c d then (EmptyString, Some r)
      else let '(a, b) := split_once c r in (String d a, b)
  end.

(** [s.replace(old, new)] for a non-empty [old]; [skip] counts the
    characters of a replaced occurrence still to be passed over. *)
Fixpoint replace_aux (old new : string) (skip : nat) (s : string) : string :=
  match s with
  | EmptyString => EmptyString
  | String c r =>
      match skip with
      | S k => replace_aux old new k r
      | O =>
          if startswith old s
          then new +:+ replace_aux old new (String.length old - 1) r
          else String c (replace_aux old new O r)
      end
  end.

Definition replace (old new s : string) : string := replace_aux old new O s.

(** [sep.join(parts)] *)
Fixpoint join (sep : string) (parts : list string) : string :=
  match parts with
  | [] => EmptyString
  | [p] => p
  | p :: ps => p +:+ sep +:+ join sep ps
  end.

(** [str(n)] for a natural number and for an integer *)
Definition of_nat (n : nat) : string := NilZero.string_of_uint (Nat.to_uint n).
Definition of_Z (z : Z) : string := NilZero.string_of_int (Z.to_int z).

(** [list(dict.fromkeys(l))]: duplicates removed, first occurrences kept. *)
Fixpoint dedupe (l : list string) : list string :=
  match l with
  | [] => []
  | x :: r => x :: List.filter (fun y => negb (String.eqb x y)) (dedupe r)
  end.

End PyStr.

(** ** The classification engine ([skills/keyword_analyzer.py]) *)

Module Analyzer.
Import PyStr.

(** The dataclass [KeywordAnalysis].  Its [confidence] field is a binary
    float that no decision of the workflow reads; it is left out. *)
Record KeywordAnalysis := mkAnalysis {
  needs_reply : bool;
  reason : string;
  priority : Z;
  priority_label : string;
  category : string;
  subcategory : option string;
  suggested_reply : option string;
  risk_level : string;
  risk_score : Z;
  auto_approve : bool;
  requires_human_review : bool;
  risk_factors : list string;
  action_items : list string;
  business_terms : list string
}.

Definition PRIORITY_KEYWORDS : list (string * Z) :=
  [ ("urgent", 5); ("emergency", 5); ("critical", 5); ("immediate", 5);
    ("asap", 5); ("deadline today", 5); ("now", 5); ("right away", 5);
    ("deadline", 4); ("important", 4); ("priority", 4); ("time sensitive", 4);
    ("expiring", 4); ("expiring soon", 4); ("last chance", 4); ("final notice", 4);
    ("overdue", 4); ("payment due", 4); ("contract", 4); ("agreement", 4);
    ("legal", 4); ("compliance", 4); ("regulatory", 4); ("audit", 4);
    ("meeting", 3); ("call", 3); ("schedule", 3); ("appointment", 3);
    ("interview", 3); ("demo", 3); ("presentation", 3); ("review", 3);
    ("invoice", 3); ("quote", 3); ("proposal", 3); ("estimate", 3);
    ("project", 3); ("deliverable", 3); ("milestone", 3); ("release", 3);
    ("update", 2); ("status", 2); ("progress", 2); ("report", 2);
    ("question", 2); ("inquiry", 2); ("request", 2); ("help", 2);
    ("support", 2); ("assistance", 2); ("guidance", 2); ("advice", 2);
    ("feedback", 2); ("input", 2); ("thoughts", 2); ("opinion", 2);
    ("discussion", 2); ("consult", 2); ("advise", 2); ("confirm", 2);
    ("information", 1); ("fyi", 1); ("for your information", 1);
    ("newsletter", 1); ("announcement", 1); ("notification", 1);
    ("marketing", 1); ("promotion", 1); ("offer", 1) ].

Definition RISK_KEYWORDS : list (string * Z) :=
  [ ("lawsuit", 100); ("legal action", 100); ("court", 100); ("litigation", 100);
    ("breach", 100); ("violation", 100); ("penalty", 100); ("fine", 100);
    ("complaint", 75); ("dispute", 75); ("conflict", 75); ("escalation", 75);
    ("unhappy", 75); ("dissatisfied", 75); ("cancel", 75); ("termination", 75);
    ("refund", 75); ("chargeback", 75); ("money back", 75);
    ("confidential", 50); ("secret", 50); ("proprietary", 50); ("sensitive", 50);
    ("nda", 50); ("non-disclosure", 50); ("private", 50);
    ("financial", 50); ("bank", 50); ("credit", 50); ("payment", 50);
    ("salary", 50); ("compensation", 50); ("negotiate", 50); ("bargain", 50);
    ("contract", 25); ("agreement", 25); ("terms", 25); ("conditions", 25);
    ("commit", 25); ("promise", 25); ("guarantee", 25); ("deadline", 25);
    ("delivery", 25); ("shipment", 25); ("launch", 25); ("release", 25) ].

(** The set literal [BUSINESS_CRITICAL]; it repeats 'contract' and
    'agreement', which a set holds once.  A Python set has no fixed
    iteration order: the order below is the order of first occurrence. *)
Definition BUSINESS_CRITICAL : list string :=
  dedupe
  [ "pricing"; "price"; "cost"; "quote"; "estimate"; "proposal"; "bid";
    "contract"; "agreement"; "nda"; "sign"; "signature"; "execute";
    "commitment"; "deliverable"; "promise"; "guarantee"; "warranty";
    "payment"; "invoice"; "pay"; "refund"; "billing"; "charge";
    "legal"; "lawsuit"; "attorney"; "liability"; "indemnify";
    "project"; "service"; "product"; "feature"; "specification"; "scope";
    "attach"; "attachment"; "document"; "file"; "contract"; "agreement" ].

Definition CATEGORIES : list (string * list string) :=
  [ ("finance", ["invoice"; "payment"; "quote"; "pricing"; "cost"; "budget"; "financial"; "billing"]);
    ("legal", ["contract"; "agreement"; "legal"; "nda"; "lawsuit"; "attorney"; "compliance"]);
    ("hr", ["hiring"; "firing"; "recruit"; "interview"; "salary"; "employment"; "resume"; "candidate"]);
    ("project", ["project"; "deliverable"; "milestone"; "deadline"; "scope"; "timeline"; "release"]);
    ("meeting", ["meeting"; "call"; "schedule"; "appointment"; "calendar"; "zoom"; "teams"]);
    ("support", ["help"; "support"; "issue"; "problem"; "error"; "bug"; "fix"; "troubleshoot"]);
    ("sales", ["sales"; "lead"; "prospect"; "customer"; "client"; "opportunity"; "deal"]);
    ("marketing", ["marketing"; "campaign"; "promotion"; "advertisement"; "social media"]);
    ("operations", ["operations"; "process"; "workflow"; "procedure"; "logistics"; "inventory"]);
    ("technical", ["technical"; "development"; "engineering"; "api"; "integration"; "code"]);
    ("communication", ["update"; "announcement"; "newsletter"; "notification"; "fyi"; "information"]) ].

(** [ACTION_PATTERNS]: every pattern is a literal head, [\s+] and a
    captured [\w+].  A pattern is kept as the list of its literal heads
    in the order the regular expression engine tries them
    ([require[s]?] tries 'requires' before 'require'). *)
Definition ACTION_PATTERNS : list (list string) :=
  [ ["please"]; ["can you"]; ["could you"]; ["would you"]; ["need you to"];
    ["requires"; "require"]; ["looking for"]; ["i want"]; ["interested in"] ].

Definition SAFE_PATTERNS : list string :=
  [ "thank you"; "thanks"; "appreciate"; "acknowledged"; "received";
    "got it"; "noted"; "understood"; "confirm receipt"; "well received" ].

(** The analyzer object: the custom keywords read from the company
    handbook when it was built (a set; empty without a handbook). *)
Record KeywordAnalyzer := mkAnalyzer { company_keywords : list string }.

Definition priority_label_of (score : Z) : string :=
  if score =? 5 then "urgent"
  else if score =? 4 then "high"
  else if score =? 3 then "medium"
  else if score =? 2 then "normal"
  else if score =? 1 then "low"
  else "normal".

Record PriorityInfo := mkPriority {
  p_score : Z; p_label : string; p_matched : list string }.

Definition _calculate_priority (self : KeywordAnalyzer) (text : string) : PriorityInfo :=
  let hits := List.filter (fun kw => contains (fst kw) text) PRIORITY_KEYWORDS in
  let max_score := fold_left (fun m kw => if m <? snd kw then snd kw else m) hits 0 in
  let chits := List.filter (fun kw => contains kw text) (company_keywords self) in
  let max_score := match chits with
                   | [] => max_score
                   | _ => if max_score <? 3 then 3 else max_score
                   end in
  let matched := (map fst hits ++ map (fun kw => "company: " +:+ kw) chits)%list in
  let max_score :=
    if any_in ["!"; "urgent"; "asap"; "immediately"] text
    then Z.min 5 (max_score + 1) else max_score in
  let max_score := Z.max 1 max_score in
  mkPriority max_score (priority_label_of max_score) matched.

Record CategoryInfo := mkCategory { c_category : string; c_hits : Z }.

Definition category_scores (text : string) : list (string * Z) :=
  List.filter (fun cs => 0 <? snd cs)
    (map (fun ck => (fst ck,
                     Z.of_nat (length (List.filter (fun kw => contains kw text) (snd ck)))))
         CATEGORIES).

(** [max(scores, key=scores.get)]: the first key with the largest value. *)
Definition best_of (scores : list (string * Z)) : option (string * Z) :=
  fold_left (fun best cs =>
               match best with
               | None => Some cs
               | Some b => if snd b <? snd cs then Some cs else Some b
               end) scores None.

Definition _detect_category (text : string) : CategoryInfo :=
  match best_of (category_scores text) with
  | None => mkCategory "general" 0
  | Some (c, n) => mkCategory c n
  end.

Record RiskInfo := mkRisk { r_level : string; r_score : Z; r_factors : list string }.

Definition _assess_risk (text : string) : RiskInfo :=
  let khits := List.filter (fun kw => contains (fst kw) text) RISK_KEYWORDS in
  let bhits := List.filter (fun t => contains t text) BUSINESS_CRITICAL in
  let total_score :=
    fold_left (fun acc kw => acc + snd kw) khits 0 + 15 * Z.of_nat (length bhits) in
  let factors :=
    (map (fun kw => "'" +:+ fst kw +:+ "' detected") khits ++
     map (fun t => "Business-critical: " +:+ t) bhits)%list in
  let level :=
    if 75 <=? total_score then "critical"
    else if 50 <=? total_score then "high"
    else if 25 <=? total_score then "medium"
    else if 10 <=? total_score then "low"
    else "safe" in
  mkRisk level (Z.min 100 total_score) factors.

(** One attempt of [head \s+ (\w+)] at the start of [s]: the text of the
    match.  Both repetitions are greedy and their classes are disjoint,
    so backtracking never finds a match the greedy run misses. *)
Definition match_action_at (heads : list string) (s : string) : option string :=
  let try_head (h : string) : option string :=
    if startswith h s then
      let '(ws, r1) := span isspace (drop (String.length h) s) in
      let '(w, _) := span isword r1 in
      match ws, w with
      | String _ _, String _ _ => Some (h +:+ ws +:+ w)
      | _, _ => None
      end
    else None in
  fold_left (fun acc h => match acc with Some m => Some m | None => try_head h end)
            heads None.

(** [re.finditer]: matches from left to right that do not overlap. *)
Fixpoint finditer_action (heads : list string) (skip : nat) (s : string) : list string :=
  match s with
  | EmptyString => []
  | String _ r =>
      match skip with
      | S k => finditer_action heads k r
      | O =>
          match match_action_at heads s with
          | Some m => m :: finditer_action heads (String.length m - 1) r
          | None => finditer_action heads O r
          end
      end
  end.

(** [list(set(action_items))[:5]].  The order of a Python set of strings
    is unspecified; the model keeps first occurrences in order.  The
    number of items, which is all the decisions read, does not depend on
    that order. *)
Definition _extract_action_items (text : string) : list string :=
  let from_patterns :=
    concat (map (fun heads =>
                   List.filter (fun a => (5 <? String.length a)%nat)
                               (finditer_action heads O text))
                ACTION_PATTERNS) in
  let action_verbs := ["please"; "can you"; "could you"; "would you"; "need to"; "should"] in
  let sentences :=
    split_on (fun c => Ascii.eqb c "."%char || Ascii.eqb c "!"%char || Ascii.eqb c "?"%char) text in
  let from_sentences :=
    List.filter (fun s => (10 <? String.length s)%nat)
      (map strip (List.filter (fun s => any_in action_verbs s) sentences)) in
  firstn 5 (dedupe (from_patterns ++ from_sentences)%list).

Definition _extract_business_terms (text : string) : list string :=
  dedupe (List.filter (fun t => contains t text) BUSINESS_CRITICAL).

Definition _needs_reply (text : string) (action_items : list string) : bool :=
  if contains "?" text then true
  else if negb (match action_items with [] => true | _ => false end) then true
  else if any_in ["please"; "can you"; "could you"; "would you"; "need"; "help"] text then true
  else if any_in ["fw:"; "fwd:"; "re:"] text then true
  else false.

(** [conversation_history] is [None] or a list of earlier messages;
    only its length is read. *)
Definition _determine_approval {M : Type}
    (text : string) (risk_score : Z) (business_terms action_items : list string)
    (conversation_history : option (list M)) : bool * bool :=
  let is_safe_pattern := any_in SAFE_PATTERNS text in
  if 50 <=? risk_score then (false, true)
  else if negb (match business_terms with [] => true | _ => false end) then (false, true)
  else if (2 <? length action_items)%nat then (false, true)
  else if match conversation_history with
          | Some h => negb (match h with [] => true | _ => false end) && (3 <? length h)%nat
          | None => false
          end then (false, true)
  else if is_safe_pattern && (risk_score <? 25) then (true, false)
  else if (length action_items <=? 1)%nat && (risk_score <? 25) then (true, false)
  else (false, true).

(** [conversation_history and len(conversation_history) > 3] *)
Definition long_thread {M : Type} (history : option (list M)) : bool :=
  match history with
  | Some h => (3 <? length h)%nat
  | None => false
  end.

Definition category_replies (sender_name : string) : list (string * string) :=
  [ ("finance", "Hi " +:+ sender_name +:+ ",

Thank you for your email regarding financial matters. I've received your message and will review the details shortly. I'll get back to you as soon as possible.

Best regards");
    ("legal", "Hi " +:+ sender_name +:+ ",

I've received your message regarding legal matters. This requires careful review, and I'll get back to you shortly after I've had a chance to assess the details.

Best regards");
    ("hr", "Hi " +:+ sender_name +:+ ",

Thank you for reaching out regarding HR matters. I've received your message and will review it promptly. I'll be in touch soon with any follow-up.

Best regards");
    ("project", "Hi " +:+ sender_name +:+ ",

Thank you for the update regarding the project. I've received your message and will review the details. I'll follow up with you shortly if any action is needed on my part.

Best regards");
    ("meeting", "Hi " +:+ sender_name +:+ ",

Thank you for reaching out. I'd be happy to schedule a meeting. Could you please share a few time slots that work well for you? I'll do my best to accommodate.

Best regards");
    ("support", "Hi " +:+ sender_name +:+ ",

Thank you for reaching out for support. I've received your message and understand you need assistance with this matter. I'll look into it and get back to you shortly.

Best regards") ].

(** [dict.get] on an insertion-ordered list of pairs with distinct keys. *)
Fixpoint assoc_get {V : Type} (k : string) (d : list (string * V)) : option V :=
  match d with
  | [] => None
  | (k', v) :: r => if String.eqb k k' then Some v else assoc_get k r
  end.

Definition _generate_reply (sender subject category : string)
    (action_items : list string) (needs_reply : bool) : option string :=
  if negb needs_reply then None
  else
    let first := hd EmptyString (split_char "<"%char sender) in
    let sender_name :=
      match capitalize (strip first) with
      | EmptyString => "there"
      | n => n
      end in
    let combined := lower subject +:+ " " +:+ lower (join " " action_items) in
    if any_in SAFE_PATTERNS combined then
      Some ("Hi " +:+ sender_name +:+ ",

Thank you for your message. I've received it and appreciate you reaching out.

Best regards")
    else
      match assoc_get category (category_replies sender_name) with
      | Some r => Some r
      | None =>
          Some ("Hi " +:+ sender_name +:+ ",

Thank you for your email. I've received your message and will review it shortly. I'll get back to you as soon as possible.

Best regards")
      end.

(** The text every component reads: lowered, stripped subject and body
    joined by one space. *)
Definition combined_text (subject body : string) : string :=
  strip (lower subject) +:+ " " +:+ strip (lower body).

Definition analyze {M : Type} (self : KeywordAnalyzer)
    (sender subject body : string)
    (conversation_history : option (list M)) : KeywordAnalysis :=
  let combined := combined_text subject body in
  let priority_info := _calculate_priority self combined in
  let category_info := _detect_category combined in
  let risk_info := _assess_risk combined in
  let action_items := _extract_action_items combined in
  let business_terms := _extract_business_terms combined in
  let needs_reply := _needs_reply combined action_items in
  let approval :=
    _determine_approval combined (r_score risk_info) business_terms action_items
                        conversation_history in
  let suggested_reply :=
    _generate_reply sender subject (c_category category_info) action_items needs_reply in
  let reason_parts :=
    ((match p_matched priority_info with
      | [] => []
      | _ => ["Priority: " +:+ p_label priority_info]
      end) ++
     (if String.eqb (c_category category_info) "general" then []
      else ["Category: " +:+ c_category category_info]) ++
     (match r_factors risk_info with
      | [] => []
      | fs => [of_nat (length fs) +:+ " risk factors"]
      end) ++
     (match action_items with
      | [] => []
      | items => [of_nat (length items) +:+ " action items"]
      end))%list in
  let reason :=
    match reason_parts with
    | [] => "General message analysis"
    | _ => join " | " reason_parts
    end in
  {| needs_reply := needs_reply;
     reason := reason;
     priority := p_score priority_info;
     priority_label := p_label priority_info;
     category := c_category category_info;
     subcategory := None;
     suggested_reply := suggested_reply;
     risk_level := r_level risk_info;
     risk_score := r_score risk_info;
     auto_approve := fst approval;
     requires_human_review := snd approval;
     risk_factors := r_factors risk_info;
     action_items := action_items;
     business_terms := business_terms |}.

End Analyzer.

(** ** The document store and the world around it *)

Module Store.
Import PyStr.

(** The folders of the vault the workflow touches.  A folder maps file
    names to file contents. *)
Inductive Folder :=
  Needs_Action | Plans | Approved | Done | Inbox | Auto_Sent.

(** One message handed to the send capability. *)
Record Mail := mkMail { m_to : string; m_subject : string; m_body : string }.

(** The vault, the two persisted id files, and the send capability.
    [mailer] lists the answers the capability gives to the coming calls
    of [send_email] (none left: it answers [False]); [mail_log] records
    every call with its answer, oldest first.  [sender_loadable] tells
    whether building an [EmailSender] succeeds. *)
Record World := mkWorld {
  needs_action : gmap string string;
  plans : gmap string string;
  approved : gmap string string;
  done : gmap string string;
  inbox : gmap string string;
  auto_sent : gmap string string;
  planner_cache_file : option (list string);
  executor_cache_file : option (list string);
  sender_loadable : bool;
  mailer : list bool;
  mail_log : list (Mail * bool)
}.

Definition folder (f : Folder) (w : World) : gmap string string :=
  match f with
  | Needs_Action => needs_action w
  | Plans => plans w
  | Approved => approved w
  | Done => done w
  | Inbox => inbox w
  | Auto_Sent => auto_sent w
  end.

Definition set_folder (f : Folder) (m : gmap string string) (w : World) : World :=
  match f with
  | Needs_Action =>
      mkWorld m (plans w) (approved w) (done w) (inbox w) (auto_sent w)
              (planner_cache_file w) (executor_cache_file w)
              (sender_loadable w) (mailer w) (mail_log w)
  | Plans =>
      mkWorld (needs_action w) m (approved w) (done w) (inbox w) (auto_sent w)
              (planner_cache_file w) (executor_cache_file w)
              (sender_loadable w) (mailer w) (mail_log w)
  | Approved =>
      mkWorld (needs_action w) (plans w) m (done w) (inbox w) (auto_sent w)
              (planner_cache_file w) (executor_cache_file w)
              (sender_loadable w) (mailer w) (mail_log w)
  | Done =>
      mkWorld (needs_action w) (plans w) (approved w) m (inbox w) (auto_sent w)
              (planner_cache_file w) (executor_cache_file w)
              (sender_loadable w) (mailer w) (mail_log w)
  | Inbox =>
      mkWorld (needs_action w) (plans w) (approved w) (done w) m (auto_sent w)
              (planner_cache_file w) (executor_cache_file w)
              (sender_loadable w) (mailer w) (mail_log w)
  | Auto_Sent =>
      mkWorld (needs_action w) (plans w) (approved w) (done w) (inbox w) m
              (planner_cache_file w) (executor_cache_file w)
              (sender_loadable w) (mailer w) (mail_log w)
  end.

(** [path.write_text(content)] and [path.unlink()] *)
Definition write_text (f : Folder) (name content : string) (w : World) : World :=
  set_folder f (<[name := content]> (folder f w)) w.

Definition unlink (f : Folder) (name : string) (w : World) : World :=
  set_folder f (delete name (folder f w)) w.

(** Where a path leads.  The executor and the mover join the text they
    read from a plan to the path of a folder
    ([self._needs_action / email_filename]), so the text can name a file
    of another folder.  [pathlib] drops the empty and the ['.'] parts of
    the text; the other parts are walked from the folder as POSIX does:
    ['..'] leaves a directory, a name enters a directory of the vault or
    names a file of a folder, and nothing lies below a file.  The
    folders hold plain files only; Auto_Sent is ['Logs/Auto_Sent'].
    Where an absolute text leads, and one that climbs above the vault,
    depends on where the vault lies and on what lies around it, which
    the model does not have: the vault is taken to lie where no such
    path finds a file, and to hold nothing but the six folders.  (The
    cache files at the top of the vault hold JSON, which has no
    frontmatter, so neither skill moves them.) *)
Inductive Place :=
| Vault_dir
| Logs_dir
| Folder_dir (f : Folder)
| File_of (f : Folder) (name : string)
| Elsewhere.

Definition enter_vault (part : string) : Place :=
  if String.eqb part "Needs_Action" then Folder_dir Needs_Action
  else if String.eqb part "Plans" then Folder_dir Plans
  else if String.eqb part "Approved" then Folder_dir Approved
  else if String.eqb part "Done" then Folder_dir Done
  else if String.eqb part "Inbox" then Folder_dir Inbox
  else if String.eqb part "Logs" then Logs_dir
  else Elsewhere.

Definition walk (p : Place) (part : string) : Place :=
  if String.eqb part ".." then
    match p with
    | Folder_dir Auto_Sent => Logs_dir
    | Folder_dir _ | Logs_dir => Vault_dir
    | Vault_dir | File_of _ _ | Elsewhere => Elsewhere
    end
  else
    match p with
    | Vault_dir => enter_vault part
    | Logs_dir => if String.eqb part "Auto_Sent" then Folder_dir Auto_Sent else Elsewhere
    | Folder_dir f => File_of f part
    | File_of _ _ | Elsewhere => Elsewhere
    end.

Definition path_parts (text : string) : list string :=
  List.filter (fun part => negb (String.eqb part "") && negb (String.eqb part "."))
              (split_char "/"%char text).

(** [folder / text] *)
Definition locate (f : Folder) (text : string) : Place :=
  if startswith "/" text then Elsewhere
  else fold_left walk (path_parts text) (Folder_dir f).

Definition set_planner_cache (ids : list string) (w : World) : World :=
  mkWorld (needs_action w) (plans w) (approved w) (done w) (inbox w) (auto_sent w)
          (Some ids) (executor_cache_file w)
          (sender_loadable w) (mailer w) (mail_log w).

Definition set_executor_cache (ids : list string) (w : World) : World :=
  mkWorld (needs_action w) (plans w) (approved w) (done w) (inbox w) (auto_sent w)
          (planner_cache_file w) (Some ids)
          (sender_loadable w) (mailer w) (mail_log w).

(** [EmailSender.send_email(recipient, subject, body)]: the external
    send capability.  It takes the next answer of [mailer] and records
    the call. *)
Definition send_email (recipient subject body : string) (w : World) : bool * World :=
  let ok := match mailer w with [] => false | b :: _ => b end in
  (ok,
   mkWorld (needs_action w) (plans w) (approved w) (done w) (inbox w) (auto_sent w)
           (planner_cache_file w) (executor_cache_file w)
           (sender_loadable w) (tl (mailer w))
           (mail_log w ++ [(mkMail recipient subject body, ok)])%list).

(** The readings of the clock one operation uses:
    [isoformat()], and [strftime] with ['%Y%m%d_%H%M%S'],
    ['%Y-%m-%d %H:%M'] and ['%Y-%m-%d %H:%M:%S']. *)
Record Clock := mkClock {
  iso : string; stamp : string; minute : string; second : string }.

(** [folder.glob(prefix + '*' + suffix)]: the names in the folder that
    start with [prefix] and end with [suffix] without the two
    overlapping.  The order of a directory listing is not specified;
    the model lists in the order of the map. *)
Definition glob_match (prefix suffix name : string) : bool :=
  startswith prefix name && endswith suffix name &&
  (String.length prefix + String.length suffix <=? String.length name)%nat.

Definition glob (prefix suffix : string) (m : gmap string string) : list string :=
  List.filter (glob_match prefix suffix) (map fst (map_to_list m)).

(** [Path(name).stem] for a name that ends in ['.md']. *)
Definition stem (name : string) : string :=
  take (String.length name - 3) name.

(** An insertion-ordered [dict] with string keys: [d[k] = v] keeps the
    place of a key that is present and appends a new one. *)
Fixpoint dict_set (k v : string) (d : list (string * string)) : list (string * string) :=
  match d with
  | [] => [(k, v)]
  | (k', v') :: r => if String.eqb k k' then (k, v) :: r else (k', v') :: dict_set k v r
  end.

Definition dict_update (d updates : list (string * string)) : list (string * string) :=
  fold_left (fun acc kv => dict_set (fst kv) (snd kv) acc) updates d.

Fixpoint dict_get (k : string) (d : list (string * string)) : option string :=
  match d with
  | [] => None
  | (k', v) :: r => if String.eqb k k' then Some v else dict_get k r
  end.

Definition dict_get_default (k default : string) (d : list (string * string)) : string :=
  match dict_get k d with Some v => v | None => default end.

(** The frontmatter reader shared by [VaultUpdater._parse_frontmatter]
    and [EmailPlanner._parse_email_file]: every line with a colon gives
    a key and a value, both stripped. *)
Definition parse_frontmatter_lines (frontmatter : string) : list (string * string) :=
  fold_left
    (fun acc line =>
       match split_once ":"%char line with
       | (key, Some value) => dict_set (strip key) (strip value) acc
       | (_, None) => acc
       end)
    (split_char (ascii_of_nat 10) (strip frontmatter)) [].

(** A text that starts with three dashes, cut at the next three dashes:
    [(content[3:end], content[end+3:])]. *)
Definition cut_frontmatter (content : string) : option (string * string) :=
  if startswith "---" content then
    match find_from "---" content 3 with
    | Some e => Some (take (e - 3) (drop 3 content), drop (e + 3) content)
    | None => None
    end
  else None.

End Store.

(** ** File operations of [skills/vault_update.py]

  The planner always names a file as ['Needs_Action/<name>'], a path
  with two parts, which [_resolve_path] joins to the vault path and
  accepts when the file exists.  A reference is a folder and a name. *)

Module VaultUpdate.
Import PyStr Store.

Definition _parse_frontmatter (frontmatter : string) : list (string * string) :=
  parse_frontmatter_lines frontmatter.

Definition _build_frontmatter (data : list (string * string)) : string :=
  nl +:+ join nl (map (fun kv => fst kv +:+ ": " +:+ snd kv) data) +:+ nl.

Definition update_frontmatter (f : Folder) (name : string)
    (updates : list (string * string)) (w : World) : bool * World :=
  match folder f w !! name with
  | None => (false, w)
  | Some content =>
      if startswith "---" content then
        match cut_frontmatter content with
        | None => (false, w)
        | Some (frontmatter, body) =>
            let d := dict_update (_parse_frontmatter frontmatter) updates in
            (true, write_text f name ("---" +:+ _build_frontmatter d +:+ "---" +:+ body) w)
        end
      else
        (true, write_text f name ("---" +:+ _build_frontmatter updates +:+ "---" +:+ content) w)
  end.

(** [shutil.move] to [target/<name>]; a file of that name in the target
    folder is replaced. *)
Definition move_to_folder (f : Folder) (name : string) (target : Folder)
    (w : World) : option string * World :=
  match folder f w !! name with
  | None => (None, w)
  | Some content => (Some name, write_text target name content (unlink f name w))
  end.

Definition add_note (f : Folder) (name note section : string) (now : Clock)
    (w : World) : bool * World :=
  match folder f w !! name with
  | None => (false, w)
  | Some content =>
      let section_pattern := "## " +:+ section in
      let entry := nl +:+ "- **" +:+ minute now +:+ "**: " +:+ note +:+ nl in
      let new_content :=
        match find section_pattern content with
        | Some section_index =>
            match find_from (nl +:+ "## ") content
                            (section_index + String.length section_pattern) with
            | None => content +:+ entry
            | Some next_section =>
                take next_section content +:+ entry +:+ drop next_section content
            end
        | None =>
            content +:+ nl +:+ nl +:+ "## " +:+ section +:+ entry
        end in
      (true, write_text f name new_content w)
  end.

End VaultUpdate.

(** ** The workflow engine ([skills/email_planner.py]) *)

Module Planner.
Import PyStr Store Analyzer.

(** The exceptions the modelled code can raise. *)
Inductive PyExc :=
| FileNotFoundError (path : string)
| AttributeError (message : string).

(** [str(e)] *)
Definition exc_str (e : PyExc) : string :=
  match e with
  | FileNotFoundError path => "[Errno 2] No such file or directory: '" +:+ path +:+ "'"
  | AttributeError message => message
  end.

(** A call that returns or raises, with the world it leaves. *)
Inductive outcome (A : Type) :=
| Return (a : A) (w : World)
| Raise (e : PyExc) (w : World).
Arguments Return {A} a w.
Arguments Raise {A} e w.

(** The planner object.  [email_sender] tells whether the constructor
    could build an [EmailSender]. *)
Record EmailPlanner := mkPlanner {
  processed_cache : gset string;
  email_sender : bool;
  use_ai : bool;
  analyzer : KeywordAnalyzer
}.

Definition with_processed (s : gset string) (p : EmailPlanner) : EmailPlanner :=
  mkPlanner s (email_sender p) (use_ai p) (analyzer p).

(** [_load_cache] inside [__init__]: the ids of the cache file, or the
    empty set when there is none. *)
Definition _load_cache (w : World) : gset string :=
  match planner_cache_file w with
  | Some ids => list_to_set ids
  | None => ∅
  end.

Definition new_planner (use_ai : bool) (analyzer : KeywordAnalyzer) (w : World) : EmailPlanner :=
  mkPlanner (_load_cache w) (sender_loadable w) use_ai analyzer.

Definition _save_cache (p : EmailPlanner) (w : World) : World :=
  set_planner_cache (elements (processed_cache p)) w.

(** One entry of the list [plan_all_emails] returns. *)
Record PlanResult := mkResult {
  res_email_file : string;
  res_action : string;
  res_from : option string;
  res_subject : option string;
  res_needs_reply : option bool;
  res_risk_level : option string;
  res_auto_approve : option bool;
  res_reason : option string;
  res_reply : option string;
  res_success : option bool;
  res_plan_id : option string;
  res_error : option string
}.

Definition _parse_email_file (content : string) : list (string * string) * string :=
  match cut_frontmatter content with
  | Some (frontmatter, body) => (parse_frontmatter_lines frontmatter, body)
  | None => ([], content)
  end.

Definition analyze_email (p : EmailPlanner) (metadata : list (string * string))
    (body : string) : KeywordAnalysis :=
  @analyze unit (analyzer p)
           (dict_get_default "from" "" metadata)
           (dict_get_default "subject" "" metadata)
           body None.

Definition _archive_email (now : Clock) (name : string) (w : World) : World :=
  let '(_, w1) :=
    VaultUpdate.update_frontmatter Needs_Action name
      [("status", "archived"); ("archived_at", iso now)] w in
  snd (VaultUpdate.move_to_folder Needs_Action name Done w1).

Definition _log_auto_send (p : EmailPlanner) (now : Clock)
    (email_file recipient subject : string) (analysis : KeywordAnalysis)
    (w : World) : World :=
  let content :=
"---
type: auto_sent_email
original_email: " +:+ email_file +:+ "
recipient: " +:+ recipient +:+ "
subject: " +:+ subject +:+ "
risk_level: " +:+ risk_level analysis +:+ "
sent_at: " +:+ iso now +:+ "
---

# ✅ Auto-Sent Email

**Original Email:** " +:+ email_file +:+ "
**To:** " +:+ recipient +:+ "
**Subject:** " +:+ subject +:+ "
**Risk Level:** " +:+ upper (risk_level analysis) +:+ "
**Sent:** " +:+ second now +:+ "

---

## AI Analysis

**Category:** " +:+ category analysis +:+ "
**Priority:** " +:+ priority_label analysis +:+ "
**Reason:** " +:+ reason analysis +:+ "
**Risk Factors:** " +:+ (match risk_factors analysis with
                       | [] => "None"
                       | fs => join ", " fs
                       end) +:+ "

---

## Auto-Sent Reply

```
" +:+ (match suggested_reply analysis with Some r => r | None => "None" end) +:+ "
```

---

*Auto-approved and sent by AI Employee*
*AI Analysis: " +:+ (if use_ai p then "Claude" else "Keyword-based") +:+ "*
" in
  write_text Auto_Sent ("AUTO_SENT_" +:+ stamp now +:+ ".md") content w.

(** [DashboardUpdater.record_email_sent] and [record_plan_created]
    rewrite the dashboard page, which is none of the modelled folders,
    and run inside their own [try]; they leave the world as it is. *)
Definition _auto_send_email (p : EmailPlanner) (now : Clock) (name : string)
    (metadata : list (string * string)) (analysis : KeywordAnalysis)
    (w : World) : bool * World :=
  match email_sender p, suggested_reply analysis with
  | false, _ | _, None | _, Some EmptyString => (false, w)
  | true, Some reply =>
      let recipient := dict_get_default "from" "" metadata in
      let subject := dict_get_default "subject" "" metadata in
      let subject :=
        if negb (String.eqb subject "") && negb (startswith "Re:" subject)
        then "Re: " +:+ subject else subject in
      let '(success, w1) := send_email recipient subject reply w in
      if success then
        let w2 := _log_auto_send p now name recipient subject analysis w1 in
        let '(_, w3) :=
          VaultUpdate.update_frontmatter Needs_Action name
            [("status", "auto_sent"); ("auto_sent_at", iso now)] w2 in
        let '(_, w4) := VaultUpdate.move_to_folder Needs_Action name Done w3 in
        (true, w4)
      else (false, w1)
  end.

Definition _generate_suggested_actions (analysis : KeywordAnalysis) : list string :=
  ((if 4 <=? priority analysis then ["🚨 URGENT: Review and respond immediately"]
    else if priority analysis =? 3 then ["⚡ HIGH: Respond within 2 hours"]
    else []) ++
   (if String.eqb (risk_level analysis) "high"
    then ["⚠️ Review carefully - sensitive content detected";
          "Consider consulting with relevant stakeholders"]
    else []) ++
   (match assoc_get (category analysis)
            [ ("invoice", ["Review invoice details"; "Check against records";
                           "Forward to accounting if needed"]);
              ("meeting", ["Check calendar availability"; "Confirm or propose time"]);
              ("project", ["Review requirements"; "Assess timeline and resources"]);
              ("support", ["Investigate issue"; "Prepare solution"]) ] with
    | Some acts => acts
    | None => []
    end))%list.

(** [analysis.conversation_context]: the dataclass [KeywordAnalysis]
    declares no such field and nothing adds one, so reading the
    attribute raises [AttributeError]. *)
Definition conversation_context (analysis : KeywordAnalysis)
    : PyExc + list (string * string) :=
  inl (AttributeError "'KeywordAnalysis' object has no attribute 'conversation_context'").

(** The text [_create_review_plan] builds for the plan file, given the
    value of [analysis.conversation_context]. *)
Definition review_plan_content (p : EmailPlanner) (now : Clock)
    (plan_id email_filename : string) (analysis : KeywordAnalysis)
    (metadata : list (string * string)) (body : string)
    (context : list (string * string)) : string :=
  let priority_emoji :=
    match assoc_get (priority_label analysis)
            [("critical", "🔴"); ("high", "🟠"); ("normal", "🟡"); ("low", "🟢")] with
    | Some e => e | None => "🟡" end in
  let risk_emoji :=
    match assoc_get (risk_level analysis)
            [("safe", "✅"); ("low", "🟢"); ("medium", "🟡"); ("high", "🔴")] with
    | Some e => e | None => "🟡" end in
  let subject := dict_get_default "subject" "No Subject" metadata in
  let sender := dict_get_default "from" "Unknown" metadata in
  let content :=
"---
type: email_plan
plan_id: " +:+ plan_id +:+ "
email_file: " +:+ email_filename +:+ "
priority: " +:+ priority_label analysis +:+ "
risk_level: " +:+ risk_level analysis +:+ "
auto_approve: " +:+ (if auto_approve analysis then "true" else "false") +:+ "
status: pending_approval
created: " +:+ iso now +:+ "
category: " +:+ category analysis +:+ "
---

# Email Response Plan: " +:+ subject +:+ "

**From:** " +:+ sender +:+ "
**Priority:** " +:+ priority_emoji +:+ " " +:+ upper (priority_label analysis) +:+ "
**Risk Level:** " +:+ risk_emoji +:+ " " +:+ upper (risk_level analysis) +:+ "
**Category:** " +:+ capitalize (category analysis) +:+ "
**Created:** " +:+ minute now +:+ "

---

## AI Analysis

**Needs Reply:** " +:+ (if needs_reply analysis then "✅ Yes" else "❌ No") +:+ "

**Reason:** " +:+ reason analysis +:+ "

**Auto-Approve Decision:** " +:+ (if auto_approve analysis
                                then "✅ Auto-approved (sent directly)"
                                else "⏳ Pending human review") +:+ "

" in
  let content :=
    match risk_factors analysis with
    | [] => content
    | fs =>
        content +:+ "**Risk Factors Detected:**" +:+ nl +:+
        fold_left (fun acc factor => acc +:+ "- ⚠️ " +:+ factor +:+ nl) fs "" +:+ nl
    end in
  let content :=
    match dict_get "conversation_aware" context with
    | None | Some EmptyString => content
    | Some _ =>
        content +:+ "📝 **Context:** " +:+
        dict_get_default "context_notes" "Conversation history considered" context +:+
        nl +:+ nl
    end in
  let content := content +:+
"---

## Suggested Actions

" in
  let content :=
    fold_left (fun acc action => acc +:+ "- [ ] " +:+ action +:+ nl)
              (_generate_suggested_actions analysis) content in
  match suggested_reply analysis with
  | None | Some EmptyString => content
  | Some reply => content +:+ "

---

## 📝 AI-Generated Draft Reply

```
" +:+ reply +:+ "
```

**Instructions:**
1. Review the draft reply above
2. Edit as needed
3. To approve and send: Move this file to `Approved/` folder
4. To reject: Move to `Rejected/` folder
5. To modify: Edit this file directly

---

## Approval Workflow

**Status:** ⏳ Pending Human Review

**Next Steps:**
- Review AI analysis and draft reply
- Make any necessary edits
- Move file to trigger action:
  - Move to `AI_Employee_Vault/Approved/" +:+ plan_id +:+ ".md` → Send email
  - Move to `AI_Employee_Vault/Rejected/" +:+ plan_id +:+ ".md` → Cancel
  - Keep in `Plans/` → Hold for later

---

## Original Email

**Subject:** " +:+ subject +:+ "
**From:** " +:+ sender +:+ "
**Date:** " +:+ dict_get_default "date" "" metadata +:+ "

" +:+ take 500 body +:+ (if (500 <? String.length body)%nat then "..." else "") +:+ "

---

*Generated by AI Employee Email Planner*
*Analysis Method: " +:+ (if use_ai p then "AI" else "Keyword-based") +:+ "*
*Original Email: " +:+ email_filename +:+ "*
"
  end.

Definition review_plan_id (now : Clock) (email_filename : string) : string :=
  let clean_name :=
    if endswith ".md" email_filename
    then take (String.length email_filename - 3) email_filename
    else email_filename in
  "PLAN_" +:+ stamp now +:+ "_" +:+ clean_name.

(** [_create_review_plan]: the plan text is built up to the risk
    factors, then [analysis.conversation_context] is read.  Nothing has
    been written at that point. *)
Definition _create_review_plan (p : EmailPlanner) (now : Clock)
    (email_filename : string) (analysis : KeywordAnalysis)
    (metadata : list (string * string)) (body : string) (w : World)
    : outcome string :=
  let plan_id := review_plan_id now email_filename in
  match conversation_context analysis with
  | inl e => Raise e w
  | inr context =>
      let content :=
        review_plan_content p now plan_id email_filename analysis metadata body context in
      let w1 := write_text Plans (plan_id +:+ ".md") content w in
      let '(_, w2) :=
        VaultUpdate.add_note Needs_Action email_filename
          ("Plan created: " +:+ plan_id +:+ ".md in Plans/") "AI Analysis" now w1 in
      Return plan_id w2
  end.

Definition base_result (name : string) (metadata : list (string * string))
    (analysis : KeywordAnalysis) (action : string) : PlanResult :=
  {| res_email_file := name;
     res_action := action;
     res_from := Some (dict_get_default "from" "Unknown" metadata);
     res_subject := Some (dict_get_default "subject" "No Subject" metadata);
     res_needs_reply := Some (needs_reply analysis);
     res_risk_level := Some (risk_level analysis);
     res_auto_approve := Some (auto_approve analysis);
     res_reason := None; res_reply := None; res_success := None;
     res_plan_id := None; res_error := None |}.

Definition error_result (name : string) (e : PyExc) : PlanResult :=
  {| res_email_file := name;
     res_action := "error";
     res_from := None; res_subject := None; res_needs_reply := None;
     res_risk_level := None; res_auto_approve := None;
     res_reason := None; res_reply := None; res_success := None;
     res_plan_id := None; res_error := Some (exc_str e) |}.

Definition with_reason (r : string) (x : PlanResult) : PlanResult :=
  {| res_email_file := res_email_file x; res_action := res_action x;
     res_from := res_from x; res_subject := res_subject x;
     res_needs_reply := res_needs_reply x; res_risk_level := res_risk_level x;
     res_auto_approve := res_auto_approve x;
     res_reason := Some r; res_reply := res_reply x; res_success := res_success x;
     res_plan_id := res_plan_id x; res_error := res_error x |}.

Definition with_reply (reply : string) (success : bool) (x : PlanResult) : PlanResult :=
  {| res_email_file := res_email_file x; res_action := res_action x;
     res_from := res_from x; res_subject := res_subject x;
     res_needs_reply := res_needs_reply x; res_risk_level := res_risk_level x;
     res_auto_approve := res_auto_approve x;
     res_reason := res_reason x; res_reply := Some reply; res_success := Some success;
     res_plan_id := res_plan_id x; res_error := res_error x |}.

Definition with_plan_id (plan_id : string) (x : PlanResult) : PlanResult :=
  {| res_email_file := res_email_file x; res_action := res_action x;
     res_from := res_from x; res_subject := res_subject x;
     res_needs_reply := res_needs_reply x; res_risk_level := res_risk_level x;
     res_auto_approve := res_auto_approve x;
     res_reason := res_reason x; res_reply := res_reply x; res_success := res_success x;
     res_plan_id := Some plan_id; res_error := res_error x |}.

(** The state the loop of [plan_all_emails] carries. *)
Record LoopState := mkLoop {
  planner : EmailPlanner;
  world : World;
  results : list PlanResult
}.

(** The body of the loop for one listed file.  The whole body runs
    inside [try]: an exception adds an error entry and goes on to the
    next file without reaching the line that marks the id. *)
Definition plan_one (now : Clock) (st : LoopState) (name : string) : LoopState :=
  let p := planner st in
  let w := world st in
  if decide (stem name ∈ processed_cache p) then st
  else
    match needs_action w !! name with
    | None =>
        mkLoop p w (results st ++ [error_result name (FileNotFoundError name)])
    | Some content =>
        let '(metadata, body) := _parse_email_file content in
        let analysis := analyze_email p metadata body in
        let marked := with_processed ({[stem name]} ∪ processed_cache p) p in
        if negb (needs_reply analysis) then
          let w1 := _archive_email now name w in
          mkLoop marked w1
                 (results st ++
                  [with_reason "No reply needed" (base_result name metadata analysis "archived")])
        else if auto_approve analysis then
          let reply :=
            match suggested_reply analysis with
            | Some r => take 100 r
            | None => ""
            end in
          let '(success, w1) := _auto_send_email p now name metadata analysis w in
          mkLoop marked w1
                 (results st ++
                  [with_reply reply success (base_result name metadata analysis "auto_sent")])
        else
          match _create_review_plan p now name analysis metadata body w with
          | Return plan_id w1 =>
              mkLoop marked w1
                     (results st ++
                      [with_plan_id plan_id (base_result name metadata analysis "created_plan")])
          | Raise e w1 =>
              mkLoop p w1 (results st ++ [error_result name e])
          end
    end.

(** The files [plan_all_emails] lists: four globs over Needs_Action,
    concatenated.  A name matched by two of them is listed twice. *)
Definition email_files (w : World) : list string :=
  (glob "EMAIL" ".md" (needs_action w) ++ glob "EMAIL - " ".md" (needs_action w) ++
   glob "WHATSAPP" ".md" (needs_action w) ++ glob "WHATSAPP - " ".md" (needs_action w))%list.

Definition plan_loop (now : Clock) (files : list string) (st : LoopState) : LoopState :=
  fold_left (plan_one now) files st.

(** After the loop the cache is saved and the results are returned. *)
Definition finish (st : LoopState) : list PlanResult * EmailPlanner * World :=
  (results st, planner st, _save_cache (planner st) (world st)).

Definition plan_all_emails (now : Clock) (p : EmailPlanner) (w : World)
    : list PlanResult * EmailPlanner * World :=
  finish (plan_loop now (email_files w) (mkLoop p w [])).

(** The listed files whose id is not in the set [ids]. *)
Definition unprocessed (ids : gset string) (files : list string) : list string :=
  List.filter (fun f => negb (bool_decide (stem f ∈ ids))) files.

End Planner.

(** ** The approval executor ([skills/approved_plan_executor.py]) *)

Module Executor.
Import PyStr Store.

(** The executor object: the ids it holds in memory and whether its
    lazily built [EmailSender] exists yet. *)
Record ApprovedPlanExecutor := mkExecutor {
  processed_plans : gset string;
  email_sender : bool
}.

Definition _load_processed_plans (w : World) : gset string :=
  match executor_cache_file w with
  | Some ids => list_to_set ids
  | None => ∅
  end.

Definition new_executor (w : World) : ApprovedPlanExecutor :=
  mkExecutor (_load_processed_plans w) false.

Definition _save_processed_plans (ex : ApprovedPlanExecutor) (w : World) : World :=
  set_executor_cache (elements (processed_plans ex)) w.

Definition _get_email_sender (ex : ApprovedPlanExecutor) (w : World)
    : bool * ApprovedPlanExecutor :=
  if email_sender ex then (true, ex)
  else if sender_loadable w then (true, mkExecutor (processed_plans ex) true)
  else (false, ex).

Definition not_newline (c : ascii) : bool := negb (Ascii.eqb c (ascii_of_nat 10)).

(** The last character of [ws] that is not a line feed. *)
Fixpoint last_not_newline (ws : string) : option ascii :=
  match ws with
  | EmptyString => None
  | String c r =>
      match last_not_newline r with
      | Some d => Some d
      | None => if not_newline c then Some c else None
      end
  end.

(** What [\s*([^\n]+)] captures right after the key.  The greedy [\s*]
    takes the whole run of whitespace; when text follows, the group is
    the rest of that line.  When the run reaches the end of the text the
    engine gives whitespace back until a character other than a line
    feed can open the group, which is then that one character. *)
Definition field_at (rest : string) : option string :=
  let '(ws, r) := span isspace rest in
  match r with
  | String _ _ => Some (fst (span not_newline r))
  | EmptyString =>
      match last_not_newline ws with
      | Some c => Some (String c EmptyString)
      | None => None
      end
  end.

(** [re.search(key + r'\s*([^\n]+)', content)]: group 1 of the leftmost
    match. *)
Fixpoint search_field (key content : string) : option string :=
  match (if startswith key content
         then field_at (drop (String.length key) content) else None) with
  | Some g => Some g
  | None =>
      match content with
      | EmptyString => None
      | String _ r => search_field key r
      end
  end.

(** [re.search(r'^# (.+)$', content, re.MULTILINE)]: the first line that
    starts with a hash and a space and goes on. *)
Definition search_title (content : string) : option string :=
  match List.filter (fun line => startswith "# " line && (2 <? String.length line)%nat)
                    (split_char (ascii_of_nat 10) content) with
  | line :: _ => Some (drop 2 line)
  | [] => None
  end.

(** The lazy group [(.*?)] followed by [\s*] and the literal [closer]:
    the shortest text after which whitespace and the closer come. *)
Fixpoint lazy_until (closer s : string) : option string :=
  if startswith closer (lstrip s) then Some EmptyString
  else match s with
       | EmptyString => None
       | String c r => option_map (String c) (lazy_until closer r)
       end.

(** [## Suggested Reply\s*```\s*(.*?)\s*```] at the start of [s]. *)
Definition fenced_reply_at (s : string) : option string :=
  if startswith "## Suggested Reply" s then
    let r1 := lstrip (drop (String.length "## Suggested Reply") s) in
    if startswith "```" r1 then lazy_until "```" (lstrip (drop 3 r1)) else None
  else None.

(** [## Suggested Reply\s*(.*?)\s*---] at the start of [s]. *)
Definition plain_reply_at (s : string) : option string :=
  if startswith "## Suggested Reply" s then
    lazy_until "---" (lstrip (drop (String.length "## Suggested Reply") s))
  else None.

(** [re.search] with [re.DOTALL]: the leftmost position that matches. *)
Fixpoint search_with (at_start : string -> option string) (content : string) : option string :=
  match at_start content with
  | Some g => Some g
  | None =>
      match content with
      | EmptyString => None
      | String _ r => search_with at_start r
      end
  end.

(** The shortest prefix of [s] after which [closer] comes, and what
    follows the closer. *)
Fixpoint split_before (closer s : string) : option (string * string) :=
  if startswith closer s then Some (EmptyString, drop (String.length closer) s)
  else match s with
       | EmptyString => None
       | String c r =>
           match split_before closer r with
           | Some (g, rest) => Some (String c g, rest)
           | None => None
           end
       end.

(** [re.match(r'^---\n(.*?)\n---\n', content, re.DOTALL)]: group 1 and
    [content[match.end():]]. *)
Definition match_frontmatter (content : string) : option (string * string) :=
  if startswith ("---" +:+ nl) content
  then split_before (nl +:+ "---" +:+ nl) (drop 4 content)
  else None.

Definition _move_plan_to_done (now : Clock) (plan_name plan_id recipient content : string)
    (w : World) : World :=
  match match_frontmatter content with
  | Some (frontmatter, rest) =>
      let frontmatter :=
        frontmatter +:+ nl +:+ "executed_at: " +:+ iso now +:+ nl +:+
        "executed_to: " +:+ recipient +:+ nl +:+ "status: executed" in
      let new_content := "---" +:+ nl +:+ frontmatter +:+ nl +:+ "---" +:+ nl +:+ rest in
      unlink Approved plan_name (write_text Done (plan_id +:+ ".md") new_content w)
  | None => w
  end.

(** [_move_email_to_inbox]: the email is read at
    [self._needs_action / email_filename] and written at
    [self._inbox / email_filename].  A path that names a directory
    exists and cannot be read, and one that names nothing does not
    exist: both leave everything as it is. *)
Definition _move_email_to_inbox (now : Clock) (email_filename plan_id : string)
    (w : World) : World :=
  match locate Needs_Action email_filename, locate Inbox email_filename with
  | File_of email_folder email_name, File_of inbox_folder inbox_name =>
      match folder email_folder w !! email_name with
      | None => w
      | Some email_content =>
          match match_frontmatter email_content with
          | Some (frontmatter, rest) =>
              let frontmatter :=
                frontmatter +:+ nl +:+ "plan_executed_at: " +:+ iso now +:+ nl +:+
                "plan_id: " +:+ plan_id +:+ nl +:+ "status: executed" in
              let new_email_content :=
                "---" +:+ nl +:+ frontmatter +:+ nl +:+ "---" +:+ nl +:+ rest in
              unlink email_folder email_name
                     (write_text inbox_folder inbox_name new_email_content w)
          | None => w
          end
      end
  | _, _ => w
  end.

(** [_execute_plan]; every exception inside is caught and gives
    [False].  Reading a file that is gone is the one the model has. *)
Definition _execute_plan (now : Clock) (plan_name plan_id : string)
    (ex : ApprovedPlanExecutor) (w : World) : bool * ApprovedPlanExecutor * World :=
  match approved w !! plan_name with
  | None => (false, ex, w)
  | Some content =>
      match search_field "email_file:" content, search_field "from:" content with
      | Some email_file_group, Some recipient_group =>
          let email_filename := strip email_file_group in
          let recipient := strip recipient_group in
          let subject :=
            match search_field "subject:" content with
            | Some g => strip g
            | None =>
                match search_title content with
                | Some t => strip (replace "Email Response Plan: " "" t)
                | None => "Re: (No Subject)"
                end
            end in
          let subject :=
            if negb (String.eqb subject "") && negb (startswith "Re:" subject)
            then "Re: " +:+ subject else subject in
          let reply_match :=
            match search_with fenced_reply_at content with
            | Some g => Some g
            | None => search_with plain_reply_at content
            end in
          match reply_match with
          | None => (false, ex, w)
          | Some g =>
              let suggested_reply := strip g in
              let '(available, ex1) := _get_email_sender ex w in
              if negb available then (false, ex1, w)
              else
                let '(success, w1) := send_email recipient subject suggested_reply w in
                if success then
                  let w2 := _move_plan_to_done now plan_name plan_id recipient content w1 in
                  let w3 := _move_email_to_inbox now email_filename plan_id w2 in
                  (true, ex1, w3)
                else (false, ex1, w1)
          end
      | _, _ => (false, ex, w)
      end
  end.

Record LoopState := mkLoop {
  executor : ApprovedPlanExecutor;
  world : World;
  executed_count : Z
}.

(** The body of the loop of [check_and_execute] for one listed plan. *)
Definition execute_one (now : Clock) (st : LoopState) (plan_name : string) : LoopState :=
  let plan_id := stem plan_name in
  if decide (plan_id ∈ processed_plans (executor st)) then st
  else
    let '(success, ex1, w1) := _execute_plan now plan_name plan_id (executor st) (world st) in
    let ex2 := mkExecutor ({[plan_id]} ∪ processed_plans ex1) (email_sender ex1) in
    mkLoop ex2 w1 (if success then executed_count st + 1 else executed_count st).

Definition plan_files (w : World) : list string := glob "PLAN_" ".md" (approved w).

(** [check_and_execute].  A missing Approved folder returns 0 at once,
    which is what the loop over an empty folder does as well. *)
Definition check_and_execute (now : Clock) (ex : ApprovedPlanExecutor) (w : World)
    : Z * ApprovedPlanExecutor * World :=
  let st := fold_left (execute_one now) (plan_files w) (mkLoop ex w 0) in
  let w' := if 0 <? executed_count st
            then _save_processed_plans (executor st) (world st)
            else world st in
  (executed_count st, executor st, w').

End Executor.

(** ** The health supervisor ([Watchers/failure_manager.py])

  A [datetime] is the number of microseconds since some origin and a
  [timedelta] a number of microseconds. *)

Module Health.

Inductive WatcherStatus := HEALTHY | DEGRADED | FAILED | RECOVERING.

Record WatcherHealth := mkHealth {
  name : string;
  status : WatcherStatus;
  last_heartbeat : option Z;
  last_successful_check : option Z;
  error_count : Z;
  consecutive_failures : Z;
  restart_attempts : Z;
  max_restart_attempts : Z;
  last_error : option string;
  recovery_backoff_seconds : Z;
  is_running : bool
}.

(** What the supervisor lets out, oldest first: an entry appended to
    the error log of a watcher, an alert file written to the Tasks
    folder, and the log line that sanctions a restart with its backoff. *)
Inductive Event :=
| ErrorLogged (watcher : string) (error : string) (failure_count : Z)
| AlertCreated (watcher : string) (failures : Z) (error : string)
               (attempts max_attempts : Z)
| RestartLogged (watcher : string) (attempt max_attempts backoff : Z).

(** The text an alert file shows. *)
Record Alert := mkAlert {
  alert_watcher : string;
  alert_failures : Z;
  alert_last_error : string;
  alert_restart_attempts : Z;
  alert_max_restart_attempts : Z
}.

(** The manager: its three settings, the watchers in the order they
    were first registered (a [dict]), the Tasks folder and the events.
    An alert file is named after the watcher and the second it is
    written in; the folder is keyed by that pair. *)
Record FailureManager := mkManager {
  health_check_interval : Z;
  max_restart_attempts_setting : Z;
  alert_threshold : Z;
  watchers : list (string * WatcherHealth);
  tasks : gmap (string * Z) Alert;
  events : list Event
}.

Definition FailureManager_init (health_check_interval max_restart_attempts
                                alert_threshold : Z) : FailureManager :=
  mkManager health_check_interval max_restart_attempts alert_threshold [] ∅ [].

(** [timedelta(seconds=s)] and the [seconds] field of a [timedelta]. *)
Definition timedelta_of_seconds (s : Z) : Z := s * 1000000.
Definition timedelta_seconds (d : Z) : Z := (d / 1000000) mod 86400.
Definition second_of (now : Z) : Z := now / 1000000.

Fixpoint lookup_watcher (n : string) (ws : list (string * WatcherHealth))
    : option WatcherHealth :=
  match ws with
  | [] => None
  | (k, h) :: r => if String.eqb n k then Some h else lookup_watcher n r
  end.

(** [self._watchers[n] = h] *)
Fixpoint store_watcher (n : string) (h : WatcherHealth)
    (ws : list (string * WatcherHealth)) : list (string * WatcherHealth) :=
  match ws with
  | [] => [(n, h)]
  | (k, h') :: r =>
      if String.eqb n k then (n, h) :: r else (k, h') :: store_watcher n h r
  end.

Definition error_text (error : option string) : string :=
  match error with
  | None | Some EmptyString => "Unknown error"
  | Some e => e
  end.

(** [WatcherHealth(name=n, last_heartbeat=now, last_successful_check=now,
    max_restart_attempts=maximum)]; the other fields take the defaults
    of the dataclass. *)
Definition fresh_health (now : Z) (n : string) (maximum : Z) : WatcherHealth :=
  {| name := n; status := HEALTHY;
     last_heartbeat := Some now; last_successful_check := Some now;
     error_count := 0; consecutive_failures := 0; restart_attempts := 0;
     max_restart_attempts := maximum;
     last_error := None; recovery_backoff_seconds := 30;
     is_running := true |}.

Definition register_watcher (now : Z) (n : string) (m : FailureManager) : FailureManager :=
  mkManager (health_check_interval m) (max_restart_attempts_setting m) (alert_threshold m)
            (store_watcher n (fresh_health now n (max_restart_attempts_setting m))
                           (watchers m))
            (tasks m) (events m).

(** The effects of one step on one watcher: events and alert files. *)
Record Effects := mkEffects {
  new_events : list Event;
  new_alerts : list ((string * Z) * Alert)
}.

Definition no_effects : Effects := mkEffects [] [].

Definition seq_effects (a b : Effects) : Effects :=
  mkEffects (new_events a ++ new_events b) (new_alerts a ++ new_alerts b).

Definition _log_error (watcher : string) (error : option string) (failure_count : Z)
    : Effects :=
  mkEffects [ErrorLogged watcher (error_text error) failure_count] [].

Definition _create_alert (now : Z) (watcher : string) (h : WatcherHealth) : Effects :=
  mkEffects
    [AlertCreated watcher (consecutive_failures h) (error_text (last_error h))
                  (restart_attempts h) (max_restart_attempts h)]
    [((watcher, second_of now),
      mkAlert watcher (consecutive_failures h) (error_text (last_error h))
              (restart_attempts h) (max_restart_attempts h))].

(** The heartbeat of a registered watcher. *)
Definition heartbeat (now : Z) (threshold : Z) (n : string) (is_healthy : bool)
    (error : option string) (h : WatcherHealth) : WatcherHealth * Effects :=
  if is_healthy then
    ({| name := name h; status := HEALTHY;
        last_heartbeat := Some now; last_successful_check := Some now;
        error_count := error_count h; consecutive_failures := 0;
        restart_attempts := restart_attempts h;
        max_restart_attempts := max_restart_attempts h;
        last_error := None;
        recovery_backoff_seconds := recovery_backoff_seconds h;
        is_running := true |}, no_effects)
  else
    let failures := consecutive_failures h + 1 in
    let h' :=
      {| name := name h;
         status := if 3 <=? failures then FAILED
                   else if 1 <=? failures then DEGRADED
                   else status h;
         last_heartbeat := Some now;
         last_successful_check := last_successful_check h;
         error_count := error_count h + 1; consecutive_failures := failures;
         restart_attempts := restart_attempts h;
         max_restart_attempts := max_restart_attempts h;
         last_error := error;
         recovery_backoff_seconds := recovery_backoff_seconds h;
         is_running := is_running h |} in
    (h', seq_effects (_log_error n error failures)
                     (if threshold <=? failures then _create_alert now n h'
                      else no_effects)).

(** The backoff [_attempt_restart] computes for attempt number [n] of a
    worker with the given base. *)
Definition backoff_delay (base n : Z) : Z := base * 2 ^ (n - 1).

Definition _attempt_restart (now : Z) (n : string) (h : WatcherHealth)
    : WatcherHealth * Effects :=
  if max_restart_attempts h <=? restart_attempts h then
    (h, _create_alert now n h)
  else
    let attempts := restart_attempts h + 1 in
    let backoff := backoff_delay (recovery_backoff_seconds h) attempts in
    ({| name := name h; status := RECOVERING;
        last_heartbeat := last_heartbeat h;
        last_successful_check := last_successful_check h;
        error_count := error_count h;
        consecutive_failures := consecutive_failures h;
        restart_attempts := attempts;
        max_restart_attempts := max_restart_attempts h;
        last_error := last_error h;
        recovery_backoff_seconds := recovery_backoff_seconds h;
        is_running := is_running h |},
     mkEffects [RestartLogged n attempts (max_restart_attempts h) backoff] []).

(** The three assignments [_check_all_watchers] makes when it finds a
    running watcher with a stale heartbeat. *)
Definition mark_stale (h : WatcherHealth) : WatcherHealth :=
  {| name := name h; status := FAILED;
     last_heartbeat := last_heartbeat h;
     last_successful_check := last_successful_check h;
     error_count := error_count h;
     consecutive_failures := consecutive_failures h + 1;
     restart_attempts := restart_attempts h;
     max_restart_attempts := max_restart_attempts h;
     last_error := last_error h;
     recovery_backoff_seconds := recovery_backoff_seconds h;
     is_running := false |}.

(** [time_since_heartbeat > timeout_threshold and health.is_running] *)
Definition is_stale (now interval : Z) (h : WatcherHealth) : bool :=
  match last_heartbeat h with
  | Some t => (timedelta_of_seconds (interval * 3) <? now - t) && is_running h
  | None => false
  end.

(** The body of the loop of [_check_all_watchers] for one watcher. *)
Definition check_watcher (now interval threshold : Z) (n : string) (h : WatcherHealth)
    : WatcherHealth * Effects :=
  if is_stale now interval h then
    let since := now - match last_heartbeat h with Some t => t | None => 0 end in
    let h1 := mark_stale h in
    let logged :=
      _log_error n
        (Some ("Heartbeat timeout (" +:+ PyStr.of_Z (timedelta_seconds since) +:+ "s)"))
        (consecutive_failures h1) in
    if consecutive_failures h1 <? threshold then
      let '(h2, e) := _attempt_restart now n h1 in
      (h2, seq_effects logged e)
    else (h1, logged)
  else (h, no_effects).

Definition apply_effects (e : Effects) (m : FailureManager)
    (ws : list (string * WatcherHealth)) : FailureManager :=
  mkManager (health_check_interval m) (max_restart_attempts_setting m) (alert_threshold m)
            ws
            (fold_left (fun t ka => <[fst ka := snd ka]> t) (new_alerts e) (tasks m))
            (events m ++ new_events e).

(** [update_heartbeat]: an unknown name only logs a warning. *)
Definition update_heartbeat (now : Z) (n : string) (is_healthy : bool)
    (error : option string) (m : FailureManager) : FailureManager :=
  match lookup_watcher n (watchers m) with
  | None => m
  | Some h =>
      let '(h', e) := heartbeat now (alert_threshold m) n is_healthy error h in
      apply_effects e m (store_watcher n h' (watchers m))
  end.

Fixpoint check_each (now interval threshold : Z) (ws : list (string * WatcherHealth))
    : list (string * WatcherHealth) * Effects :=
  match ws with
  | [] => ([], no_effects)
  | (n, h) :: r =>
      let '(h', e) := check_watcher now interval threshold n h in
      let '(r', er) := check_each now interval threshold r in
      ((n, h') :: r', seq_effects e er)
  end.

Definition _check_all_watchers (now : Z) (m : FailureManager) : FailureManager :=
  let '(ws, e) :=
    check_each now (health_check_interval m) (alert_threshold m) (watchers m) in
  apply_effects e m ws.

(** The calls the orchestrator and the monitor thread make. *)
Inductive Call :=
| Register (n : string)
| Heartbeat (n : string) (is_healthy : bool) (error : option string)
| CheckAll.

Definition step (m : FailureManager) (c : Z * Call) : FailureManager :=
  match c with
  | (now, Register n) => register_watcher now n m
  | (now, Heartbeat n is_healthy error) => update_heartbeat now n is_healthy error m
  | (now, CheckAll) => _check_all_watchers now m
  end.

Definition run (calls : list (Z * Call)) (m : FailureManager) : FailureManager :=
  fold_left step calls m.

(** The alerts among a list of events that name the watcher [n]. *)
Definition is_alert_for (n : string) (e : Event) : bool :=
  match e with
  | AlertCreated w _ _ _ _ => String.eqb w n
  | _ => false
  end.

Definition alerts_for (n : string) (es : list Event) : nat :=
  length (List.filter (is_alert_for n) es).

(** An uninterrupted streak of unhealthy heartbeats of the watcher [n],
    given by the time and the error text of each. *)
Definition unhealthy_streak (n : string) (beats : list (Z * option string))
    : list (Z * Call) :=
  map (fun b => (fst b, Heartbeat n false (snd b))) beats.

(** The restart counter of a watcher is within its bounds, and its
    backoff base is the default of the dataclass. *)
Definition attempts_bounded (h : WatcherHealth) : Prop :=
  0 <= restart_attempts h <= max_restart_attempts h.

Definition default_backoff (h : WatcherHealth) : Prop :=
  recovery_backoff_seconds h = 30.

(** A property of health records that holds of every watcher. *)
Definition every_watcher (P : WatcherHealth -> Prop)
    (ws : list (string * WatcherHealth)) : Prop :=
  Forall (fun kh => P (snd kh)) ws.

Definition sample_manager : FailureManager :=
  register_watcher 0 "GmailWatcher" (FailureManager_init 30 3 5).

(** The sample worker found stale after 91 seconds, restarted, and
    healthy again at 100 seconds. *)
Definition restarted_manager : FailureManager :=
  run [(91000000, CheckAll); (100000000, Heartbeat "GmailWatcher" true None)]
      sample_manager.

End Health.

(** ** Sample inputs *)

Module Samples.
Import PyStr Analyzer Store.

Definition empty_world : World :=
  {| needs_action := ∅; plans := ∅; approved := ∅; done := ∅; inbox := ∅;
     auto_sent := ∅; planner_cache_file := None; executor_cache_file := None;
     sender_loadable := true; mailer := []; mail_log := [] |}.

Definition noon : Clock :=
  {| iso := "2026-01-09T12:00:00"; stamp := "20260109_120000";
     minute := "2026-01-09 12:00"; second := "2026-01-09 12:00:00" |}.

Definition later : Clock :=
  {| iso := "2026-01-09T12:30:00"; stamp := "20260109_123000";
     minute := "2026-01-09 12:30"; second := "2026-01-09 12:30:00" |}.

(** An email file in Needs_Action: a header and a body. *)
Definition email_text (sender subject body : string) : string :=
"---
type: email
from: " +:+ sender +:+ "
subject: " +:+ subject +:+ "
status: pending
---

" +:+ body +:+ "
".

(** An acknowledgment that also asks something: it needs a reply and is
    auto-approved. *)
Definition ack_email : string :=
  email_text "Alice <alice@example.org>" "Hello" "Thanks, got it! Any questions?".

(** A request that names an invoice: it needs a reply and a review. *)
Definition invoice_email : string :=
  email_text "Bob <bob@example.org>" "Invoice" "Can you send the invoice by Friday?".

(** A world with one email to auto-send and a send capability that
    refuses the next message. *)
Definition ack_world : World :=
  {| needs_action := {[ "EMAIL_hello.md" := ack_email ]};
     plans := ∅; approved := ∅; done := ∅; inbox := ∅; auto_sent := ∅;
     planner_cache_file := None; executor_cache_file := None;
     sender_loadable := true; mailer := [false; true]; mail_log := [] |}.

Definition invoice_world : World :=
  {| needs_action := {[ "EMAIL_invoice.md" := invoice_email ]};
     plans := ∅; approved := ∅; done := ∅; inbox := ∅; auto_sent := ∅;
     planner_cache_file := None; executor_cache_file := None;
     sender_loadable := true; mailer := [true; true]; mail_log := [] |}.

(** A plan as the mail watcher writes it, which holds the three fields
    and the fenced reply the executor looks for. *)
Definition watcher_plan : string :=
"---
type: email_plan
plan_id: PLAN_20260109_120000_Hello
email_file: EMAIL_hello.md
priority: low
risk_level: safe
needs_reply: True
auto_approve: False
from: Alice <alice@example.org>
subject: Hello
created: 2026-01-09T12:00:00
---

# Email Response Plan: Hello

## Suggested Reply

```
Hi Alice, thank you for your message.
```

---
".

(** The plan approved by hand, the email it answers still waiting, and
    a send capability that refuses the next message. *)
Definition approved_world : World :=
  {| needs_action := {[ "EMAIL_hello.md" := ack_email ]};
     plans := ∅;
     approved := {[ "PLAN_20260109_120000_Hello.md" := watcher_plan ]};
     done := ∅; inbox := ∅; auto_sent := ∅;
     planner_cache_file := None; executor_cache_file := None;
     sender_loadable := true; mailer := [false; true]; mail_log := [] |}.

(** The text [_create_review_plan] builds for the invoice email, as it
    would stand in the plan file if reading the conversation context
    gave an empty dictionary. *)
Definition invoice_plan_id : string :=
  Planner.review_plan_id noon "EMAIL_invoice.md".

Definition invoice_plan_text : string :=
  let p := Planner.new_planner false (mkAnalyzer []) invoice_world in
  let parsed := Planner._parse_email_file invoice_email in
  Planner.review_plan_content p noon invoice_plan_id "EMAIL_invoice.md"
    (Planner.analyze_email p (fst parsed) (snd parsed)) (fst parsed) (snd parsed) [].

(** That text approved by hand, with a send capability that accepts. *)
Definition invoice_approved_world : World :=
  {| needs_action := {[ "EMAIL_invoice.md" := invoice_email ]};
     plans := ∅;
     approved := {[ invoice_plan_id +:+ ".md" := invoice_plan_text ]};
     done := ∅; inbox := ∅; auto_sent := ∅;
     planner_cache_file := None; executor_cache_file := None;
     sender_loadable := true; mailer := [true; true]; mail_log := [] |}.

(** The plan completed by hand: it lies in Done and the email it answers
    still waits in Needs_Action. *)
Definition completed_world : World :=
  {| needs_action := {[ "EMAIL_hello.md" := ack_email ]};
     plans := ∅; approved := ∅;
     done := {[ "PLAN_20260109_120000_Hello.md" := watcher_plan ]};
     inbox := ∅; auto_sent := ∅;
     planner_cache_file := None; executor_cache_file := None;
     sender_loadable := true; mailer := []; mail_log := [] |}.

(** A plan whose email file is a path that leads from Needs_Action, and
    from Inbox, to a file of Done. *)
Definition stray_plan : string :=
"---
type: email_plan
plan_id: PLAN_20260109_120000_Hello
email_file: ../Done/NOTES.md
from: Alice <alice@example.org>
subject: Hello
---

## Suggested Reply

```
Hi Alice, thank you for your message.
```

---
".

(** That plan approved, with a file of that name in Done and a send
    capability that accepts. *)
Definition stray_approved_world : World :=
  {| needs_action := {[ "EMAIL_hello.md" := ack_email ]};
     plans := ∅;
     approved := {[ "PLAN_20260109_120000_Hello.md" := stray_plan ]};
     done := {[ "NOTES.md" := ack_email ]};
     inbox := ∅; auto_sent := ∅;
     planner_cache_file := None; executor_cache_file := None;
     sender_loadable := true; mailer := [true]; mail_log := [] |}.

(** That plan in Done, next to the file it names. *)
Definition stray_done_world : World :=
  {| needs_action := {[ "EMAIL_hello.md" := ack_email ]};
     plans := ∅; approved := ∅;
     done := <[ "NOTES.md" := ack_email ]>
               {[ "PLAN_20260109_120000_Hello.md" := stray_plan ]};
     inbox := ∅; auto_sent := ∅;
     planner_cache_file := None; executor_cache_file := None;
     sender_loadable := true; mailer := []; mail_log := [] |}.

Definition fresh_planner (w : World) : Planner.EmailPlanner :=
  Planner.new_planner false (mkAnalyzer []) w.

Definition fresh_executor (w : World) : Executor.ApprovedPlanExecutor :=
  Executor.new_executor w.

End Samples.

(** ** Further Python string operations *)

Module PyStrMore.
Import PyStr.

(** [all(p(c) for c in s)] *)
Fixpoint all_chars (p : ascii -> bool) (s : string) : bool :=
  match s with
  | EmptyString => true
  | String c r => p c && all_chars p r
  end.

(** [re.sub('[...]', '', s)] for a class of single characters: the
    characters of the class are dropped. *)
Fixpoint remove_chars (p : ascii -> bool) (s : string) : string :=
  match s with
  | EmptyString => EmptyString
  | String c r => if p c then remove_chars p r else String c (remove_chars p r)
  end.

(** [re.sub('[...]+', c, s)]: every maximal run of characters of the
    class becomes the one character [c]; [in_run] tells that the
    character before belongs to a run already replaced. *)
Fixpoint collapse_runs (p : ascii -> bool) (c : ascii) (in_run : bool) (s : string)
    : string :=
  match s with
  | EmptyString => EmptyString
  | String a r =>
      if p a then
        if in_run then collapse_runs p c true r
        else String c (collapse_runs p c true r)
      else String a (collapse_runs p c false r)
  end.

(** [s.replace(a, b)] for two single characters. *)
Definition replace_char (a b : ascii) (s : string) : string :=
  map_chars (fun c => if Ascii.eqb c a then b else c) s.

(** [s.strip(chars)] for a class of characters. *)
Definition lstrip_chars (p : ascii -> bool) (s : string) : string := snd (span p s).

Fixpoint rstrip_chars (p : ascii -> bool) (s : string) : string :=
  match s with
  | EmptyString => EmptyString
  | String c r =>
      match rstrip_chars p r with
      | EmptyString => if p c then EmptyString else String c EmptyString
      | r' => String c r'
      end
  end.

Definition strip_chars (p : ascii -> bool) (s : string) : string :=
  rstrip_chars p (lstrip_chars p s).

Definition is_hyphen (c : ascii) : bool := Ascii.eqb c "-"%char.

(** The class [[\w-]]. *)
Definition word_or_hyphen (c : ascii) : bool := isword c || is_hyphen c.

End PyStrMore.

(** ** The mail watcher ([Watchers/gmail_watcher.py]): its pure parts *)

Module Watcher.
Import PyStr PyStrMore Store Analyzer.

Definition _detect_priority (subject body from_addr : string) : string :=
  let content := lower (subject +:+ " " +:+ body) in
  if any_in ["urgent"; "asap"; "immediately"; "emergency"; "critical";
             "deadline"; "time sensitive"; "important"; "priority"] content
  then "high"
  else if any_in ["?"; "can you"; "could you"; "would you"; "please";
                  "need your"; "waiting for"; "response needed"] content
  then (if any_in ["@ceo"; "@director"; "@manager"] (lower from_addr)
        then "high" else "normal")
  else if any_in ["meeting"; "review"; "approve"; "task"; "project";
                  "report"; "update"; "follow up"; "action"] content
  then "normal"
  else if any_in ["fyi"; "for your information"; "newsletter"; "notification"] content
  then "low"
  else "normal".

(** The description part of a file name: the subject without the
    characters that are neither word characters, whitespace nor hyphens,
    with runs of whitespace made one space, cut at 27 characters, spaces
    turned into hyphens and runs of hyphens made one, and no hyphen at
    either end. *)
Definition filename_description (subject : string) : string :=
  let description := strip subject in
  let description :=
    remove_chars (fun c => negb (isword c || isspace c || is_hyphen c)) description in
  let description := collapse_runs isspace " "%char false description in
  let description :=
    if (27 <? String.length description)%nat then strip (take 27 description)
    else description in
  let description := replace_char " "%char "-"%char description in
  let description := collapse_runs is_hyphen "-"%char false description in
  strip_chars is_hyphen description.

Definition _generate_filename (subject msg_id : string) : string :=
  "EMAIL - " +:+ filename_description subject +:+ "_" +:+ take 8 msg_id +:+ ".md".

(** The characters [_create_plan_direct] takes out of a subject. *)
Definition invalid_in_filenames (c : ascii) : bool :=
  existsb (Ascii.eqb c)
    ["/"%char; "\"%char; ":"%char; "*"%char; "?"%char; ascii_of_nat 34;
     "<"%char; ">"%char; "|"%char].

Definition safe_subject (subject : string) : string :=
  let s := map_chars (fun c => if invalid_in_filenames c then "-"%char else c) subject in
  let s := collapse_runs is_hyphen "-"%char false s in
  strip_chars is_hyphen (take 50 s).

Definition direct_plan_id (now : Clock) (subject : string) : string :=
  "PLAN_" +:+ stamp now +:+ "_" +:+ safe_subject subject.

(** [str(b)] for a boolean *)
Definition py_bool (b : bool) : string := if b then "True" else "False".

(** The text [_create_plan_direct] writes.  Its priority emoji are all
    the empty string. *)
Definition plan_direct_content (now : Clock) (plan_id email_filename : string)
    (sender subject date message_id body : string) (analysis : KeywordAnalysis)
    : string :=
"---
type: email_plan
plan_id: " +:+ plan_id +:+ "
email_file: " +:+ email_filename +:+ "
priority: " +:+ priority_label analysis +:+ "
risk_level: " +:+ risk_level analysis +:+ "
needs_reply: " +:+ py_bool (needs_reply analysis) +:+ "
auto_approve: " +:+ py_bool (auto_approve analysis) +:+ "
from: " +:+ sender +:+ "
subject: " +:+ subject +:+ "
created: " +:+ iso now +:+ "
---

# Email Response Plan: " +:+ subject +:+ "

**Priority:** " +:+ "" +:+ " " +:+ upper (priority_label analysis) +:+ "
**From:** " +:+ sender +:+ "
**Risk Level:** " +:+ upper (risk_level analysis) +:+ "

---

## Analysis

**Reason:** " +:+ reason analysis +:+ "
**Category:** " +:+ category analysis +:+ "

---

## Suggested Reply

```
" +:+ (match suggested_reply analysis with
       | None | Some EmptyString => "No reply suggested"
       | Some r => r
       end) +:+ "
```

---

## Next Steps

- [ ] Review the draft reply above
- [ ] Edit as needed
- [ ] To approve and send: Move this file to `Approved/` folder
- [ ] To reject: Move to `Rejected/` folder

---

## Original Email

**From:** " +:+ sender +:+ "
**Subject:** " +:+ subject +:+ "
**Date:** " +:+ date +:+ "

" +:+ body +:+ "

---

*Generated by AI Employee Gmail Watcher*
*Analysis Method: Keyword-based*
*Original Message ID: " +:+ message_id +:+ "*
".

(** [_create_plan_direct]: the plan goes to the Plans folder. *)
Definition _create_plan_direct (now : Clock)
    (sender subject date message_id body : string) (analysis : KeywordAnalysis)
    (w : World) : string * World :=
  let plan_id := direct_plan_id now subject in
  let email_filename := _generate_filename subject message_id in
  (plan_id,
   write_text Plans (plan_id +:+ ".md")
     (plan_direct_content now plan_id email_filename sender subject date message_id
                          body analysis) w).

End Watcher.

(** ** The health report ([FailureManager.get_health_report]) *)

Module Report.
Import Health.

Definition status_value (s : WatcherStatus) : string :=
  match s with
  | HEALTHY => "healthy"
  | DEGRADED => "degraded"
  | FAILED => "failed"
  | RECOVERING => "recovering"
  end.

(** The entry of one watcher; [last_error] is there when it is set and
    not empty. *)
Record WatcherInfo := mkInfo {
  info_status : string;
  info_last_heartbeat : option Z;
  info_last_successful_check : option Z;
  info_error_count : Z;
  info_consecutive_failures : Z;
  info_restart_attempts : Z;
  info_is_running : bool;
  info_last_error : option string
}.

Record Summary := mkSummary {
  total : Z; healthy : Z; degraded : Z; failed : Z; recovering : Z }.

(** [report['summary'][health.status.value] += 1] *)
Definition count_status (s : WatcherStatus) (x : Summary) : Summary :=
  match s with
  | HEALTHY => mkSummary (total x) (healthy x + 1) (degraded x) (failed x) (recovering x)
  | DEGRADED => mkSummary (total x) (healthy x) (degraded x + 1) (failed x) (recovering x)
  | FAILED => mkSummary (total x) (healthy x) (degraded x) (failed x + 1) (recovering x)
  | RECOVERING => mkSummary (total x) (healthy x) (degraded x) (failed x) (recovering x + 1)
  end.

Definition watcher_info (h : WatcherHealth) : WatcherInfo :=
  {| info_status := status_value (status h);
     info_last_heartbeat := last_heartbeat h;
     info_last_successful_check := last_successful_check h;
     info_error_count := error_count h;
     info_consecutive_failures := consecutive_failures h;
     info_restart_attempts := restart_attempts h;
     info_is_running := is_running h;
     info_last_error :=
       match last_error h with
       | None | Some EmptyString => None
       | Some e => Some e
       end |}.

(** The report without its time stamp: the entries in the order of the
    watchers, and the summary. *)
Definition get_health_report (m : FailureManager)
    : list (string * WatcherInfo) * Summary :=
  (map (fun kh => (fst kh, watcher_info (snd kh))) (watchers m),
   fold_left (fun acc kh => count_status (status (snd kh)) acc) (watchers m)
             (mkSummary (Z.of_nat (length (watchers m))) 0 0 0 0)).

(** How many watchers have the status [s]. *)
Definition with_status (s : WatcherStatus) (ws : list (string * WatcherHealth)) : Z :=
  Z.of_nat (length (List.filter
                      (fun kh => String.eqb (status_value (status (snd kh))) (status_value s))
                      ws)).

(** The status of a watcher agrees with its count of consecutive
    failures. *)
Definition status_consistent (h : WatcherHealth) : Prop :=
  0 <= consecutive_failures h /\
  (status h = HEALTHY <-> consecutive_failures h = 0) /\
  (status h = HEALTHY -> is_running h = true) /\
  (status h = DEGRADED -> 1 <= consecutive_failures h <= 2).

(** A call that is not the registration of the watcher [n]. *)
Definition keeps_registration (n : string) (c : Z * Call) : Prop :=
  match snd c with
  | Register k => k <> n
  | _ => True
  end.

End Report.

(** ** What the mail log and the folders are checked for *)

Module Ledger.
Import PyStr Store.

(** The subject of a reply: empty, or opening with 'Re:'. *)
Definition reply_subject_ok (entry : Mail * bool) : Prop :=
  m_subject (fst entry) = "" \/ startswith "Re:" (m_subject (fst entry)) = true.

(** How many of the logged calls the send capability accepted. *)
Definition accepted (log : list (Mail * bool)) : Z :=
  Z.of_nat (length (List.filter snd log)).

(** The names of the files of a folder. *)
Definition names (f : Folder) (w : World) : gset string := dom (folder f w).

(** How often a name occurs in a listing. *)
Definition occurrences (name : string) (files : list string) : nat :=
  length (List.filter (String.eqb name) files).

(** Two folders are the same or not. *)
#[global] Instance folder_eq_dec : EqDecision Folder.
Proof. solve_decision. Defined.

(** No file is lost between two worlds when going from the folder [src]
    to the folder [dst]: what was in [src] is in [src] or in [dst], and
    what was in [dst] is still there. *)
Definition conserved (src dst : Folder) (w w' : World) : Prop :=
  names src w ⊆ names src w' ∪ names dst w' /\ names dst w ⊆ names dst w'.

(** The mail log of [w'] is the one of [w] with at most [k] calls added,
    all with the subject of a reply. *)
Definition log_extended (k : nat) (w w' : World) : Prop :=
  exists new, mail_log w' = (mail_log w ++ new)%list /\ (length new <= k)%nat /\
              Forall reply_subject_ok new.

End Ledger.

(** ** Where a search key can match *)

Module Scan.
Import PyStr PyStrMore.

(** The character [c] does not occur in [s]. *)
Definition no_char (c : ascii) (s : string) : bool :=
  all_chars (fun a => negb (Ascii.eqb a c)) s.

(** One of the two texts is a prefix of the other: the key matches at
    the start of [x], or could match when [x] goes on. *)
Definition clash (key x : string) : bool := startswith key x || startswith x key.

(** No suffix of [s] clashes with [key]. *)
Fixpoint free_b (key s : string) : bool :=
  match s with
  | EmptyString => true
  | String _ r => negb (clash key s) && free_b key r
  end.

(** [key] matches at no position of [s], whatever follows [s]. *)
Fixpoint free (key s : string) : Prop :=
  match s with
  | EmptyString => True
  | String _ r => (forall rest, startswith key (s +:+ rest) = false) /\ free key r
  end.

End Scan.

(** ** Plans that name their email by a file name *)

Module PlainNames.
Import PyStr Store Executor Scan.

(** The text a plan gives as its email file holds no ['/']: joined to
    the path of a folder it can only name a file of that folder. *)
Definition plain_email_file (content : string) : bool :=
  match search_field "email_file:" content with
  | Some group => no_char "/" (strip group)
  | None => true
  end.

(** Every file of the folder is such a plan. *)
Definition plain_email_files (plans : gmap string string) : bool :=
  forallb (fun entry => plain_email_file (snd entry)) (map_to_list plans).

End PlainNames.

(** ** The text of a plan, line by line *)

Module PlanText.
Import PyStr PyStrMore Analyzer Store Executor Watcher Scan.

Definition reply_heading : string := "## Suggested Reply".

(** The text the plan shows as the reply. *)
Definition reply_text (analysis : KeywordAnalysis) : string :=
  match suggested_reply analysis with
  | None | Some EmptyString => "No reply suggested"
  | Some r => r
  end.

(** The lines of the text of [_create_plan_direct] around the four
    places the executor looks for: before the line of [email_file],
    between that line and the line of [from], between the line of
    [subject] and the heading of the reply, and after the reply. *)
Definition lines_before_email_file (plan_id : string) : string :=
  "---" +:+ nl +:+ "type: email_plan" +:+ nl +:+ "plan_id: " +:+ (plan_id +:+ nl).

Definition lines_before_from (analysis : KeywordAnalysis) : string :=
  "priority: " +:+ (priority_label analysis +:+ nl) +:+
  "risk_level: " +:+ (risk_level analysis +:+ nl) +:+
  "needs_reply: " +:+ (py_bool (needs_reply analysis) +:+ nl) +:+
  "auto_approve: " +:+ (py_bool (auto_approve analysis) +:+ nl).

Definition lines_before_reply (now : Clock) (sender subject : string)
    (analysis : KeywordAnalysis) : string :=
  "created: " +:+ (iso now +:+ nl) +:+
  "---" +:+ nl +:+ nl +:+ "# Email Response Plan: " +:+ (subject +:+ nl) +:+
  nl +:+ "**Priority:**  " +:+ (upper (priority_label analysis) +:+ nl) +:+
  "**From:** " +:+ (sender +:+ nl) +:+
  "**Risk Level:** " +:+ (upper (risk_level analysis) +:+ nl) +:+
  nl +:+ "---" +:+ nl +:+ nl +:+ "## Analysis" +:+ nl +:+ nl +:+
  "**Reason:** " +:+ (reason analysis +:+ nl) +:+
  "**Category:** " +:+ (category analysis +:+ nl) +:+
  nl +:+ "---" +:+ nl +:+ nl.

Definition lines_after_reply (sender subject date message_id body : string) : string :=
  nl +:+ "```" +:+ nl +:+ nl +:+ "---" +:+ nl +:+ nl +:+
  "## Next Steps" +:+ nl +:+ nl +:+
  "- [ ] Review the draft reply above" +:+ nl +:+
  "- [ ] Edit as needed" +:+ nl +:+
  "- [ ] To approve and send: Move this file to `Approved/` folder" +:+ nl +:+
  "- [ ] To reject: Move to `Rejected/` folder" +:+ nl +:+ nl +:+
  "---" +:+ nl +:+ nl +:+ "## Original Email" +:+ nl +:+ nl +:+
  "**From:** " +:+ sender +:+ nl +:+
  "**Subject:** " +:+ subject +:+ nl +:+
  "**Date:** " +:+ date +:+ nl +:+ nl +:+
  body +:+ nl +:+ nl +:+ "---" +:+ nl +:+ nl +:+
  "*Generated by AI Employee Gmail Watcher*" +:+ nl +:+
  "*Analysis Method: Keyword-based*" +:+ nl +:+
  "*Original Message ID: " +:+ message_id +:+ "*" +:+ nl.

(** The text has a character that is not whitespace. *)
Definition visible (s : string) : bool := negb (String.eqb (strip s) "").

Definition one_line (s : string) : bool := all_chars not_newline s && visible s.

(** What the fields of an email have to be like for its plan to read
    back: the sender and the subject are one line each and hold neither
    the heading of the reply nor, for the sender, the key of the
    subject; the labels of the analysis hold no colon; the clock, the
    labels, the reason and the category hold no hash; the id of the
    message opens with word characters; the reply has no backtick. *)
Definition readable_fields (now : Clock) (sender subject message_id : string)
    (analysis : KeywordAnalysis) : bool :=
  no_char ":" (stamp now) && no_char "#" (stamp now) && no_char "#" (iso now) &&
  all_chars isword (take 8 message_id) &&
  one_line sender && negb (contains "subject:" sender) &&
  negb (contains reply_heading sender) &&
  one_line subject && negb (contains reply_heading subject) &&
  no_char ":" (priority_label analysis) && no_char "#" (priority_label analysis) &&
  no_char ":" (risk_level analysis) && no_char "#" (risk_level analysis) &&
  no_char "#" (reason analysis) && no_char "#" (category analysis) &&
  no_char "`" (reply_text analysis) && visible (reply_text analysis).

(** The subject the executor gives to its reply. *)
Definition reply_subject (subject : string) : string :=
  if startswith "Re:" (strip subject) then strip subject
  else "Re: " +:+ strip subject.

(** The text [_create_plan_direct] writes for an email. *)
Definition watcher_plan_text (now : Clock) (sender subject date message_id body : string)
    (analysis : KeywordAnalysis) : string :=
  plan_direct_content now (direct_plan_id now subject)
                      (_generate_filename subject message_id)
                      sender subject date message_id body analysis.

End PlanText.

(** ** A plan of the watcher, approved by hand *)

Module PlanSamples.
Import PyStr Analyzer Store Watcher PlanText Samples.

Definition invoice_id : string := "18c2f0a94b7d11e0".

Definition invoice_analysis : KeywordAnalysis :=
  analyze (mkAnalyzer []) "Bob <bob@example.org>" "Invoice"
          "Can you send the invoice by Friday?" (None : option (list unit)).

(** The plan the watcher writes for the invoice email. *)
Definition invoice_watcher_plan : string :=
  watcher_plan_text noon "Bob <bob@example.org>" "Invoice" "Fri, 9 Jan 2026 11:58:00 +0000"
                    invoice_id "Can you send the invoice by Friday?" invoice_analysis.

(** That plan moved to Approved, the email under the name the watcher
    gave it, and a send capability that accepts. *)
Definition invoice_watcher_world : World :=
  {| needs_action := {[ _generate_filename "Invoice" invoice_id := invoice_email ]};
     plans := ∅;
     approved := {[ direct_plan_id noon "Invoice" +:+ ".md" := invoice_watcher_plan ]};
     done := ∅; inbox := ∅; auto_sent := ∅;
     planner_cache_file := None; executor_cache_file := None;
     sender_loadable := true; mailer := [true]; mail_log := [] |}.

End PlanSamples.

(** ** Dictionaries that a frontmatter block can hold *)

Module FrontmatterText.
Import PyStr PyStrMore Scan.

(** A key and a value that come back from a line as they are: no
    whitespace at their ends, no line feed, and no colon in the key. *)
Definition clean_entry (kv : string * string) : bool :=
  String.eqb (strip (fst kv)) (fst kv) && no_char ":" (fst kv) &&
  no_char (ascii_of_nat 10) (fst kv) &&
  String.eqb (strip (snd kv)) (snd kv) && no_char (ascii_of_nat 10) (snd kv).

Definition clean_dict (d : list (string * string)) : bool := forallb clean_entry d.

End FrontmatterText.

(** ** The mover of answered emails ([skills/email_to_inbox.py]) *)

Module Mover.
Import PyStr Store.

(** The mover object: the plan ids it holds in memory. *)
Record EmailToInboxMover := mkMover {
  processed_plans : gset string
}.

(** The vault as the mover uses it: the folders, and the file
    [.processed_plans.json], which is not there or holds a list of ids. *)
Record Vault := mkVault {
  world : World;
  processed_plans_file : option (list string)
}.

Definition _load_processed_plans (v : Vault) : gset string :=
  match processed_plans_file v with
  | Some ids => list_to_set ids
  | None => ∅
  end.

Definition new_mover (v : Vault) : EmailToInboxMover :=
  mkMover (_load_processed_plans v).

Definition _save_processed_plans (mv : EmailToInboxMover) (v : Vault) : Vault :=
  mkVault (world v) (Some (elements (processed_plans mv))).

Record LoopState := mkLoop {
  mover : EmailToInboxMover;
  folders : World;
  moved_count : Z
}.

(** The body of the loop of [check_and_move] for one listed plan.  The
    id is marked on every way out of the body: before the two
    [continue], after an exception and at the end.  The email is read at
    [self._needs_action / email_filename] and written at
    [self._inbox / email_filename]; a path that names a directory exists
    and cannot be read, which raises. *)
Definition move_one (now : Clock) (st : LoopState) (plan_name : string) : LoopState :=
  let plan_id := stem plan_name in
  let w := folders st in
  if decide (plan_id ∈ processed_plans (mover st)) then st
  else
    let marked := mkMover ({[plan_id]} ∪ processed_plans (mover st)) in
    match done w !! plan_name with
    | None => mkLoop marked w (moved_count st)
    | Some content =>
        match Executor.search_field "email_file:" content with
        | None => mkLoop marked w (moved_count st)
        | Some group =>
            let email_filename := strip group in
            match locate Needs_Action email_filename, locate Inbox email_filename with
            | File_of email_folder email_name, File_of inbox_folder inbox_name =>
                match folder email_folder w !! email_name with
                | None => mkLoop marked w (moved_count st)
                | Some email_content =>
                    match Executor.match_frontmatter email_content with
                    | Some (frontmatter, rest) =>
                        let frontmatter :=
                          frontmatter +:+ nl +:+ "plan_completed_at: " +:+ iso now +:+ nl +:+
                          "plan_id: " +:+ plan_id +:+ nl +:+ "status: completed" in
                        let new_email_content :=
                          "---" +:+ nl +:+ frontmatter +:+ nl +:+ "---" +:+ nl +:+ rest in
                        mkLoop marked
                               (unlink email_folder email_name
                                       (write_text inbox_folder inbox_name
                                                   new_email_content w))
                               (moved_count st + 1)
                    | None => mkLoop marked w (moved_count st)
                    end
                end
            | _, _ => mkLoop marked w (moved_count st)
            end
        end
    end.

Definition plan_files (w : World) : list string := glob "PLAN_" ".md" (done w).

(** [check_and_move]: the cache file is written only when an email was
    moved. *)
Definition check_and_move (now : Clock) (mv : EmailToInboxMover) (v : Vault)
    : Z * EmailToInboxMover * Vault :=
  let st := fold_left (move_one now) (plan_files (world v)) (mkLoop mv (world v) 0) in
  let v' := mkVault (folders st) (processed_plans_file v) in
  (moved_count st, mover st,
   if 0 <? moved_count st then _save_processed_plans (mover st) v' else v').

End Mover.

(** ** What the planner reports *)

Module Handling.
Import Store Planner.

(** An entry of the result list that is not an error entry. *)
Definition handled (x : PlanResult) : bool :=
  negb (String.eqb (res_action x) "error").

(** The ids of the files behind the entries that are not errors. *)
Definition handled_ids (rs : list PlanResult) : list string :=
  map (fun x => stem (res_email_file x)) (List.filter handled rs).

End Handling.

(** * Properties of the classification engine *)

Module AnalyzerFacts.
Import PyStr Analyzer.

Lemma dedupe_nil_inv (l : list string) : dedupe l = [] -> l = [].
Proof. destruct l as [|x r]; [reflexivity | discriminate]. Qed.

Lemma filter_hit {A : Type} (f : A -> bool) (l : list A) (x : A) :
  In x l -> f x = true -> List.filter f l <> [].
Proof.
  intros Hin Hf Hnil.
  assert (Hx : In x (List.filter f l)) by (apply List.filter_In; split; assumption).
  rewrite Hnil in Hx. exact Hx.
Qed.

(** A business-critical term in the text is found by the extractor. *)
Lemma business_terms_found (text term : string) :
  In term BUSINESS_CRITICAL -> contains term text = true ->
  _extract_business_terms text <> [].
Proof.
  intros Hin Hc Hnil. unfold _extract_business_terms in Hnil.
  apply dedupe_nil_inv in Hnil.
  exact (filter_hit (fun t => contains t text) _ term Hin Hc Hnil).
Qed.

(** The decision reads its arguments in a fixed order of guards. *)
Lemma approval_with_terms {M : Type} text risk (terms items : list string)
    (history : option (list M)) :
  terms <> [] -> fst (_determine_approval text risk terms items history) = false.
Proof.
  intros Hne. unfold _determine_approval.
  destruct (50 <=? risk); [reflexivity |].
  destruct terms; [contradiction | reflexivity].
Qed.

Lemma approval_safe_pattern {M : Type} text risk (items : list string)
    (history : option (list M)) :
  any_in SAFE_PATTERNS text = true -> risk < 25 -> (length items <= 2)%nat ->
  long_thread history = false ->
  _determine_approval text risk [] items history = (true, false).
Proof.
  intros Hsafe Hrisk Hitems Hhist. unfold _determine_approval.
  replace (50 <=? risk) with false by (symmetry; apply Z.leb_gt; lia).
  simpl negb. cbv iota.
  replace (2 <? length items)%nat with false by (symmetry; apply Nat.ltb_ge; lia).
  assert (Hh : match history with
               | Some h => negb (match h with [] => true | _ => false end)
                           && (3 <? length h)%nat
               | None => false
               end = false).
  { destruct history as [h|]; [|reflexivity]. simpl in Hhist. rewrite Hhist.
    apply andb_false_r. }
  rewrite Hh, Hsafe.
  replace (risk <? 25) with true by (symmetry; apply Z.ltb_lt; lia).
  reflexivity.
Qed.

(** C10.  Whatever the text, the risk score, the business terms, the
    action items and the thread history are, [_determine_approval]
    returns two flags that are complements of each other: auto_approve
    is true exactly when requires_human_review is false; the same holds
    for the two fields of every analysis. *)
Theorem approval_flags_are_complements {M : Type} (text : string) (risk : Z)
    (terms items : list string) (history : option (list M))
    (self : KeywordAnalyzer) (sender subject body : string) :
  let r := _determine_approval text risk terms items history in
  let a := analyze self sender subject body history in
  snd r = negb (fst r) /\ (fst r = true <-> snd r = false) /\
  requires_human_review a = negb (auto_approve a).
Proof.
  assert (Hall : forall t k (ts its : list string) (h : option (list M)),
             snd (_determine_approval t k ts its h)
             = negb (fst (_determine_approval t k ts its h))).
  { intros t k ts its h. unfold _determine_approval.
    repeat match goal with
           | |- context [if ?c then _ else _] => destruct c
           end; reflexivity. }
  cbv zeta. split; [apply Hall | split].
  - rewrite Hall. destruct (fst (_determine_approval text risk terms items history));
      simpl; split; congruence.
  - unfold analyze. cbn [requires_human_review auto_approve]. apply Hall.
Qed.

(** C5, as the code has it.  A text with a safe acknowledgment pattern,
    a risk score below 25 and at most one action item is auto-approved
    provided it holds no business-critical term and the thread has at
    most three earlier messages; a text with any business-critical term
    is never auto-approved. *)
Theorem auto_approve_correctness {M : Type} (self : KeywordAnalyzer)
    (sender subject body : string) (history : option (list M)) :
  let text := combined_text subject body in
  let a := analyze self sender subject body history in
  (any_in SAFE_PATTERNS text = true -> risk_score a < 25 ->
   (length (action_items a) <= 1)%nat ->
   business_terms a = [] -> long_thread history = false ->
   auto_approve a = true) /\
  (forall term, In term BUSINESS_CRITICAL -> contains term text = true ->
                auto_approve a = false).
Proof.
  cbv zeta. unfold analyze.
  cbn [auto_approve risk_score action_items business_terms]. split.
  - intros Hsafe Hrisk Hitems Hterms Hhist. rewrite Hterms.
    rewrite approval_safe_pattern; auto; lia.
  - intros term Hin Hc. apply approval_with_terms.
    exact (business_terms_found _ term Hin Hc).
Qed.

Lemma auto_approve_correctness_witness :
  auto_approve (@analyze unit (mkAnalyzer []) "Alice <alice@example.org>" ""
                         "Thanks, got it!" None) = true /\
  auto_approve (@analyze unit (mkAnalyzer []) "Bob <bob@example.org>" "Invoice"
                         "Can you send the invoice by Friday?" None) = false.
Proof.
  split.
  - apply (proj1 (@auto_approve_correctness unit (mkAnalyzer [])
                    "Alice <alice@example.org>" "" "Thanks, got it!" None)).
    + vm_compute. reflexivity.
    + vm_compute. reflexivity.
    + vm_compute. lia.
    + vm_compute. reflexivity.
    + reflexivity.
  - apply (proj2 (@auto_approve_correctness unit (mkAnalyzer [])
                    "Bob <bob@example.org>" "Invoice"
                    "Can you send the invoice by Friday?" None) "invoice").
    + vm_compute. tauto.
    + vm_compute. reflexivity.
Defined.

(** C5 as the specification states it fails: this text matches the safe
    pattern 'thanks', scores 15 and has no action item, and it is not
    auto-approved, because 'file' is a business-critical term. *)
Lemma auto_approve_safe_pattern_counterexample :
  let text := combined_text "" "thanks for the file" in
  let a := @analyze unit (mkAnalyzer []) "Bob <bob@example.org>" ""
                    "thanks for the file" None in
  any_in SAFE_PATTERNS text = true /\ risk_score a = 15 /\ risk_score a < 25 /\
  action_items a = [] /\ auto_approve a = false.
Proof. vm_compute. repeat split; reflexivity. Qed.

Lemma fields_of_analyze {M : Type} (self : KeywordAnalyzer)
    (sender subject body : string) (history : option (list M)) :
  let text := combined_text subject body in
  let a := analyze self sender subject body history in
  needs_reply a = _needs_reply text (_extract_action_items text) /\
  risk_score a = r_score (_assess_risk text) /\
  auto_approve a =
    fst (_determine_approval text (r_score (_assess_risk text))
                             (_extract_business_terms text)
                             (_extract_action_items text) history).
Proof. cbv zeta. unfold analyze. repeat split. Qed.

(** C6 as the specification states it fails: the acknowledgment has no
    question mark, no action item, no request word and no forward or
    reply marker, so the classifier answers that no reply is needed. *)
Lemma thanks_got_it_counterexample :
  needs_reply (@analyze unit (mkAnalyzer []) "Alice <alice@example.org>" ""
                        "Thanks, got it!" None) = false.
Proof. vm_compute. reflexivity. Qed.

(** C6, as the code has it.  For the body 'Thanks, got it!', with any
    sender and any custom keywords, and with an empty subject or the
    same text as subject, the classifier returns needs_reply = false, a
    risk score of 0, which is below 25, and auto_approve = true. *)
Theorem thanks_got_it_classification (self : KeywordAnalyzer) (sender : string) :
  let a1 := @analyze unit self sender "" "Thanks, got it!" None in
  let a2 := @analyze unit self sender "Thanks, got it!" "Thanks, got it!" None in
  (needs_reply a1 = false /\ risk_score a1 = 0 /\ risk_score a1 < 25 /\
   auto_approve a1 = true) /\
  (needs_reply a2 = false /\ risk_score a2 = 0 /\ risk_score a2 < 25 /\
   auto_approve a2 = true).
Proof.
  cbv zeta.
  destruct (@fields_of_analyze unit self sender "" "Thanks, got it!" None)
    as (N1 & R1 & A1).
  destruct (@fields_of_analyze unit self sender "Thanks, got it!" "Thanks, got it!" None)
    as (N2 & R2 & A2).
  cbv zeta in N1, R1, A1, N2, R2, A2.
  rewrite N1, R1, A1, N2, R2, A2.
  vm_compute. repeat split; reflexivity.
Qed.

End AnalyzerFacts.

(** * Properties of the health supervisor *)

Module HealthFacts.
Import Health.

Lemma lookup_store_eq n h ws : lookup_watcher n (store_watcher n h ws) = Some h.
Proof.
  induction ws as [|[k h'] r IH]; simpl.
  - now rewrite String.eqb_refl.
  - destruct (String.eqb n k) eqn:E; simpl; rewrite ?String.eqb_refl; [reflexivity |].
    rewrite E. exact IH.
Qed.

Lemma lookup_in n h ws : lookup_watcher n ws = Some h -> In (n, h) ws.
Proof.
  induction ws as [|[k h'] r IH]; simpl; [discriminate |].
  destruct (String.eqb n k) eqn:E.
  - apply String.eqb_eq in E. subst k. intros [= ->]. now left.
  - intros H. right. exact (IH H).
Qed.

Lemma alerts_for_app n a b :
  alerts_for n (a ++ b) = (alerts_for n a + alerts_for n b)%nat.
Proof. unfold alerts_for. now rewrite List.filter_app, length_app. Qed.

(** What one unhealthy heartbeat does to a registered watcher. *)
Lemma unhealthy_heartbeat_effect now n error m h :
  lookup_watcher n (watchers m) = Some h ->
  let m' := update_heartbeat now n false error m in
  alert_threshold m' = alert_threshold m /\
  (exists h', lookup_watcher n (watchers m') = Some h' /\
              consecutive_failures h' = consecutive_failures h + 1) /\
  alerts_for n (events m') =
    (alerts_for n (events m) +
     (if (alert_threshold m <=? consecutive_failures h + 1)%Z then 1 else 0))%nat.
Proof.
  intros Hl. cbv zeta. unfold update_heartbeat. rewrite Hl.
  unfold heartbeat. cbn [apply_effects alert_threshold watchers events].
  split; [reflexivity | split].
  - eexists. split; [apply lookup_store_eq | reflexivity].
  - rewrite alerts_for_app. f_equal.
    destruct (alert_threshold m <=? consecutive_failures h + 1);
      unfold alerts_for; simpl; rewrite ?String.eqb_refl; reflexivity.
Qed.

(** A healthy heartbeat ends the streak: the count goes back to zero
    and nothing is let out. *)
Lemma healthy_heartbeat_resets now n error m h :
  lookup_watcher n (watchers m) = Some h ->
  let m' := update_heartbeat now n true error m in
  (exists h', lookup_watcher n (watchers m') = Some h' /\ consecutive_failures h' = 0) /\
  events m' = events m.
Proof.
  intros Hl. cbv zeta. unfold update_heartbeat. rewrite Hl.
  unfold heartbeat. cbn [apply_effects watchers events]. split.
  - eexists. split; [apply lookup_store_eq | reflexivity].
  - unfold no_effects. cbn. apply app_nil_r.
Qed.

Lemma run_cons c cs m : run (c :: cs) m = run cs (step m c).
Proof. reflexivity. Qed.

(** C7, as the code has it.  In an uninterrupted streak of k unhealthy
    heartbeats of a registered worker whose count of consecutive
    failures was c before, every update that brings the count to the
    alert threshold or above writes an alert: the streak adds
    min(k, c + k + 1 - threshold) alerts when that is positive and none
    otherwise, so k - threshold + 1 of them after a reset; a healthy
    heartbeat puts the count back to zero and lets nothing out. *)
Theorem alerts_in_unhealthy_streak (m : FailureManager) (n : string)
    (h : WatcherHealth) (beats : list (Z * option string)) :
  lookup_watcher n (watchers m) = Some h ->
  let m' := run (unhealthy_streak n beats) m in
  let k := Z.of_nat (length beats) in
  alerts_for n (events m') =
    (alerts_for n (events m) +
     Z.to_nat (Z.min k (consecutive_failures h + k + 1 - alert_threshold m)))%nat /\
  (forall now error,
      exists h', lookup_watcher n (watchers (update_heartbeat now n true error m'))
                 = Some h' /\
                 consecutive_failures h' = 0 /\
                 events (update_heartbeat now n true error m') = events m').
Proof.
  revert m h. induction beats as [|[t err] beats IH]; intros m h Hl; cbv zeta.
  - simpl. split.
    + replace (Z.to_nat _) with 0%nat by lia. lia.
    + intros now error.
      destruct (healthy_heartbeat_resets now n error m h Hl) as [(h' & Hh' & Hc) He].
      exists h'. auto.
  - unfold unhealthy_streak. rewrite map_cons, run_cons. cbn [step fst snd].
    destruct (unhealthy_heartbeat_effect t n err m h Hl) as (Hthr & (h1 & Hl1 & Hc1) & Hal).
    specialize (IH _ h1 Hl1). cbv zeta in IH. destruct IH as [IHa IHb].
    fold (unhealthy_streak n beats). split; [| exact IHb].
    rewrite IHa, Hal, Hthr, Hc1. rewrite length_cons.
    destruct (alert_threshold m <=? consecutive_failures h + 1) eqn:E;
      [apply Z.leb_le in E | apply Z.leb_gt in E]; lia.
Qed.

Lemma alerts_in_unhealthy_streak_witness :
  alerts_for "GmailWatcher"
    (events (run (unhealthy_streak "GmailWatcher"
                    [(1000000, None); (2000000, None); (3000000, None);
                     (4000000, None); (5000000, None)]) sample_manager)) = 1%nat.
Proof.
  destruct (alerts_in_unhealthy_streak sample_manager "GmailWatcher"
              (fresh_health 0 "GmailWatcher" 3)
              [(1000000, None); (2000000, None); (3000000, None);
               (4000000, None); (5000000, None)]) as [H _].
  - reflexivity.
  - rewrite H. reflexivity.
Defined.

(** C7 as the specification states it fails: with the threshold at 5,
    a streak of seven unhealthy heartbeats, one per second, writes three
    alerts, and three alert files are in the Tasks folder. *)
Lemma alert_once_counterexample :
  let m := run (unhealthy_streak "GmailWatcher"
                  [(1000000, None); (2000000, None); (3000000, None);
                   (4000000, None); (5000000, None); (6000000, None);
                   (7000000, None)]) sample_manager in
  alerts_for "GmailWatcher" (events m) = 3%nat /\
  size (tasks m) = 3%nat /\
  option_map consecutive_failures (lookup_watcher "GmailWatcher" (watchers m)) = Some 7.
Proof. vm_compute. repeat split; reflexivity. Qed.

Lemma check_each_cons now interval threshold k h r :
  check_each now interval threshold ((k, h) :: r) =
  ((k, fst (check_watcher now interval threshold k h))
     :: fst (check_each now interval threshold r),
   seq_effects (snd (check_watcher now interval threshold k h))
               (snd (check_each now interval threshold r))).
Proof.
  cbn [check_each].
  destruct (check_watcher now interval threshold k h) as [h' e].
  destruct (check_each now interval threshold r) as [r' er]. reflexivity.
Qed.

Lemma lookup_check_each now interval threshold n ws :
  lookup_watcher n (fst (check_each now interval threshold ws)) =
  option_map (fun h => fst (check_watcher now interval threshold n h))
             (lookup_watcher n ws).
Proof.
  induction ws as [|[k h] r IH]; [reflexivity |].
  rewrite check_each_cons. cbn [fst lookup_watcher].
  destruct (String.eqb n k) eqn:E.
  - apply String.eqb_eq in E. subst k. reflexivity.
  - exact IH.
Qed.

Lemma watchers_of_check_all now m :
  watchers (_check_all_watchers now m) =
  fst (check_each now (health_check_interval m) (alert_threshold m) (watchers m)).
Proof.
  unfold _check_all_watchers.
  destruct (check_each now (health_check_interval m) (alert_threshold m) (watchers m)).
  reflexivity.
Qed.

(** Any property of a health record that a fresh record has and that
    the heartbeat and the periodic check keep holds of every watcher in
    every state the supervisor reaches. *)
Section Invariant.
Variable P : WatcherHealth -> Prop.
Variable maximum : Z.
Hypothesis P_fresh : forall now n, P (fresh_health now n maximum).
Hypothesis P_heartbeat : forall now threshold n is_healthy error h,
    P h -> P (fst (heartbeat now threshold n is_healthy error h)).
Hypothesis P_check : forall now interval threshold n h,
    P h -> P (fst (check_watcher now interval threshold n h)).

Lemma check_each_keeps now interval threshold ws :
  every_watcher P ws -> every_watcher P (fst (check_each now interval threshold ws)).
Proof.
  induction 1 as [|[k h] r Hh Hr IH]; [constructor |].
  rewrite check_each_cons. cbn [fst]. constructor; [| exact IH].
  apply P_check. exact Hh.
Qed.

Lemma store_keeps n h ws : P h -> every_watcher P ws -> every_watcher P (store_watcher n h ws).
Proof.
  intros Hh. induction 1 as [|[k h'] r Hk Hr IH]; simpl.
  - constructor; [exact Hh | constructor].
  - destruct (String.eqb n k); constructor; assumption.
Qed.

Lemma step_keeps m c :
  max_restart_attempts_setting m = maximum -> every_watcher P (watchers m) ->
  max_restart_attempts_setting (step m c) = maximum /\ every_watcher P (watchers (step m c)).
Proof.
  intros Hmax Hall. destruct c as [now [n | n is_healthy error |]]; simpl.
  - split; [exact Hmax |]. apply store_keeps; [| exact Hall].
    rewrite Hmax. apply P_fresh.
  - unfold update_heartbeat. destruct (lookup_watcher n (watchers m)) as [h|] eqn:Hl.
    + assert (Hh : P h).
      { apply lookup_in in Hl. unfold every_watcher in Hall.
        rewrite List.Forall_forall in Hall. exact (Hall _ Hl). }
      pose proof (P_heartbeat now (alert_threshold m) n is_healthy error h Hh) as Hk.
      destruct (heartbeat now (alert_threshold m) n is_healthy error h) as [h' e].
      cbn [apply_effects watchers max_restart_attempts_setting].
      split; [exact Hmax |]. apply store_keeps; assumption.
    + split; assumption.
  - split.
    + unfold _check_all_watchers.
      destruct (check_each now (health_check_interval m) (alert_threshold m)
                           (watchers m)).
      exact Hmax.
    + rewrite watchers_of_check_all. apply check_each_keeps. exact Hall.
Qed.

Lemma run_keeps calls interval threshold k hk :
  lookup_watcher k
    (watchers (run calls (FailureManager_init interval maximum threshold))) = Some hk ->
  P hk.
Proof.
  assert (Hgen : forall cs m,
             max_restart_attempts_setting m = maximum -> every_watcher P (watchers m) ->
             every_watcher P (watchers (run cs m))).
  { induction cs as [|c cs IH]; intros m Hmax Hall; [exact Hall |].
    rewrite run_cons. destruct (step_keeps m c Hmax Hall) as [Hs Hb].
    apply IH; assumption. }
  intros Hk. apply lookup_in in Hk.
  specialize (Hgen calls (FailureManager_init interval maximum threshold)
                   eq_refl (List.Forall_nil _)).
  unfold every_watcher in Hgen. rewrite List.Forall_forall in Hgen. exact (Hgen _ Hk).
Qed.
End Invariant.

Lemma attempt_restart_bounded now n h :
  attempts_bounded h -> attempts_bounded (fst (_attempt_restart now n h)).
Proof.
  unfold attempts_bounded, _attempt_restart. intros Hb.
  destruct (max_restart_attempts h <=? restart_attempts h) eqn:E; simpl.
  - exact Hb.
  - apply Z.leb_gt in E. lia.
Qed.

Lemma check_watcher_bounded now interval threshold n h :
  attempts_bounded h ->
  attempts_bounded (fst (check_watcher now interval threshold n h)).
Proof.
  intros Hb. unfold check_watcher.
  destruct (is_stale now interval h); [| exact Hb].
  destruct (consecutive_failures (mark_stale h) <? threshold); [| exact Hb].
  pose proof (attempt_restart_bounded now n (mark_stale h) Hb) as H.
  destruct (_attempt_restart now n (mark_stale h)) as [h2 e]. exact H.
Qed.

Lemma heartbeat_bounded now threshold n is_healthy error h :
  attempts_bounded h ->
  attempts_bounded (fst (heartbeat now threshold n is_healthy error h)).
Proof. unfold attempts_bounded, heartbeat. destruct is_healthy; simpl; auto. Qed.

Lemma reachable_attempts_bounded interval maximum threshold calls k hk :
  0 <= maximum ->
  lookup_watcher k
    (watchers (run calls (FailureManager_init interval maximum threshold))) = Some hk ->
  restart_attempts hk <= max_restart_attempts hk.
Proof.
  intros Hmax Hk.
  refine (proj2 (run_keeps attempts_bounded maximum _ heartbeat_bounded
                           check_watcher_bounded calls interval threshold k hk Hk)).
  intros now n. unfold attempts_bounded. simpl. lia.
Qed.

Lemma reachable_default_backoff interval maximum threshold calls k hk :
  lookup_watcher k
    (watchers (run calls (FailureManager_init interval maximum threshold))) = Some hk ->
  recovery_backoff_seconds hk = 30.
Proof.
  apply (run_keeps default_backoff maximum).
  - reflexivity.
  - intros now thr n b e h. unfold default_backoff, heartbeat. destruct b; auto.
  - intros now i thr n h Hh. unfold default_backoff, check_watcher in *.
    destruct (is_stale now i h); [| exact Hh].
    destruct (consecutive_failures (mark_stale h) <? thr); [| exact Hh].
    unfold _attempt_restart.
    destruct (max_restart_attempts (mark_stale h) <=? restart_attempts (mark_stale h));
      exact Hh.
Qed.

Lemma events_of_check_all now m :
  events (_check_all_watchers now m) =
  (events m ++
   new_events (snd (check_each now (health_check_interval m) (alert_threshold m)
                               (watchers m))))%list.
Proof.
  unfold _check_all_watchers.
  destruct (check_each now (health_check_interval m) (alert_threshold m) (watchers m)).
  reflexivity.
Qed.

Lemma tasks_of_check_all now m :
  tasks (_check_all_watchers now m) =
  fold_left (fun t ka => <[fst ka := snd ka]> t)
    (new_alerts (snd (check_each now (health_check_interval m) (alert_threshold m)
                                 (watchers m))))
    (tasks m).
Proof.
  unfold _check_all_watchers.
  destruct (check_each now (health_check_interval m) (alert_threshold m) (watchers m)).
  reflexivity.
Qed.

(** The check of one watcher lets out events and alert files that name
    that watcher only. *)
Lemma check_watcher_names now interval threshold k hk :
  let e := snd (check_watcher now interval threshold k hk) in
  (forall n, n <> k -> alerts_for n (new_events e) = 0%nat) /\
  (forall key alert, In (key, alert) (new_alerts e) -> fst key = k).
Proof.
  cbv zeta. unfold check_watcher.
  destruct (is_stale now interval hk); [| split; [reflexivity | intros ? ? []]].
  destruct (consecutive_failures (mark_stale hk) <? threshold);
    [| split; [reflexivity | intros ? ? []]].
  unfold _attempt_restart.
  destruct (max_restart_attempts (mark_stale hk) <=? restart_attempts (mark_stale hk));
    cbn [snd seq_effects new_events new_alerts _log_error _create_alert app].
  - split.
    + intros n Hn. unfold alerts_for. cbn [List.filter is_alert_for].
      apply String.eqb_neq in Hn. rewrite String.eqb_sym, Hn. reflexivity.
    + intros key alert [E | []]. now injection E as <- _.
  - split; [reflexivity | intros ? ? []].
Qed.

Lemma alerts_check_each_absent now interval threshold n ws :
  ~ In n (map fst ws) ->
  alerts_for n (new_events (snd (check_each now interval threshold ws))) = 0%nat.
Proof.
  induction ws as [|[k hk] r IH]; intros Hn; [reflexivity |].
  rewrite check_each_cons. cbn [snd seq_effects new_events]. rewrite alerts_for_app.
  rewrite (proj1 (check_watcher_names now interval threshold k hk) n), IH.
  - reflexivity.
  - intros Hin. apply Hn. now right.
  - intros ->. apply Hn. now left.
Qed.

(** Among the events of one periodic check, those that name a watcher
    are the events of the check of that watcher. *)
Lemma alerts_check_each now interval threshold n h ws :
  List.NoDup (map fst ws) -> lookup_watcher n ws = Some h ->
  alerts_for n (new_events (snd (check_each now interval threshold ws))) =
  alerts_for n (new_events (snd (check_watcher now interval threshold n h))).
Proof.
  induction ws as [|[k hk] r IH]; intros Hnd Hl; [discriminate |].
  cbn [map fst] in Hnd. apply List.NoDup_cons_iff in Hnd as [Hk Hnd].
  rewrite check_each_cons. cbn [snd seq_effects new_events]. rewrite alerts_for_app.
  cbn [lookup_watcher] in Hl. destruct (String.eqb n k) eqn:E.
  - apply String.eqb_eq in E. subst k. injection Hl as ->.
    rewrite (alerts_check_each_absent now interval threshold n r Hk). lia.
  - apply String.eqb_neq in E.
    rewrite (proj1 (check_watcher_names now interval threshold k hk) n E).
    now apply IH.
Qed.

Lemma in_alerts_check_each now interval threshold key alert ws :
  In (key, alert) (new_alerts (snd (check_each now interval threshold ws))) ->
  exists k hk, In (k, hk) ws /\
    In (key, alert) (new_alerts (snd (check_watcher now interval threshold k hk))).
Proof.
  induction ws as [|[k hk] r IH]; [intros [] |].
  rewrite check_each_cons. cbn [snd seq_effects new_alerts].
  intros Hin. apply in_app_iff in Hin as [Hin | Hin].
  - exists k, hk. split; [now left | exact Hin].
  - destruct (IH Hin) as (k' & hk' & Hr & Ha). exists k', hk'. split; [now right | exact Ha].
Qed.

Lemma alerts_of_check_each now interval threshold n h ws key alert :
  lookup_watcher n ws = Some h ->
  In (key, alert) (new_alerts (snd (check_watcher now interval threshold n h))) ->
  In (key, alert) (new_alerts (snd (check_each now interval threshold ws))).
Proof.
  induction ws as [|[k hk] r IH]; intros Hl Hin; [discriminate |].
  rewrite check_each_cons. cbn [snd seq_effects new_alerts]. apply in_app_iff.
  cbn [lookup_watcher] in Hl. destruct (String.eqb n k) eqn:E.
  - apply String.eqb_eq in E. subst k. injection Hl as ->. now left.
  - right. now apply IH.
Qed.

Lemma in_unique_key n h hk ws :
  List.NoDup (map fst ws) -> lookup_watcher n ws = Some h -> In (n, hk) ws -> hk = h.
Proof.
  induction ws as [|[k hk'] r IH]; intros Hnd Hl Hin; [destruct Hin |].
  cbn [map fst] in Hnd. apply List.NoDup_cons_iff in Hnd as [Hk Hnd].
  cbn [lookup_watcher] in Hl. destruct (String.eqb n k) eqn:E.
  - apply String.eqb_eq in E. subst k. injection Hl as ->.
    destruct Hin as [Hin | Hin]; [congruence |].
    exfalso. apply Hk. apply in_map_iff. now exists (n, hk).
  - apply String.eqb_neq in E. destruct Hin as [Hin | Hin]; [congruence |].
    now apply IH.
Qed.

(** Writing the alert files one after the other: a key that the list
    gives one content only holds it in the end. *)
Lemma fold_insert_lookup (l : list ((string * Z) * Alert)) (t : gmap (string * Z) Alert)
    key alert :
  In (key, alert) l \/ t !! key = Some alert ->
  (forall alert', In (key, alert') l -> alert' = alert) ->
  fold_left (fun t ka => <[fst ka := snd ka]> t) l t !! key = Some alert.
Proof.
  revert t. induction l as [|[k1 a1] r IH]; intros t Hin Huniq.
  - destruct Hin as [[] | Ht]. exact Ht.
  - cbn [fold_left fst snd]. apply IH.
    + destruct (decide (k1 = key)) as [-> | Hne].
      * right. rewrite (Huniq a1 (or_introl eq_refl)). apply lookup_insert_eq.
      * destruct Hin as [[E | Hin] | Ht]; [congruence | now left |].
        right. now rewrite lookup_insert_ne.
    + intros alert' H'. apply Huniq. now right.
Qed.

Lemma store_watcher_keys n h ws :
  List.NoDup (map fst ws) -> List.NoDup (map fst (store_watcher n h ws)).
Proof.
  induction ws as [|[k hk] r IH]; intros Hnd.
  - cbn. constructor; [intros [] | constructor].
  - cbn [store_watcher]. destruct (String.eqb n k) eqn:E.
    + apply String.eqb_eq in E. subst k. exact Hnd.
    + apply String.eqb_neq in E. cbn [map fst] in *.
      apply List.NoDup_cons_iff in Hnd as [Hk Hnd].
      apply List.NoDup_cons_iff. split; [| now apply IH].
      intros Hin. apply Hk. clear - Hin E.
      induction r as [|[k' h'] r IHr].
      * cbn in Hin. destruct Hin as [-> | []]. congruence.
      * cbn [store_watcher] in Hin. destruct (String.eqb n k'); cbn [map fst] in *.
        -- destruct Hin as [-> | Hin]; [congruence | now right].
        -- destruct Hin as [-> | Hin]; [now left | right; now apply IHr].
Qed.

Lemma check_each_keys now interval threshold ws :
  map fst (fst (check_each now interval threshold ws)) = map fst ws.
Proof.
  induction ws as [|[k hk] r IH]; [reflexivity |].
  rewrite check_each_cons. cbn [fst map]. now rewrite IH.
Qed.

(** The watchers the supervisor holds are a [dict]: in every state it
    reaches, no name is held twice. *)
Lemma reachable_names_unique interval maximum threshold calls :
  List.NoDup
    (map fst (watchers (run calls (FailureManager_init interval maximum threshold)))).
Proof.
  assert (Hgen : forall cs m, List.NoDup (map fst (watchers m)) ->
                              List.NoDup (map fst (watchers (run cs m)))).
  { induction cs as [|[now c] cs IH]; intros m Hnd; [exact Hnd |].
    rewrite run_cons. apply IH. destruct c as [n | n is_healthy error |]; cbn [step].
    - now apply store_watcher_keys.
    - unfold update_heartbeat. destruct (lookup_watcher n (watchers m)); [| exact Hnd].
      destruct (heartbeat now (alert_threshold m) n is_healthy error w).
      now apply store_watcher_keys.
    - now rewrite watchers_of_check_all, check_each_keys. }
  apply Hgen. constructor.
Qed.

(** C8, as the code has it.  When the periodic check finds a registered
    worker that is marked running and whose last heartbeat is older than
    three health-check intervals, it counts one more consecutive failure
    and marks the worker not running.  With the new count under the
    alert threshold a restart is attempted: with attempts left
    restart_attempts goes up by one, which gives 1 only for a worker
    that was never restarted, the status the check leaves is RECOVERING
    and no alert is written; once restart_attempts has reached
    max_restart_attempts the counter stays as it is, the status left is
    FAILED and one alert is written, which names the counter and its
    maximum.  With the new count at the threshold or above no restart is
    attempted: the status left is FAILED, the counter stays and no alert
    is written.  In every state the supervisor reaches from its start,
    with a maximum that is not negative, restart_attempts is at most
    max_restart_attempts. *)
Theorem stale_worker_check (m : FailureManager) (now : Z) (n : string)
    (h : WatcherHealth) (t : Z) :
  List.NoDup (map fst (watchers m)) ->
  lookup_watcher n (watchers m) = Some h ->
  last_heartbeat h = Some t ->
  timedelta_of_seconds (health_check_interval m * 3) < now - t ->
  is_running h = true ->
  let m' := _check_all_watchers now m in
  exists h',
    lookup_watcher n (watchers m') = Some h' /\
    consecutive_failures h' = consecutive_failures h + 1 /\
    is_running h' = false /\
    max_restart_attempts h' = max_restart_attempts h /\
    (consecutive_failures h + 1 < alert_threshold m ->
     restart_attempts h < max_restart_attempts h ->
     restart_attempts h' = restart_attempts h + 1 /\
     (restart_attempts h = 0 -> restart_attempts h' = 1) /\
     status h' = RECOVERING /\
     alerts_for n (events m') = alerts_for n (events m)) /\
    (consecutive_failures h + 1 < alert_threshold m ->
     max_restart_attempts h <= restart_attempts h ->
     restart_attempts h' = restart_attempts h /\
     status h' = FAILED /\
     alerts_for n (events m') = S (alerts_for n (events m)) /\
     tasks m' !! (n, second_of now) =
       Some (mkAlert n (consecutive_failures h + 1) (error_text (last_error h))
                     (restart_attempts h) (max_restart_attempts h))) /\
    (alert_threshold m <= consecutive_failures h + 1 ->
     restart_attempts h' = restart_attempts h /\
     status h' = FAILED /\
     alerts_for n (events m') = alerts_for n (events m)) /\
    (forall interval maximum threshold calls k hk,
        0 <= maximum ->
        lookup_watcher k
          (watchers (run calls (FailureManager_init interval maximum threshold)))
        = Some hk ->
        restart_attempts hk <= max_restart_attempts hk).
Proof.
  intros Hnd Hl Ht Hstale Hrun. cbv zeta.
  assert (Hs : is_stale now (health_check_interval m) h = true).
  { unfold is_stale. rewrite Ht, Hrun.
    apply andb_true_iff. split; [apply Z.ltb_lt; exact Hstale | reflexivity]. }
  pose proof (alerts_check_each now (health_check_interval m) (alert_threshold m) n h
                (watchers m) Hnd Hl) as Hal.
  assert (Hev : alerts_for n (events (_check_all_watchers now m)) =
                (alerts_for n (events m) +
                 alerts_for n (new_events
                   (snd (check_watcher now (health_check_interval m) (alert_threshold m)
                                       n h))))%nat).
  { now rewrite events_of_check_all, alerts_for_app, Hal. }
  assert (Htasks : forall key alert,
             fst key = n ->
             new_alerts (snd (check_watcher now (health_check_interval m)
                                            (alert_threshold m) n h)) = [(key, alert)] ->
             tasks (_check_all_watchers now m) !! key = Some alert).
  { intros key alert Hkey Hnew. rewrite tasks_of_check_all.
    apply fold_insert_lookup.
    - left. apply (alerts_of_check_each _ _ _ n h); [exact Hl |].
      rewrite Hnew. now left.
    - intros alert' Hin. apply in_alerts_check_each in Hin as (k & hk & Hk & Hin).
      pose proof (proj2 (check_watcher_names now (health_check_interval m)
                           (alert_threshold m) k hk) _ _ Hin) as Hname.
      rewrite Hkey in Hname. subst k.
      rewrite (in_unique_key n h hk (watchers m) Hnd Hl Hk), Hnew in Hin.
      destruct Hin as [E | []]. congruence. }
  exists (fst (check_watcher now (health_check_interval m) (alert_threshold m) n h)).
  split.
  { rewrite watchers_of_check_all, lookup_check_each, Hl. reflexivity. }
  revert Hev Htasks. unfold check_watcher. rewrite Hs.
  change (consecutive_failures (mark_stale h)) with (consecutive_failures h + 1).
  destruct (consecutive_failures h + 1 <? alert_threshold m) eqn:E;
    [apply Z.ltb_lt in E | apply Z.ltb_ge in E].
  - unfold _attempt_restart.
    change (max_restart_attempts (mark_stale h)) with (max_restart_attempts h).
    change (restart_attempts (mark_stale h)) with (restart_attempts h).
    destruct (max_restart_attempts h <=? restart_attempts h) eqn:Em;
      [apply Z.leb_le in Em | apply Z.leb_gt in Em];
      cbn [fst snd seq_effects new_events new_alerts _log_error _create_alert app];
      intros Hev Htasks.
    + split; [reflexivity |]. split; [reflexivity |]. split; [reflexivity |].
      split; [intros; lia |]. split; [| split; [intros; lia |
                                                 exact reachable_attempts_bounded]].
      intros _ _. split; [reflexivity |]. split; [reflexivity |]. split.
      * rewrite Hev. unfold alerts_for. cbn [List.filter is_alert_for].
        rewrite String.eqb_refl. cbn [length]. lia.
      * now apply Htasks.
    + split; [reflexivity |]. split; [reflexivity |]. split; [reflexivity |].
      split; [| split; [intros; lia | split; [intros; lia |
                                               exact reachable_attempts_bounded]]].
      intros _ _. cbn [restart_attempts status]. split; [reflexivity |].
      split; [intros ->; reflexivity |]. split; [reflexivity |].
      rewrite Hev. unfold alerts_for. cbn. lia.
  - cbn [fst snd new_events _log_error]. intros Hev _.
    split; [reflexivity |]. split; [reflexivity |]. split; [reflexivity |].
    split; [intros; lia |]. split; [intros; lia |].
    split; [| exact reachable_attempts_bounded].
    intros _. split; [reflexivity |]. split; [reflexivity |].
    rewrite Hev. unfold alerts_for. cbn. lia.
Qed.

Lemma stale_worker_check_witness :
  exists h',
    lookup_watcher "GmailWatcher" (watchers (_check_all_watchers 200000000 restarted_manager))
    = Some h' /\
    restart_attempts h' = 2 /\ status h' = RECOVERING /\ consecutive_failures h' = 1 /\
    is_running h' = false.
Proof.
  destruct (stale_worker_check restarted_manager 200000000 "GmailWatcher"
              (fst (heartbeat 100000000 5 "GmailWatcher" true None
                      (fst (check_watcher 91000000 30 5 "GmailWatcher"
                              (fresh_health 0 "GmailWatcher" 3)))))
              100000000)
    as (h' & Hl & Hc & Hr & _ & Hleft & _).
  - vm_compute. constructor; [intros [] | constructor].
  - vm_compute. reflexivity.
  - reflexivity.
  - vm_compute. reflexivity.
  - reflexivity.
  - exists h'. split; [exact Hl |].
    destruct Hleft as (Ha & _ & Hst & _); [vm_compute; reflexivity.. |].
    split; [exact Ha |]. split; [exact Hst |]. split; [exact Hc | exact Hr].
Defined.

(** C8 as the specification states it fails: a worker that was
    restarted once and has sent a healthy heartbeat since keeps its
    counter, so the next stale heartbeat, found with the worker running
    and no consecutive failure counted, takes restart_attempts to 2, not
    to 1; and the status the check leaves is RECOVERING, not FAILED. *)
Lemma stale_worker_restart_counterexample :
  let m := restarted_manager in
  let m' := _check_all_watchers 200000000 m in
  option_map (fun h => (is_running h, last_heartbeat h, consecutive_failures h,
                        restart_attempts h))
             (lookup_watcher "GmailWatcher" (watchers m))
  = Some (true, Some 100000000, 0, 1) /\
  timedelta_of_seconds (health_check_interval m * 3) < 200000000 - 100000000 /\
  0 + 1 < alert_threshold m /\
  option_map (fun h => (status h, consecutive_failures h, restart_attempts h))
             (lookup_watcher "GmailWatcher" (watchers m'))
  = Some (RECOVERING, 1, 2).
Proof. vm_compute. repeat split; reflexivity. Qed.

Lemma backoff_delay_step base j :
  1 <= j -> backoff_delay base (j + 1) = 2 * backoff_delay base j.
Proof.
  intros Hj. unfold backoff_delay.
  replace (j + 1 - 1) with (Z.succ (j - 1)) by lia.
  rewrite Z.pow_succ_r by lia. ring.
Qed.

Lemma backoff_delay_pos base j : 0 < base -> 1 <= j -> 0 < backoff_delay base j.
Proof.
  intros Hb Hj. unfold backoff_delay.
  apply Z.mul_pos_pos; [exact Hb | apply Z.pow_pos_nonneg; lia].
Qed.

(** C9.  The restart attempt number k >= 1 that the supervisor
    sanctions is logged with the backoff base * 2^(k-1), base being the
    worker's recovery_backoff_seconds; with a positive base each delay
    is smaller than the next, in particular those of attempts 1, 2 and
    3; and every worker the supervisor holds has the base 30. *)
Theorem restart_backoff_exponential (now : Z) (n : string) (h : WatcherHealth) (k : Z) :
  1 <= k -> restart_attempts h = k - 1 -> k <= max_restart_attempts h ->
  let base := recovery_backoff_seconds h in
  new_events (snd (_attempt_restart now n h)) =
    [RestartLogged n k (max_restart_attempts h) (base * 2 ^ (k - 1))] /\
  restart_attempts (fst (_attempt_restart now n h)) = k /\
  (0 < base ->
   backoff_delay base 1 < backoff_delay base 2 /\
   backoff_delay base 2 < backoff_delay base 3 /\
   forall j, 1 <= j -> backoff_delay base j < backoff_delay base (j + 1)) /\
  (forall interval maximum threshold calls w hw,
      lookup_watcher w
        (watchers (run calls (FailureManager_init interval maximum threshold))) = Some hw ->
      recovery_backoff_seconds hw = 30).
Proof.
  intros Hk Ha Hmax. cbv zeta. unfold _attempt_restart.
  replace (max_restart_attempts h <=? restart_attempts h) with false
    by (symmetry; apply Z.leb_gt; lia).
  cbn [fst snd new_events restart_attempts]. unfold backoff_delay at 1.
  replace (restart_attempts h + 1) with k by lia.
  split; [reflexivity |]. split; [reflexivity |]. split.
  - intros Hb.
    assert (Hstep : forall j, 1 <= j ->
               backoff_delay (recovery_backoff_seconds h) j
               < backoff_delay (recovery_backoff_seconds h) (j + 1)).
    { intros j Hj. rewrite backoff_delay_step by exact Hj.
      pose proof (backoff_delay_pos _ j Hb Hj). lia. }
    split; [exact (Hstep 1 ltac:(lia)) |]. split; [exact (Hstep 2 ltac:(lia)) | exact Hstep].
  - exact reachable_default_backoff.
Qed.

Lemma restart_backoff_exponential_witness :
  new_events (snd (_attempt_restart 91000000 "GmailWatcher"
                     (mark_stale (fresh_health 0 "GmailWatcher" 3)))) =
    [RestartLogged "GmailWatcher" 1 3 30] /\
  backoff_delay 30 1 < backoff_delay 30 2 /\ backoff_delay 30 2 < backoff_delay 30 3.
Proof.
  destruct (restart_backoff_exponential 91000000 "GmailWatcher"
              (mark_stale (fresh_health 0 "GmailWatcher" 3)) 1)
    as (He & _ & Hmono & _).
  - lia.
  - reflexivity.
  - vm_compute. discriminate.
  - split; [exact He |].
    destruct Hmono as (H12 & H23 & _); [reflexivity |]. split; [exact H12 | exact H23].
Defined.

End HealthFacts.

(** * Properties of the workflow engine *)

Module PlannerFacts.
Import PyStr Analyzer Store Planner Samples.

(** An id in the set makes the body of the loop a no-op. *)
Lemma plan_one_skip now st name :
  stem name ∈ processed_cache (planner st) -> plan_one now st name = st.
Proof. intros Hin. unfold plan_one. now rewrite decide_True. Qed.

(** The set only grows. *)
Lemma plan_one_cache_mono now st name :
  processed_cache (planner st) ⊆ processed_cache (planner (plan_one now st name)).
Proof.
  unfold plan_one.
  destruct (decide (stem name ∈ processed_cache (planner st))); [done |].
  destruct (needs_action (world st) !! name) as [content|]; [| done].
  destruct (_parse_email_file content) as [metadata body].
  destruct (needs_reply (analyze_email (planner st) metadata body)); cbn [negb].
  - destruct (auto_approve (analyze_email (planner st) metadata body)).
    + destruct (_auto_send_email _ _ _ _ _ _) as [success w1]. cbn. set_solver.
    + destruct (_create_review_plan _ _ _ _ _ _ _) as [plan_id w1 | e w1]; cbn;
        set_solver.
  - cbn. set_solver.
Qed.

Lemma plan_loop_cons now f files st :
  plan_loop now (f :: files) st = plan_loop now files (plan_one now st f).
Proof. reflexivity. Qed.

(** The loop over a listing is the loop over its unprocessed files. *)
Lemma plan_loop_unprocessed now ids files st :
  ids ⊆ processed_cache (planner st) ->
  plan_loop now files st = plan_loop now (unprocessed ids files) st.
Proof.
  revert st. induction files as [|f files IH]; intros st Hsub; [reflexivity |].
  unfold unprocessed. cbn [List.filter]. fold (unprocessed ids files).
  destruct (bool_decide (stem f ∈ ids)) eqn:E; cbn [negb].
  - apply bool_decide_eq_true in E. rewrite plan_loop_cons.
    rewrite plan_one_skip by set_solver. apply IH. exact Hsub.
  - rewrite !plan_loop_cons. apply IH.
    pose proof (plan_one_cache_mono now st f). set_solver.
Qed.

Lemma not_in_unprocessed ids files name :
  stem name ∈ ids -> ~ In name (unprocessed ids files).
Proof.
  intros Hin Hf. unfold unprocessed in Hf. apply List.filter_In in Hf as [_ Hf].
  rewrite bool_decide_eq_true_2 in Hf by exact Hin. discriminate.
Qed.

(** A planner built on the saved cache holds the set that was saved. *)
Lemma load_after_save p w : _load_cache (_save_cache p w) = processed_cache p.
Proof. unfold _load_cache, _save_cache. cbn. apply list_to_set_elements_L. Qed.

(** C3.  Once a call of plan_all_emails has put the id of a file into
    the processed set, the body of the loop does nothing for that file
    in any later state of the same set or a larger one: a second call
    is the loop over the listing without the processed files, so it
    writes no plan, sends nothing, moves nothing and patches nothing
    for it; and a planner built afresh on the saved cache starts from
    the same set. *)
Theorem ingest_idempotent (now1 now2 : Clock) (p : EmailPlanner) (w : World)
    (name : string) :
  let first := plan_all_emails now1 p w in
  let p1 := snd (fst first) in
  let w1 := snd first in
  stem name ∈ processed_cache p1 ->
  (forall st, processed_cache p1 ⊆ processed_cache (planner st) ->
              plan_one now2 st name = st) /\
  plan_all_emails now2 p1 w1 =
    finish (plan_loop now2 (unprocessed (processed_cache p1) (email_files w1))
                      (mkLoop p1 w1 [])) /\
  ~ In name (unprocessed (processed_cache p1) (email_files w1)) /\
  processed_cache (new_planner (use_ai p1) (analyzer p1) w1) = processed_cache p1.
Proof.
  intros first p1 w1 Hin. split; [| split; [| split]].
  - intros st Hsub. apply plan_one_skip. set_solver.
  - unfold plan_all_emails at 1. f_equal. now apply plan_loop_unprocessed.
  - now apply not_in_unprocessed.
  - subst w1 p1 first. unfold new_planner, plan_all_emails, finish.
    cbn [fst snd processed_cache]. apply load_after_save.
Qed.

Lemma ingest_idempotent_witness :
  let first := plan_all_emails noon (fresh_planner ack_world) ack_world in
  let st := mkLoop (snd (fst first)) (snd first) [] in
  plan_one later st "EMAIL_hello.md" = st /\
  ~ In "EMAIL_hello.md"
       (unprocessed (processed_cache (snd (fst first))) (email_files (snd first))).
Proof.
  cbv zeta.
  destruct (ingest_idempotent noon later (fresh_planner ack_world) ack_world
              "EMAIL_hello.md") as (H1 & _ & H3 & _).
  - vm_compute. reflexivity.
  - split; [apply H1; reflexivity | exact H3].
Defined.

(** A send that fails leaves every folder as it was. *)
Lemma auto_send_failure_keeps_folders p now name metadata analysis w :
  fst (_auto_send_email p now name metadata analysis w) = false ->
  forall f, folder f (snd (_auto_send_email p now name metadata analysis w)) = folder f w.
Proof.
  unfold _auto_send_email.
  destruct (email_sender p); [| reflexivity].
  destruct (suggested_reply analysis) as [[|c reply]|]; [reflexivity | | reflexivity].
  unfold send_email. cbv beta iota zeta.
  destruct (match mailer w with [] => false | b :: _ => b end).
  - destruct (VaultUpdate.update_frontmatter _ _ _ _) as [b w3].
    destruct (VaultUpdate.move_to_folder _ _ _ _) as [o w4]. discriminate.
  - intros _ f. destruct f; reflexivity.
Qed.

Lemma marked_in (id : string) (ids : gset string) : id ∈ {[id]} ∪ ids.
Proof. set_solver. Qed.

(** C4, as the code has it.  For a file whose id is not yet in the
    processed set, the id is added whenever the body of the loop ends
    without an exception: in the archive branch and in the auto-send
    branch it is always added, also when the send capability answers
    false or is missing, in which case the email stays in Needs_Action
    and no later call handles it again; the id is left out when the
    file cannot be read, which raises. *)
Theorem processed_after_body (now : Clock) (st : LoopState) (name : string) :
  stem name ∉ processed_cache (planner st) ->
  let st' := plan_one now st name in
  (forall content,
      needs_action (world st) !! name = Some content ->
      let parsed := _parse_email_file content in
      let analysis := analyze_email (planner st) (fst parsed) (snd parsed) in
      (needs_reply analysis = false \/ auto_approve analysis = true ->
       stem name ∈ processed_cache (planner st') /\
       forall now2 st2,
         processed_cache (planner st') ⊆ processed_cache (planner st2) ->
         plan_one now2 st2 name = st2) /\
      (needs_reply analysis = true -> auto_approve analysis = true ->
       fst (_auto_send_email (planner st) now name (fst parsed) analysis (world st))
       = false ->
       stem name ∈ processed_cache (planner st') /\
       needs_action (world st') !! name = Some content)) /\
  (needs_action (world st) !! name = None ->
   processed_cache (planner st') = processed_cache (planner st) /\
   results st' = (results st ++ [error_result name (FileNotFoundError name)])%list).
Proof.
  intros Hnew st'. subst st'. unfold plan_one.
  rewrite decide_False by exact Hnew. split.
  - intros content Hc. rewrite Hc.
    destruct (_parse_email_file content) as [metadata body]. cbn [fst snd].
    set (analysis := analyze_email (planner st) metadata body).
    split.
    + intros Hbranch.
      destruct (needs_reply analysis) eqn:En; cbn [negb].
      * destruct Hbranch as [Hf | Ha]; [discriminate |]. rewrite Ha.
        destruct (_auto_send_email _ _ _ _ _ _) as [success w1].
        cbn [planner processed_cache with_processed].
        split; [apply marked_in |].
        intros now2 st2 Hsub. apply plan_one_skip, Hsub, marked_in.
      * cbn [planner processed_cache with_processed].
        split; [apply marked_in |].
        intros now2 st2 Hsub. apply plan_one_skip, Hsub, marked_in.
    + intros En Ha Hfail. rewrite En, Ha. cbn [negb].
      pose proof (auto_send_failure_keeps_folders _ _ _ _ _ _ Hfail Needs_Action) as Hk.
      destruct (_auto_send_email _ _ _ _ _ _) as [success w1].
      cbn [planner processed_cache with_processed world].
      cbn [snd folder] in Hk.
      split; [apply marked_in |]. rewrite Hk. exact Hc.
  - intros Hnone. rewrite Hnone. split; reflexivity.
Qed.

Lemma processed_after_body_witness :
  let st := mkLoop (fresh_planner ack_world) ack_world [] in
  stem "EMAIL_hello.md" ∈ processed_cache (planner (plan_one noon st "EMAIL_hello.md")) /\
  needs_action (world (plan_one noon st "EMAIL_hello.md")) !! "EMAIL_hello.md"
  = Some ack_email.
Proof.
  cbv zeta.
  destruct (processed_after_body noon (mkLoop (fresh_planner ack_world) ack_world [])
              "EMAIL_hello.md") as [Hsome _].
  - vm_compute. discriminate.
  - destruct (Hsome ack_email) as [_ Hfail].
    + vm_compute. reflexivity.
    + apply Hfail; vm_compute; reflexivity.
Defined.

(** C4 as the specification states it fails: the send capability
    refuses the auto-reply, and the id is in the processed set all the
    same; the email is still in Needs_Action, and the next call, for
    which the capability would accept the message, lists it and skips
    it: nothing is sent. *)
Lemma auto_send_failure_counterexample :
  let first := plan_all_emails noon (fresh_planner ack_world) ack_world in
  let second := plan_all_emails later (snd (fst first)) (snd first) in
  map res_action (fst (fst first)) = ["auto_sent"] /\
  map res_success (fst (fst first)) = [Some false] /\
  map snd (mail_log (snd first)) = [false] /\
  bool_decide ("EMAIL_hello" ∈ processed_cache (snd (fst first))) = true /\
  needs_action (snd first) !! "EMAIL_hello.md" = Some ack_email /\
  email_files (snd first) = ["EMAIL_hello.md"] /\
  mailer (snd first) = [true] /\
  fst (fst second) = [] /\
  mail_log (snd second) = mail_log (snd first).
Proof. vm_compute. repeat split; reflexivity. Qed.

End PlannerFacts.

(** * Where the joined paths lead *)

Module PathFacts.
Import PyStr PyStrMore Store Scan.

Lemma walk_elsewhere parts : fold_left walk parts Elsewhere = Elsewhere.
Proof.
  induction parts as [|part parts IH]; [reflexivity |].
  cbn [fold_left]. unfold walk at 2. now destruct (String.eqb part "..").
Qed.

Lemma walk_file parts f name :
  parts <> [] -> fold_left walk parts (File_of f name) = Elsewhere.
Proof.
  destruct parts as [|part parts]; [congruence |]. intros _.
  cbn [fold_left]. unfold walk at 2.
  destruct (String.eqb part ".."); apply walk_elsewhere.
Qed.

(** The two paths built from one text lead to the file of one name in
    Needs_Action and in Inbox, or to one and the same file. *)
Lemma locate_pair text email_folder email_name inbox_folder inbox_name :
  locate Needs_Action text = File_of email_folder email_name ->
  locate Inbox text = File_of inbox_folder inbox_name ->
  inbox_name = email_name /\
  (inbox_folder = email_folder \/ (email_folder = Needs_Action /\ inbox_folder = Inbox)).
Proof.
  unfold locate. destruct (startswith "/" text); [discriminate |].
  destruct (path_parts text) as [|part parts]; [discriminate |].
  cbn [fold_left]. unfold walk at 2 4.
  destruct (String.eqb part "..").
  - intros -> E. injection E as -> ->. split; [reflexivity | now left].
  - destruct parts as [|p1 parts].
    + cbn [fold_left]. intros E1 E2. injection E1 as <- <-. injection E2 as <- <-.
      split; [reflexivity | now right].
    + rewrite walk_file by discriminate. discriminate.
Qed.

Lemma split_char_plain c s : no_char c s = true -> split_char c s = [s].
Proof.
  unfold no_char, split_char. induction s as [|d r IH]; [reflexivity |].
  cbn [all_chars split_on]. intros H. apply andb_true_iff in H as [Hd Hr].
  rewrite Ascii.eqb_sym. apply negb_true_iff in Hd. rewrite Hd.
  now rewrite (IH Hr).
Qed.

(** A text without ['/'] leads to the file of that name in the folder
    it is joined to, or to no file. *)
Lemma locate_plain f text g name :
  no_char "/" text = true ->
  locate f text = File_of g name -> g = f /\ name = text.
Proof.
  intros Hp. unfold locate, path_parts. rewrite (split_char_plain _ _ Hp).
  destruct (startswith "/" text); [discriminate |].
  cbn [List.filter].
  destruct (negb (String.eqb text "") && negb (String.eqb text "."));
    [| discriminate].
  cbn [fold_left]. unfold walk.
  destruct (String.eqb text ".."); [now destruct f |].
  intros E. now injection E as <- <-.
Qed.

Lemma locate_name f text :
  no_char "/" text = true -> text <> "" -> text <> "." -> text <> ".." ->
  locate f text = File_of f text.
Proof.
  intros Hp H0 H1 H2. unfold locate, path_parts. rewrite (split_char_plain _ _ Hp).
  assert (Hs : startswith "/" text = false).
  { destruct text as [|c r]; [reflexivity |]. cbn [startswith].
    unfold no_char in Hp. cbn [all_chars] in Hp.
    apply andb_true_iff in Hp as [Hc _]. apply negb_true_iff in Hc.
    rewrite Ascii.eqb_sym, Hc. reflexivity. }
  rewrite Hs. cbn [List.filter].
  apply String.eqb_neq in H0, H1, H2. rewrite H0, H1. cbn [negb andb fold_left].
  unfold walk. now rewrite H2.
Qed.

(** What a file moved along the two paths leaves of the folders: the
    other folders keep what they had or lose the file, and Inbox alone
    can gain one. *)
Lemma moved_folder f g name content w h :
  g = f \/ (f = Needs_Action /\ g = Inbox) ->
  h <> Inbox ->
  folder h (unlink f name (write_text g name content w)) ⊆ folder h w.
Proof.
  intros [-> | [-> ->]] Hh.
  - destruct f, h; cbn; try reflexivity.
    all: rewrite delete_insert_eq; apply delete_subseteq.
  - destruct h; cbn; try reflexivity; try congruence. apply delete_subseteq.
Qed.

End PathFacts.

(** * Properties of the approval executor *)

Module ExecutorFacts.
Import PyStr Store Executor Samples.

(** The send capability touches no folder. *)
Lemma send_email_keeps_folders recipient subject body w f :
  folder f (snd (send_email recipient subject body w)) = folder f w.
Proof. destruct f; reflexivity. Qed.

Lemma approved_after_done now plan_name plan_id recipient content w :
  approved (_move_plan_to_done now plan_name plan_id recipient content w) ⊆ approved w.
Proof.
  unfold _move_plan_to_done.
  destruct (match_frontmatter content) as [[frontmatter rest]|]; [| reflexivity].
  cbn. apply delete_subseteq.
Qed.

(** The email is moved along the two paths or nothing is done. *)
Lemma move_email_to_inbox_shape now email_filename plan_id w :
  let w' := _move_email_to_inbox now email_filename plan_id w in
  w' = w \/
  exists f g name content,
    (g = f \/ (f = Needs_Action /\ g = Inbox)) /\
    locate Needs_Action email_filename = File_of f name /\
    locate Inbox email_filename = File_of g name /\
    is_Some (folder f w !! name) /\
    w' = unlink f name (write_text g name content w).
Proof.
  cbv zeta. unfold _move_email_to_inbox.
  destruct (locate Needs_Action email_filename) as [| | |f name|] eqn:E1; try now left.
  destruct (locate Inbox email_filename) as [| | |g name'|] eqn:E2; try now left.
  destruct (PathFacts.locate_pair _ _ _ _ _ E1 E2) as [-> Hfg].
  destruct (folder f w !! name) as [email_content|] eqn:He; [| now left].
  destruct (match_frontmatter email_content) as [[frontmatter rest]|]; [| now left].
  right. exists f, g, name. eexists. split; [exact Hfg |]. split; [reflexivity |].
  split; [reflexivity |]. split; [now rewrite He | reflexivity].
Qed.

Lemma folder_after_inbox now email_filename plan_id w h :
  h <> Inbox ->
  folder h (_move_email_to_inbox now email_filename plan_id w) ⊆ folder h w.
Proof.
  intros Hh.
  destruct (move_email_to_inbox_shape now email_filename plan_id w)
    as [-> | (f & g & name & content & Hfg & _ & _ & _ & ->)]; [reflexivity |].
  now apply PathFacts.moved_folder.
Qed.

Lemma approved_after_inbox now email_filename plan_id w :
  approved (_move_email_to_inbox now email_filename plan_id w) ⊆ approved w.
Proof. now apply (folder_after_inbox now email_filename plan_id w Approved). Qed.

(** [_execute_plan] only ever takes files out of Approved, and takes
    none out when it returns [False]. *)
Lemma execute_plan_approved now plan_name plan_id ex w :
  let r := _execute_plan now plan_name plan_id ex w in
  approved (snd r) ⊆ approved w /\
  (fst (fst r) = false -> forall f, folder f (snd r) = folder f w) /\
  processed_plans (snd (fst r)) = processed_plans ex.
Proof.
  cbv zeta. unfold _execute_plan.
  destruct (approved w !! plan_name) as [content|]; [| by repeat split].
  destruct (search_field "email_file:" content) as [g1|]; [| by repeat split].
  destruct (search_field "from:" content) as [g2|]; [| by repeat split].
  destruct (match search_with fenced_reply_at content with
            | Some g => Some g
            | None => search_with plain_reply_at content
            end) as [g|]; [| by repeat split].
  assert (Hex : processed_plans (snd (_get_email_sender ex w)) = processed_plans ex).
  { unfold _get_email_sender.
    destruct (email_sender ex); [reflexivity |].
    destruct (sender_loadable w); reflexivity. }
  destruct (_get_email_sender ex w) as [available ex1]. cbn [snd] in Hex.
  destruct available; cbn [negb]; [| by repeat split].
  match goal with
  | |- context [send_email ?r ?s ?b w] =>
      pose proof (send_email_keeps_folders r s b w) as Hsend;
      destruct (send_email r s b w) as [success w1]
  end.
  cbn [snd] in Hsend. pose proof (Hsend Approved) as Happ. cbn [folder] in Happ.
  destruct success; cbn [fst snd].
  - split; [| split; [discriminate | exact Hex]].
    etransitivity; [apply approved_after_inbox |].
    etransitivity; [apply approved_after_done |].
    rewrite Happ. reflexivity.
  - split; [| split; [intros _; exact Hsend | exact Hex]].
    rewrite Happ. reflexivity.
Qed.

(** What the body of the loop keeps: the set only grows and holds the
    id afterwards, Approved only shrinks, and the count only grows and
    stands still only when Approved does. *)
Lemma execute_one_keeps now st plan_name :
  let st' := execute_one now st plan_name in
  stem plan_name ∈ processed_plans (executor st') /\
  processed_plans (executor st) ⊆ processed_plans (executor st') /\
  approved (world st') ⊆ approved (world st) /\
  executed_count st <= executed_count st' /\
  (executed_count st' = executed_count st -> approved (world st') = approved (world st)).
Proof.
  cbv zeta. unfold execute_one.
  destruct (decide (stem plan_name ∈ processed_plans (executor st))) as [Hin | Hnew].
  - split; [exact Hin |]. split; [reflexivity |]. split; [reflexivity |].
    split; [lia | reflexivity].
  - pose proof (execute_plan_approved now plan_name (stem plan_name)
                  (executor st) (world st)) as (Hsub & Hfail & Hex).
    destruct (_execute_plan now plan_name (stem plan_name) (executor st) (world st))
      as [[success ex1] w1].
    cbn [fst snd] in *. cbn [executor world executed_count processed_plans].
    rewrite Hex. split; [apply elem_of_union_l, elem_of_singleton; reflexivity |].
    split; [apply union_subseteq_r |]. split; [exact Hsub |].
    destruct success.
    + split; [lia | intros; lia].
    + split; [lia |]. intros _. exact (Hfail eq_refl Approved).
Qed.

Lemma execute_one_skip now st plan_name :
  stem plan_name ∈ processed_plans (executor st) -> execute_one now st plan_name = st.
Proof. intros Hin. unfold execute_one. now rewrite decide_True. Qed.

Lemma execute_loop_keeps now files st :
  let st' := fold_left (execute_one now) files st in
  (forall name, In name files -> stem name ∈ processed_plans (executor st')) /\
  processed_plans (executor st) ⊆ processed_plans (executor st') /\
  approved (world st') ⊆ approved (world st) /\
  executed_count st <= executed_count st' /\
  (executed_count st' = executed_count st -> approved (world st') = approved (world st)).
Proof.
  cbv zeta. revert st. induction files as [|f files IH]; intros st.
  - cbn [fold_left]. split; [intros name [] |]. split; [reflexivity |].
    split; [reflexivity |]. split; [lia | reflexivity].
  - cbn [fold_left].
    destruct (execute_one_keeps now st f) as (Hf & Hsub & Happ & Hle & Heq).
    destruct (IH (execute_one now st f)) as (IHin & IHsub & IHapp & IHle & IHeq).
    split; [| split; [| split; [| split]]].
    + intros name [<- | Hin]; [exact (IHsub _ Hf) | exact (IHin name Hin)].
    + etransitivity; eassumption.
    + etransitivity; eassumption.
    + lia.
    + intros Hc. rewrite IHeq by lia. apply Heq. lia.
Qed.

Lemma execute_loop_all_processed now files st :
  (forall name, In name files -> stem name ∈ processed_plans (executor st)) ->
  fold_left (execute_one now) files st = st.
Proof.
  induction files as [|f files IH]; intros Hall; [reflexivity |].
  cbn [fold_left]. rewrite execute_one_skip by (apply Hall; now left).
  apply IH. intros name Hin. apply Hall. now right.
Qed.

(** A listed plan file is a file of Approved. *)
Lemma plan_files_shrink w w' name :
  approved w' ⊆ approved w -> In name (plan_files w') -> In name (plan_files w).
Proof.
  intros Hsub. unfold plan_files, glob. rewrite !List.filter_In.
  intros [Hin Hm]. split; [| exact Hm].
  apply List.in_map_iff in Hin as [[k c] [Hk Hin]]. cbn in Hk. subst k.
  apply List.in_map_iff. exists (name, c). split; [reflexivity |].
  apply list_elem_of_In, elem_of_map_to_list.
  apply list_elem_of_In, elem_of_map_to_list in Hin.
  exact (lookup_weaken _ _ _ _ Hin Hsub).
Qed.

Lemma approved_after_save ex w : approved (_save_processed_plans ex w) = approved w.
Proof. reflexivity. Qed.

(** C1, as the code has it.  check_and_execute puts the id of every
    plan file it finds in Approved into the executor's processed set,
    whether the plan was executed, was malformed or its send failed; a
    plan whose execution fails stays in Approved and is not counted;
    the set never loses an id; and a second call by the same executor
    finds every listed plan in the set and does nothing, so a failed
    send is not tried again. *)
Theorem approved_plans_marked_processed (now now2 : Clock)
    (ex : ApprovedPlanExecutor) (w : World) :
  let first := check_and_execute now ex w in
  let ex1 := snd (fst first) in
  let w1 := snd first in
  (forall name, In name (plan_files w) -> stem name ∈ processed_plans ex1) /\
  processed_plans ex ⊆ processed_plans ex1 /\
  (fst (fst first) = 0 -> approved w1 = approved w) /\
  check_and_execute now2 ex1 w1 = (0, ex1, w1) /\
  (forall st name,
      stem name ∉ processed_plans (executor st) ->
      fst (fst (_execute_plan now name (stem name) (executor st) (world st))) = false ->
      let st' := execute_one now st name in
      stem name ∈ processed_plans (executor st') /\
      approved (world st') = approved (world st) /\
      executed_count st' = executed_count st).
Proof.
  intros first ex1 w1.
  destruct (execute_loop_keeps now (plan_files w) (mkLoop ex w 0))
    as (Hin & Hsub & Happ & Hle & Heq).
  set (st1 := fold_left (execute_one now) (plan_files w) (mkLoop ex w 0)) in *.
  assert (Hex1 : ex1 = executor st1) by reflexivity.
  assert (Hw1 : approved w1 = approved (world st1)).
  { subst w1 first. unfold check_and_execute. fold st1. cbn [snd].
    destruct (0 <? executed_count st1); reflexivity. }
  assert (Hc1 : fst (fst first) = executed_count st1) by reflexivity.
  cbn [executor world executed_count] in *.
  split; [rewrite Hex1; exact Hin |].
  split; [rewrite Hex1; exact Hsub |].
  split; [intros H0; rewrite Hw1; apply Heq; congruence |].
  split.
  - unfold check_and_execute at 1.
    rewrite execute_loop_all_processed.
    + reflexivity.
    + intros name Hn. cbn [executor]. rewrite Hex1. apply Hin.
      apply (plan_files_shrink w w1); [rewrite Hw1; exact Happ | exact Hn].
  - intros st name Hnew Hfail. cbv zeta. unfold execute_one.
    rewrite decide_False by exact Hnew.
    destruct (execute_plan_approved now name (stem name) (executor st) (world st))
      as (_ & Hkeep & _).
    specialize (Hkeep Hfail Approved).
    destruct (_execute_plan now name (stem name) (executor st) (world st))
      as [[success ex2] w2].
    cbn [fst snd] in *. subst success.
    cbn [executor world executed_count processed_plans].
    split; [set_solver | split; [exact Hkeep | reflexivity]].
Qed.

Lemma approved_plans_marked_processed_witness :
  let first := check_and_execute noon (fresh_executor approved_world) approved_world in
  stem "PLAN_20260109_120000_Hello.md" ∈ processed_plans (snd (fst first)) /\
  approved (snd first) = approved approved_world /\
  check_and_execute later (snd (fst first)) (snd first)
  = (0, snd (fst first), snd first).
Proof.
  cbv zeta.
  destruct (approved_plans_marked_processed noon later
              (fresh_executor approved_world) approved_world)
    as (Hin & _ & Hkeep & Hsecond & _).
  split; [| split].
  - apply Hin. vm_compute. left. reflexivity.
  - apply Hkeep. vm_compute. reflexivity.
  - exact Hsecond.
Defined.

(** C1 as the specification states it fails: the plan is well formed,
    the send capability refuses the message, the plan stays in
    Approved, and its id is in the processed set all the same; the
    next call, for which the capability would accept the message,
    sends nothing. *)
Lemma failed_send_counterexample :
  let first := check_and_execute noon (fresh_executor approved_world) approved_world in
  let second := check_and_execute later (snd (fst first)) (snd first) in
  fst (fst first) = 0 /\
  mail_log (snd first) =
    [(mkMail "Alice <alice@example.org>" "Re: Hello"
             "Hi Alice, thank you for your message.", false)] /\
  approved (snd first) !! "PLAN_20260109_120000_Hello.md" = Some watcher_plan /\
  bool_decide ("PLAN_20260109_120000_Hello" ∈ processed_plans (snd (fst first))) = true /\
  mailer (snd first) = [true] /\
  plan_files (snd first) = ["PLAN_20260109_120000_Hello.md"] /\
  fst (fst second) = 0 /\
  mail_log (snd second) = mail_log (snd first).
Proof. vm_compute. repeat split; reflexivity. Qed.

(** C2, which the code does not meet.  [_create_review_plan] raises on
    every analysis before it writes anything, so the workflow engine
    leaves no plan (the invoice email gives an error entry, an empty
    Plans folder and an id that is not marked); and the text it builds
    holds neither a 'from:' field nor a 'Suggested Reply' section, so
    that text, approved by hand, is not executed: nothing is sent,
    nothing reaches Done or Inbox, and the plan is marked processed. *)
Theorem review_plan_not_executed :
  (forall p now name analysis metadata body w,
      Planner._create_review_plan p now name analysis metadata body w
      = Planner.Raise
          (Planner.AttributeError
             "'KeywordAnalysis' object has no attribute 'conversation_context'") w) /\
  (let r := Planner.plan_all_emails noon (fresh_planner invoice_world) invoice_world in
   map Planner.res_action (fst (fst r)) = ["error"] /\
   map_to_list (plans (snd r)) = [] /\
   elements (Planner.processed_cache (snd (fst r))) = [] /\
   needs_action (snd r) !! "EMAIL_invoice.md" = Some invoice_email) /\
  (search_field "email_file:" invoice_plan_text = Some "EMAIL_invoice.md" /\
   search_field "from:" invoice_plan_text = None /\
   search_with fenced_reply_at invoice_plan_text = None /\
   search_with plain_reply_at invoice_plan_text = None) /\
  (let r := check_and_execute noon (fresh_executor invoice_approved_world)
                              invoice_approved_world in
   fst (fst r) = 0 /\
   mail_log (snd r) = [] /\
   map_to_list (done (snd r)) = [] /\
   map_to_list (inbox (snd r)) = [] /\
   map fst (map_to_list (approved (snd r))) = ["PLAN_20260109_120000_EMAIL_invoice.md"] /\
   elements (processed_plans (snd (fst r))) = ["PLAN_20260109_120000_EMAIL_invoice"]).
Proof.
  split; [reflexivity |]. vm_compute. repeat split; reflexivity.
Qed.

End ExecutorFacts.

(** * Further properties of the classification engine *)

Module AnalyzerMore.
Import PyStr Analyzer.

Lemma fold_max_bounds (hits : list (string * Z)) (m0 : Z) :
  (forall kw, In kw hits -> 0 <= snd kw <= 5) -> 0 <= m0 <= 5 ->
  0 <= fold_left (fun m kw => if m <? snd kw then snd kw else m) hits m0 <= 5.
Proof.
  revert m0. induction hits as [|kw hits IH]; intros m0 Hall Hm; [exact Hm |].
  cbn [fold_left]. apply IH.
  - intros k Hk. apply Hall. now right.
  - pose proof (Hall kw (or_introl eq_refl)). destruct (m0 <? snd kw); lia.
Qed.

Lemma priority_weights_bounded kw : In kw PRIORITY_KEYWORDS -> 0 <= snd kw <= 5.
Proof.
  unfold PRIORITY_KEYWORDS. cbn [In].
  intros H. repeat (destruct H as [<- | H]; [cbn; lia |]). destruct H.
Qed.

Lemma label_of_score score :
  1 <= score <= 5 ->
  In (priority_label_of score) ["urgent"; "high"; "medium"; "normal"; "low"] /\
  (priority_label_of score = "urgent" <-> score = 5) /\
  (priority_label_of score = "low" <-> score = 1).
Proof.
  intros Hs.
  assert (Hc : score = 1 \/ score = 2 \/ score = 3 \/ score = 4 \/ score = 5) by lia.
  destruct Hc as [-> | [-> | [-> | [-> | ->]]]]; cbn;
    (split; [tauto | split; split; (discriminate || lia || reflexivity)]).
Qed.

(** X1.  Whatever the message and the custom keywords are, the priority
    is a number from 1 to 5 and the label is the one of that number, one
    of the five names; it is 'urgent' exactly for 5 and 'low' exactly
    for 1. *)
Theorem priority_in_range {M : Type} (self : KeywordAnalyzer)
    (sender subject body : string) (history : option (list M)) :
  let a := analyze self sender subject body history in
  1 <= priority a <= 5 /\
  priority_label a = priority_label_of (priority a) /\
  In (priority_label a) ["urgent"; "high"; "medium"; "normal"; "low"] /\
  (priority_label a = "urgent" <-> priority a = 5) /\
  (priority_label a = "low" <-> priority a = 1).
Proof.
  cbv zeta. unfold analyze. cbn [priority priority_label].
  set (text := combined_text subject body).
  assert (Hp : 1 <= p_score (_calculate_priority self text) <= 5 /\
               p_label (_calculate_priority self text)
               = priority_label_of (p_score (_calculate_priority self text))).
  { unfold _calculate_priority. cbn [p_score p_label]. split; [| reflexivity].
    set (hits := List.filter (fun kw => contains (fst kw) text) PRIORITY_KEYWORDS).
    assert (Hm : 0 <= fold_left (fun m kw => if m <? snd kw then snd kw else m) hits 0 <= 5).
    { apply fold_max_bounds; [| lia]. intros kw Hk. apply priority_weights_bounded.
      subst hits. apply List.filter_In in Hk. tauto. }
    set (m := fold_left _ hits 0) in *.
    destruct (List.filter (fun kw => contains kw text) (company_keywords self));
      destruct (any_in _ text); try destruct (m <? 3); lia. }
  destruct Hp as [Hr Hl]. split; [exact Hr |]. split; [exact Hl |].
  rewrite Hl. apply label_of_score. exact Hr.
Qed.

Lemma fold_sum_nonneg (hits : list (string * Z)) (acc : Z) :
  (forall kw, In kw hits -> 0 <= snd kw) -> 0 <= acc ->
  0 <= fold_left (fun a kw => a + snd kw) hits acc.
Proof.
  revert acc. induction hits as [|kw hits IH]; intros acc Hall Ha; [exact Ha |].
  cbn [fold_left]. apply IH.
  - intros k Hk. apply Hall. now right.
  - pose proof (Hall kw (or_introl eq_refl)). lia.
Qed.

Lemma risk_weights_nonneg kw : In kw RISK_KEYWORDS -> 0 <= snd kw.
Proof.
  unfold RISK_KEYWORDS. cbn [In].
  intros H. repeat (destruct H as [<- | H]; [cbn; lia |]). destruct H.
Qed.

(** The sum [_assess_risk] forms before it caps the score. *)
Lemma risk_total_bounds text :
  exists total,
    0 <= total /\
    15 * Z.of_nat (length (List.filter (fun t => contains t text) BUSINESS_CRITICAL))
    <= total /\
    r_score (_assess_risk text) = Z.min 100 total /\
    r_level (_assess_risk text) =
      (if 75 <=? total then "critical"
       else if 50 <=? total then "high"
       else if 25 <=? total then "medium"
       else if 10 <=? total then "low"
       else "safe").
Proof.
  unfold _assess_risk. cbn [r_score r_level].
  set (khits := List.filter (fun kw => contains (fst kw) text) RISK_KEYWORDS).
  set (bhits := List.filter (fun t => contains t text) BUSINESS_CRITICAL).
  assert (Hk : 0 <= fold_left (fun acc kw => acc + snd kw) khits 0).
  { apply fold_sum_nonneg; [| lia]. intros kw Hin. apply risk_weights_nonneg.
    subst khits. apply List.filter_In in Hin. tauto. }
  eexists. split; [| split; [| split; reflexivity]]; lia.
Qed.

(** X2.  The risk score is a number from 0 to 100, and the risk level is
    the one the thresholds give for the reported score: critical from
    75, high from 50, medium from 25, low from 10 and safe below. *)
Theorem risk_score_and_level {M : Type} (self : KeywordAnalyzer)
    (sender subject body : string) (history : option (list M)) :
  let a := analyze self sender subject body history in
  0 <= risk_score a <= 100 /\
  risk_level a =
    (if 75 <=? risk_score a then "critical"
     else if 50 <=? risk_score a then "high"
     else if 25 <=? risk_score a then "medium"
     else if 10 <=? risk_score a then "low"
     else "safe").
Proof.
  cbv zeta. unfold analyze. cbn [risk_score risk_level].
  destruct (risk_total_bounds (combined_text subject body))
    as (total & H0 & _ & -> & ->).
  split; [lia |].
  destruct (Z.min_spec 100 total) as [[Hlt ->] | [Hge ->]].
  - replace (75 <=? total) with true by (symmetry; apply Z.leb_le; lia). reflexivity.
  - reflexivity.
Qed.

(** A business-critical term in the text adds 15 to the sum. *)
Lemma business_term_counts text term :
  In term BUSINESS_CRITICAL -> contains term text = true ->
  (1 <= length (List.filter (fun t => contains t text) BUSINESS_CRITICAL))%nat.
Proof.
  intros Hin Hc.
  assert (Hx : In term (List.filter (fun t => contains t text) BUSINESS_CRITICAL))
    by (apply List.filter_In; split; assumption).
  destruct (List.filter (fun t => contains t text) BUSINESS_CRITICAL);
    [destruct Hx | cbn; lia].
Qed.

(** X3.  A text that holds a business-critical term never counts as
    safe: its risk score is at least 15 and its risk level is one of
    low, medium, high and critical. *)
Theorem business_term_is_never_safe {M : Type} (self : KeywordAnalyzer)
    (sender subject body : string) (history : option (list M)) (term : string) :
  In term BUSINESS_CRITICAL ->
  contains term (combined_text subject body) = true ->
  let a := analyze self sender subject body history in
  15 <= risk_score a /\ risk_level a <> "safe" /\
  In (risk_level a) ["low"; "medium"; "high"; "critical"].
Proof.
  intros Hin Hc. cbv zeta. unfold analyze. cbn [risk_score risk_level].
  destruct (risk_total_bounds (combined_text subject body))
    as (total & H0 & Hb & -> & ->).
  pose proof (business_term_counts _ _ Hin Hc) as H1.
  assert (Ht : 15 <= total) by lia.
  split; [lia |].
  destruct (75 <=? total); [cbn; split; [discriminate | tauto] |].
  destruct (50 <=? total); [cbn; split; [discriminate | tauto] |].
  destruct (25 <=? total); [cbn; split; [discriminate | tauto] |].
  replace (10 <=? total) with true by (symmetry; apply Z.leb_le; lia).
  cbn. split; [discriminate | tauto].
Qed.

Lemma business_term_is_never_safe_witness :
  risk_level (@analyze unit (mkAnalyzer []) "Bob <bob@example.org>" ""
                       "thanks for the file" None) <> "safe".
Proof.
  apply (@business_term_is_never_safe unit (mkAnalyzer []) "Bob <bob@example.org>" ""
           "thanks for the file" None "file").
  - vm_compute. tauto.
  - vm_compute. reflexivity.
Defined.

(** X4.  An auto-approved message is always a low-risk one: its risk
    score is below 25, no business-critical term occurs in its text, it
    has at most two action items and its thread has at most three
    earlier messages. *)
Theorem auto_approve_is_guarded {M : Type} (self : KeywordAnalyzer)
    (sender subject body : string) (history : option (list M)) :
  let a := analyze self sender subject body history in
  auto_approve a = true ->
  risk_score a < 25 /\ business_terms a = [] /\
  (length (action_items a) <= 2)%nat /\ long_thread history = false /\
  (forall term, In term BUSINESS_CRITICAL ->
                contains term (combined_text subject body) = false).
Proof.
  cbv zeta. unfold analyze. cbn [auto_approve risk_score business_terms action_items].
  set (text := combined_text subject body).
  unfold _determine_approval.
  destruct (50 <=? r_score (_assess_risk text)) eqn:E50; [discriminate |].
  destruct (_extract_business_terms text) as [|t ts] eqn:Et; [| discriminate].
  cbn [negb].
  destruct (2 <? length (_extract_action_items text))%nat eqn:E2; [discriminate |].
  assert (Hterms : forall term, In term BUSINESS_CRITICAL -> contains term text = false).
  { intros term Hin. destruct (contains term text) eqn:Ec; [| reflexivity].
    exfalso. exact (AnalyzerFacts.business_terms_found text term Hin Ec Et). }
  apply Nat.ltb_ge in E2.
  destruct history as [h|]; cbn [long_thread].
  - destruct h as [|x h]; cbn [negb andb].
    + destruct (any_in SAFE_PATTERNS text && (r_score (_assess_risk text) <? 25)) eqn:Es.
      * apply andb_true_iff in Es as [_ Es]. apply Z.ltb_lt in Es. intros _.
        repeat split; auto.
      * destruct ((length (_extract_action_items text) <=? 1)%nat
                  && (r_score (_assess_risk text) <? 25)) eqn:El; [| discriminate].
        apply andb_true_iff in El as [_ El]. apply Z.ltb_lt in El. intros _.
        repeat split; auto.
    + destruct (3 <? length (x :: h))%nat eqn:E3; [discriminate |].
      destruct (any_in SAFE_PATTERNS text && (r_score (_assess_risk text) <? 25)) eqn:Es.
      * apply andb_true_iff in Es as [_ Es]. apply Z.ltb_lt in Es. intros _.
        repeat split; auto.
      * destruct ((length (_extract_action_items text) <=? 1)%nat
                  && (r_score (_assess_risk text) <? 25)) eqn:El; [| discriminate].
        apply andb_true_iff in El as [_ El]. apply Z.ltb_lt in El. intros _.
        repeat split; auto.
  - destruct (any_in SAFE_PATTERNS text && (r_score (_assess_risk text) <? 25)) eqn:Es.
    + apply andb_true_iff in Es as [_ Es]. apply Z.ltb_lt in Es. intros _.
      repeat split; auto.
    + destruct ((length (_extract_action_items text) <=? 1)%nat
                && (r_score (_assess_risk text) <? 25)) eqn:El; [| discriminate].
      apply andb_true_iff in El as [_ El]. apply Z.ltb_lt in El. intros _.
      repeat split; auto.
Qed.

Lemma auto_approve_is_guarded_witness :
  risk_score (@analyze unit (mkAnalyzer []) "Alice <alice@example.org>" "Hello"
                       "Thanks, got it! Any questions?" None) < 25.
Proof.
  apply (@auto_approve_is_guarded unit (mkAnalyzer []) "Alice <alice@example.org>"
           "Hello" "Thanks, got it! Any questions?" None).
  vm_compute. reflexivity.
Defined.

Lemma in_dedupe (l : list string) (x : string) : In x (dedupe l) -> In x l.
Proof.
  revert x. induction l as [|y r IH]; intros x; cbn [dedupe]; [tauto |].
  intros [<- | Hin]; [now left |].
  apply List.filter_In in Hin as [Hin _]. right. exact (IH x Hin).
Qed.

Lemma nodup_dedupe (l : list string) : List.NoDup (dedupe l).
Proof.
  induction l as [|y r IH]; cbn [dedupe]; [constructor |].
  constructor.
  - intros Hin. apply List.filter_In in Hin as [_ Hne].
    rewrite String.eqb_refl in Hne. discriminate.
  - apply List.NoDup_filter. exact IH.
Qed.

Lemma in_firstn {A : Type} (n : nat) (l : list A) (x : A) : In x (firstn n l) -> In x l.
Proof.
  revert n. induction l as [|y r IH]; intros n; destruct n; cbn; try tauto.
  intros [<- | Hin]; [now left | right; exact (IH n Hin)].
Qed.

Lemma nodup_firstn {A : Type} (n : nat) (l : list A) :
  List.NoDup l -> List.NoDup (firstn n l).
Proof.
  revert n. induction l as [|x r IH]; intros n Hnd; destruct n; cbn; try constructor.
  - inversion Hnd as [|? ? Hx Hr]; subst. intros Hin. apply Hx.
    exact (in_firstn _ _ _ Hin).
  - inversion Hnd; subst. apply IH. assumption.
Qed.

(** X5.  The classifier reports at most five action items, all
    different, and each of them longer than five characters. *)
Theorem action_items_bounded (text : string) :
  (length (_extract_action_items text) <= 5)%nat /\
  List.NoDup (_extract_action_items text) /\
  Forall (fun item => (5 < String.length item)%nat) (_extract_action_items text).
Proof.
  unfold _extract_action_items.
  set (from_patterns := concat _). set (from_sentences := List.filter _ _).
  split; [apply List.firstn_le_length |]. split.
  - apply nodup_firstn, nodup_dedupe.
  - apply List.Forall_forall. intros item Hin.
    apply in_firstn, in_dedupe, List.in_app_or in Hin. destruct Hin as [Hp | Hs].
    + subst from_patterns. apply List.in_concat in Hp as (items & Hitems & Hin).
      apply List.in_map_iff in Hitems as (heads & <- & _).
      apply List.filter_In in Hin as [_ Hlen]. apply Nat.ltb_lt in Hlen. exact Hlen.
    + subst from_sentences. apply List.filter_In in Hs as [_ Hlen].
      apply Nat.ltb_lt in Hlen. lia.
Qed.

Lemma category_reply_greets sender_name category r :
  assoc_get category (category_replies sender_name) = Some r ->
  startswith "Hi " r = true.
Proof.
  unfold category_replies. cbn [assoc_get].
  repeat (destruct (String.eqb category _); [intros [= <-]; reflexivity |]).
  discriminate.
Qed.

(** X6.  The analysis carries a suggested reply exactly when a reply is
    needed: none when needs_reply is false, and otherwise a text that
    opens with the greeting 'Hi ', so it is never empty. *)
Theorem reply_iff_needed {M : Type} (self : KeywordAnalyzer)
    (sender subject body : string) (history : option (list M)) :
  let a := analyze self sender subject body history in
  (needs_reply a = false -> suggested_reply a = None) /\
  (needs_reply a = true ->
   exists r, suggested_reply a = Some r /\ startswith "Hi " r = true /\ r <> "").
Proof.
  cbv zeta. unfold analyze. cbn [needs_reply suggested_reply].
  set (text := combined_text subject body).
  set (items := _extract_action_items text).
  unfold _generate_reply. split.
  - intros ->. reflexivity.
  - intros ->. cbn [negb].
    set (sender_name := match capitalize _ with EmptyString => "there" | n => n end).
    assert (Hne : forall r, startswith "Hi " r = true -> r <> "")
      by (intros r Hr ->; discriminate).
    destruct (any_in SAFE_PATTERNS _).
    + eexists. split; [reflexivity |]. split; [reflexivity | now apply Hne].
    + destruct (assoc_get _ (category_replies sender_name)) as [r|] eqn:Er.
      * exists r. pose proof (category_reply_greets _ _ _ Er). auto.
      * eexists. split; [reflexivity |]. split; [reflexivity | now apply Hne].
Qed.

Lemma reply_iff_needed_witness :
  suggested_reply (@analyze unit (mkAnalyzer []) "Alice <alice@example.org>" ""
                            "Thanks, got it!" None) = None.
Proof.
  apply (proj1 (@reply_iff_needed unit (mkAnalyzer []) "Alice <alice@example.org>" ""
                  "Thanks, got it!" None)).
  vm_compute. reflexivity.
Defined.

End AnalyzerMore.

(** * Further properties of the health supervisor *)

Module HealthMore.
Import Health Report HealthFacts.

Lemma count_status_fold (ws : list (string * WatcherHealth)) (acc : Summary) :
  let r := fold_left (fun a kh => count_status (status (snd kh)) a) ws acc in
  total r = total acc /\
  healthy r = healthy acc + with_status HEALTHY ws /\
  degraded r = degraded acc + with_status DEGRADED ws /\
  failed r = failed acc + with_status FAILED ws /\
  recovering r = recovering acc + with_status RECOVERING ws.
Proof.
  cbv zeta. revert acc. induction ws as [|[k h] ws IH]; intros acc.
  - unfold with_status. cbn. repeat split; lia.
  - cbn [fold_left]. destruct (IH (count_status (status (snd (k, h))) acc))
      as (Ht & Hh & Hd & Hf & Hr).
    rewrite Ht, Hh, Hd, Hf, Hr. unfold with_status. cbn [List.filter snd].
    destruct (status h); cbn; repeat split; lia.
Qed.

Lemma statuses_partition (ws : list (string * WatcherHealth)) :
  with_status HEALTHY ws + with_status DEGRADED ws + with_status FAILED ws
  + with_status RECOVERING ws = Z.of_nat (length ws).
Proof.
  unfold with_status. induction ws as [|[k h] ws IH]; [reflexivity |].
  cbn [List.filter snd]. destruct (status h);
    repeat match goal with
           | |- context [String.eqb ?a ?b] =>
               let v := eval vm_compute in (String.eqb a b) in
               change (String.eqb a b) with v
           end;
    cbn [length]; lia.
Qed.

(** X7.  In the health report the total is the number of registered
    watchers, each of the four counts is the number of watchers with that
    status, the four counts add up to the total, and the entries come in
    the order of the watchers, one for each. *)
Theorem health_report_summary (m : FailureManager) :
  let r := get_health_report m in
  total (snd r) = Z.of_nat (length (watchers m)) /\
  healthy (snd r) = with_status HEALTHY (watchers m) /\
  degraded (snd r) = with_status DEGRADED (watchers m) /\
  failed (snd r) = with_status FAILED (watchers m) /\
  recovering (snd r) = with_status RECOVERING (watchers m) /\
  healthy (snd r) + degraded (snd r) + failed (snd r) + recovering (snd r)
  = total (snd r) /\
  map fst (fst r) = map fst (watchers m).
Proof.
  cbv zeta. unfold get_health_report. cbn [fst snd].
  destruct (count_status_fold (watchers m)
              (mkSummary (Z.of_nat (length (watchers m))) 0 0 0 0))
    as (Ht & Hh & Hd & Hf & Hr).
  cbv zeta in Ht, Hh, Hd, Hf, Hr. cbn [total healthy degraded failed recovering] in *.
  rewrite Ht, Hh, Hd, Hf, Hr.
  pose proof (statuses_partition (watchers m)).
  repeat split; try lia.
  rewrite List.map_map. reflexivity.
Qed.

Lemma lookup_store_ne n k h ws :
  k <> n -> lookup_watcher k (store_watcher n h ws) = lookup_watcher k ws.
Proof.
  intros Hne. induction ws as [|[j hj] ws IH]; cbn.
  - destruct (String.eqb k n) eqn:E; [apply String.eqb_eq in E; contradiction | reflexivity].
  - destruct (String.eqb n j) eqn:Enj; cbn.
    + apply String.eqb_eq in Enj. subst j.
      destruct (String.eqb k n) eqn:E; [apply String.eqb_eq in E; contradiction | reflexivity].
    + destruct (String.eqb k j); [reflexivity | exact IH].
Qed.

Lemma attempt_restart_grows now n h :
  restart_attempts h <= restart_attempts (fst (_attempt_restart now n h)) /\
  max_restart_attempts (fst (_attempt_restart now n h)) = max_restart_attempts h.
Proof.
  unfold _attempt_restart.
  destruct (max_restart_attempts h <=? restart_attempts h); cbn; lia.
Qed.

Lemma check_watcher_grows now interval threshold n h :
  restart_attempts h <= restart_attempts (fst (check_watcher now interval threshold n h)) /\
  max_restart_attempts (fst (check_watcher now interval threshold n h))
  = max_restart_attempts h.
Proof.
  unfold check_watcher. destruct (is_stale now interval h); [| cbn; lia].
  destruct (consecutive_failures (mark_stale h) <? threshold); [| cbn; lia].
  pose proof (attempt_restart_grows now n (mark_stale h)) as H.
  destruct (_attempt_restart now n (mark_stale h)) as [h2 e]. exact H.
Qed.

Lemma step_keeps_attempts m c n h :
  keeps_registration n c ->
  lookup_watcher n (watchers m) = Some h ->
  exists h', lookup_watcher n (watchers (step m c)) = Some h' /\
             restart_attempts h <= restart_attempts h' /\
             max_restart_attempts h' = max_restart_attempts h /\
             (match snd c with
              | Heartbeat _ _ _ => restart_attempts h' = restart_attempts h
              | _ => True
              end).
Proof.
  intros Hkeep Hl. destruct c as [now [k | k is_healthy error |]];
    cbn [step snd keeps_registration] in *.
  - exists h. unfold register_watcher. cbn [watchers].
    rewrite lookup_store_ne by congruence. split; [exact Hl |]. split; [lia | auto].
  - unfold update_heartbeat.
    destruct (lookup_watcher k (watchers m)) as [hk|] eqn:Hk.
    + destruct (String.eqb k n) eqn:E.
      * apply String.eqb_eq in E. subst k. rewrite Hl in Hk. injection Hk as <-.
        unfold heartbeat. destruct is_healthy; cbn [apply_effects watchers];
          eexists; (split; [apply lookup_store_eq |]); cbn; repeat split; lia.
      * apply String.eqb_neq in E.
        destruct (heartbeat now (alert_threshold m) k is_healthy error hk) as [h' e].
        cbn [apply_effects watchers]. exists h.
        rewrite lookup_store_ne by congruence. split; [exact Hl |]. repeat split; lia.
    + exists h. split; [exact Hl |]. repeat split; lia.
  - exists (fst (check_watcher now (health_check_interval m) (alert_threshold m) n h)).
    rewrite watchers_of_check_all, lookup_check_each, Hl. cbn [option_map].
    pose proof (check_watcher_grows now (health_check_interval m) (alert_threshold m) n h).
    split; [reflexivity |]. repeat split; lia.
Qed.

(** X8.  The restart counter of a registered worker is never reset
    silently: over any sequence of heartbeats, healthy or not, periodic
    checks and registrations of other workers it never decreases and the
    maximum stays as it is; only registering the worker again puts the
    counter back to zero. *)
Theorem restart_attempts_never_reset (m : FailureManager) (calls : list (Z * Call))
    (n : string) (h : WatcherHealth) :
  lookup_watcher n (watchers m) = Some h ->
  Forall (keeps_registration n) calls ->
  (exists h', lookup_watcher n (watchers (run calls m)) = Some h' /\
              restart_attempts h <= restart_attempts h' /\
              max_restart_attempts h' = max_restart_attempts h) /\
  (forall now,
      option_map restart_attempts
        (lookup_watcher n (watchers (register_watcher now n (run calls m)))) = Some 0).
Proof.
  intros Hl Hall. split.
  - revert m h Hl. induction Hall as [|c calls Hc Hcs IH]; intros m h Hl.
    + exists h. split; [exact Hl |]. split; [lia | reflexivity].
    + rewrite run_cons.
      destruct (step_keeps_attempts m c n h Hc Hl) as (h1 & Hl1 & Hle & Hmax & _).
      destruct (IH _ _ Hl1) as (h2 & Hl2 & Hle2 & Hmax2).
      exists h2. split; [exact Hl2 |]. split; [lia | congruence].
  - intros now. unfold register_watcher. cbn [watchers].
    rewrite lookup_store_eq. reflexivity.
Qed.

Lemma restart_attempts_never_reset_witness :
  option_map restart_attempts
    (lookup_watcher "GmailWatcher"
       (watchers (run [(91000000, CheckAll); (92000000, Heartbeat "GmailWatcher" true None)]
                      sample_manager))) = Some 1.
Proof.
  destruct (restart_attempts_never_reset sample_manager
              [(91000000, CheckAll); (92000000, Heartbeat "GmailWatcher" true None)]
              "GmailWatcher" (fresh_health 0 "GmailWatcher" 3)) as [_ _].
  - reflexivity.
  - repeat constructor.
  - vm_compute. reflexivity.
Defined.

Lemma heartbeat_consistent now threshold n is_healthy error h :
  status_consistent h -> status_consistent (fst (heartbeat now threshold n is_healthy error h)).
Proof.
  unfold status_consistent, heartbeat. intros (H0 & Hh & Hr & Hd).
  destruct is_healthy; cbn.
  - repeat split; auto; try lia; discriminate.
  - destruct (3 <=? consecutive_failures h + 1) eqn:E3;
      [apply Z.leb_le in E3 | apply Z.leb_gt in E3].
    + repeat split; try lia; try discriminate.
    + replace (1 <=? consecutive_failures h + 1) with true
        by (symmetry; apply Z.leb_le; lia).
      repeat split; try lia; try discriminate.
Qed.

Lemma check_watcher_consistent now interval threshold n h :
  status_consistent h -> status_consistent (fst (check_watcher now interval threshold n h)).
Proof.
  unfold status_consistent, check_watcher. intros (H0 & Hh & Hr & Hd).
  destruct (is_stale now interval h); [| cbn; tauto].
  destruct (consecutive_failures (mark_stale h) <? threshold).
  - unfold _attempt_restart.
    destruct (max_restart_attempts (mark_stale h) <=? restart_attempts (mark_stale h));
      cbn; repeat split; try lia; try discriminate.
  - cbn. repeat split; try lia; try discriminate.
Qed.

(** X9.  In every state the supervisor reaches, the status of a worker
    and its count of consecutive failures agree: the count is never
    negative, it is zero exactly when the status is HEALTHY, a HEALTHY
    worker is marked running, and a DEGRADED worker has one or two
    consecutive failures. *)
Theorem status_matches_failures (interval maximum threshold : Z)
    (calls : list (Z * Call)) (n : string) (h : WatcherHealth) :
  lookup_watcher n
    (watchers (run calls (FailureManager_init interval maximum threshold))) = Some h ->
  0 <= consecutive_failures h /\
  (status h = HEALTHY <-> consecutive_failures h = 0) /\
  (status h = HEALTHY -> is_running h = true) /\
  (status h = DEGRADED -> 1 <= consecutive_failures h <= 2).
Proof.
  apply (run_keeps status_consistent maximum).
  - intros now k. unfold status_consistent. cbn. repeat split; try lia; discriminate.
  - exact heartbeat_consistent.
  - exact check_watcher_consistent.
Qed.

Lemma status_matches_failures_witness :
  exists h,
    lookup_watcher "GmailWatcher"
      (watchers (run [(0, Register "GmailWatcher");
                      (1000000, Heartbeat "GmailWatcher" false None)]
                     (FailureManager_init 30 3 5))) = Some h /\
    status h = DEGRADED /\ 1 <= consecutive_failures h <= 2.
Proof.
  eexists. split; [vm_compute; reflexivity |]. split; [reflexivity |].
  refine (proj2 (proj2 (proj2 (status_matches_failures 30 3 5
            [(0, Register "GmailWatcher"); (1000000, Heartbeat "GmailWatcher" false None)]
            "GmailWatcher" _ _))) _).
  - vm_compute. reflexivity.
  - reflexivity.
Defined.

Lemma check_watcher_twice now interval threshold n h :
  check_watcher now interval threshold n (fst (check_watcher now interval threshold n h))
  = (fst (check_watcher now interval threshold n h), no_effects).
Proof.
  unfold check_watcher at 2 3. destruct (is_stale now interval h) eqn:Es.
  - assert (Hnot : forall h2, is_running h2 = false ->
               check_watcher now interval threshold n h2 = (h2, no_effects)).
    { intros h2 Hr. unfold check_watcher, is_stale. rewrite Hr.
      destruct (last_heartbeat h2); [rewrite andb_false_r |]; reflexivity. }
    destruct (consecutive_failures (mark_stale h) <? threshold).
    + unfold _attempt_restart.
      destruct (max_restart_attempts (mark_stale h) <=? restart_attempts (mark_stale h));
        cbn [fst]; apply Hnot; reflexivity.
    + cbn [fst]. apply Hnot. reflexivity.
  - cbn [fst]. unfold check_watcher. rewrite Es. reflexivity.
Qed.

Lemma check_each_twice now interval threshold ws :
  check_each now interval threshold (fst (check_each now interval threshold ws))
  = (fst (check_each now interval threshold ws), no_effects).
Proof.
  induction ws as [|[k h] ws IH]; [reflexivity |].
  rewrite check_each_cons. cbn [fst]. rewrite check_each_cons.
  rewrite check_watcher_twice, IH. reflexivity.
Qed.

(** X10.  The periodic check reports a stale worker once: a second check
    at the same instant changes nothing, neither the workers nor the
    Tasks folder nor the events, because the first one has marked the
    stale workers as not running. *)
Theorem check_is_idempotent (now : Z) (m : FailureManager) :
  _check_all_watchers now (_check_all_watchers now m) = _check_all_watchers now m.
Proof.
  assert (Hi : health_check_interval (_check_all_watchers now m) = health_check_interval m)
    by (unfold _check_all_watchers;
        destruct (check_each now (health_check_interval m) (alert_threshold m) (watchers m));
        reflexivity).
  assert (Ht : alert_threshold (_check_all_watchers now m) = alert_threshold m)
    by (unfold _check_all_watchers;
        destruct (check_each now (health_check_interval m) (alert_threshold m) (watchers m));
        reflexivity).
  pose proof (check_each_twice now (health_check_interval m) (alert_threshold m)
                (watchers m)) as Htwice.
  rewrite <- watchers_of_check_all in Htwice.
  set (m1 := _check_all_watchers now m) in *.
  unfold _check_all_watchers. rewrite Hi, Ht, Htwice.
  unfold apply_effects, no_effects. cbn [new_alerts new_events fold_left].
  rewrite app_nil_r. destruct m1. reflexivity.
Qed.

End HealthMore.

(** * Properties of the document store and of the file operations *)

Module StoreMore.
Import PyStr Store VaultUpdate Ledger.

Lemma folder_set_same f m w : folder f (set_folder f m w) = m.
Proof. destruct f; reflexivity. Qed.

Lemma folder_set_other f g m w : f <> g -> folder g (set_folder f m w) = folder g w.
Proof. destruct f, g; intros H; try reflexivity; congruence. Qed.

Lemma mail_log_set_folder f m w : mail_log (set_folder f m w) = mail_log w.
Proof. destruct f; reflexivity. Qed.

Lemma mailer_set_folder f m w : mailer (set_folder f m w) = mailer w.
Proof. destruct f; reflexivity. Qed.

Lemma folder_write_same f name content w :
  folder f (write_text f name content w) = <[name := content]> (folder f w).
Proof. apply folder_set_same. Qed.

Lemma folder_write_other f g name content w :
  f <> g -> folder g (write_text f name content w) = folder g w.
Proof. apply folder_set_other. Qed.

Lemma folder_unlink_same f name w :
  folder f (unlink f name w) = delete name (folder f w).
Proof. apply folder_set_same. Qed.

Lemma folder_unlink_other f g name w :
  f <> g -> folder g (unlink f name w) = folder g w.
Proof. apply folder_set_other. Qed.

(** What [update_frontmatter] can do to the world: nothing, or rewrite
    the one file it was given, which was there. *)
Lemma update_frontmatter_shape f name updates w :
  snd (update_frontmatter f name updates w) = w \/
  exists old new, folder f w !! name = Some old /\
                  snd (update_frontmatter f name updates w) = write_text f name new w.
Proof.
  unfold update_frontmatter. destruct (folder f w !! name) as [content|]; [| now left].
  destruct (startswith "---" content).
  - destruct (cut_frontmatter content) as [[frontmatter body]|]; [| now left].
    right. eexists _, _. split; reflexivity.
  - right. eexists _, _. split; reflexivity.
Qed.

Lemma add_note_shape f name note section now w :
  snd (add_note f name note section now w) = w \/
  exists old new, folder f w !! name = Some old /\
                  snd (add_note f name note section now w) = write_text f name new w.
Proof.
  unfold add_note. destruct (folder f w !! name) as [content|]; [| now left].
  right. eexists _, _. split; reflexivity.
Qed.

(** X11.  [move_to_folder] moves a file that is there, and only it: the
    file leaves its folder and is in the target folder with the content
    it had, every other file of the two folders and every other folder
    stay as they were, and nothing is sent; a file that is not there
    gives [None] and changes nothing. *)
Theorem move_to_folder_moves (f target : Folder) (name : string) (w : World) :
  f <> target ->
  let r := move_to_folder f name target w in
  (forall content,
      folder f w !! name = Some content ->
      fst r = Some name /\
      folder f (snd r) !! name = None /\
      folder target (snd r) !! name = Some content /\
      (forall other, other <> name ->
                     folder f (snd r) !! other = folder f w !! other /\
                     folder target (snd r) !! other = folder target w !! other) /\
      (forall g, g <> f -> g <> target -> folder g (snd r) = folder g w) /\
      mail_log (snd r) = mail_log w) /\
  (folder f w !! name = None -> r = (None, w)).
Proof.
  intros Hne. cbv zeta. unfold move_to_folder. split.
  - intros content Hc. rewrite Hc. cbn [fst snd].
    split; [reflexivity |].
    split; [rewrite folder_write_other by congruence;
            rewrite folder_unlink_same; apply lookup_delete_eq |].
    split; [rewrite folder_write_same; apply lookup_insert_eq |].
    split.
    + intros other Ho. split.
      * rewrite folder_write_other by congruence. rewrite folder_unlink_same.
        apply lookup_delete_ne. congruence.
      * rewrite folder_write_same, lookup_insert_ne by congruence.
        rewrite folder_unlink_other by congruence. reflexivity.
    + split.
      * intros g Hgf Hgt. rewrite folder_write_other by congruence.
        apply folder_unlink_other. congruence.
      * unfold write_text, unlink. now rewrite !mail_log_set_folder.
  - intros ->. reflexivity.
Qed.

Lemma move_to_folder_moves_witness :
  folder Done (snd (move_to_folder Needs_Action "EMAIL_hello.md" Done Samples.ack_world))
  !! "EMAIL_hello.md" = Some Samples.ack_email.
Proof.
  destruct (move_to_folder_moves Needs_Action Done "EMAIL_hello.md" Samples.ack_world)
    as [Hmove _].
  - discriminate.
  - destruct (Hmove Samples.ack_email) as (_ & _ & Hdone & _).
    + vm_compute. reflexivity.
    + exact Hdone.
Defined.

Lemma names_write_text f g name content w :
  names g (write_text f name content w) =
  if decide (f = g) then {[name]} ∪ names g w else names g w.
Proof.
  unfold names. destruct (decide (f = g)) as [<- | Hne].
  - rewrite folder_write_same. apply dom_insert_L.
  - now rewrite folder_write_other.
Qed.

Lemma names_unlink f g name w :
  names g (unlink f name w) = if decide (f = g) then names g w ∖ {[name]} else names g w.
Proof.
  unfold names. destruct (decide (f = g)) as [<- | Hne].
  - rewrite folder_unlink_same. apply dom_delete_L.
  - now rewrite folder_unlink_other.
Qed.

Lemma names_rewrite f g name old new w :
  folder f w !! name = Some old -> names g (write_text f name new w) = names g w.
Proof.
  intros Hold. rewrite names_write_text. destruct (decide (f = g)) as [<- | Hne]; [| done].
  assert (name ∈ names f w) by (unfold names; apply elem_of_dom; eauto).
  set_solver.
Qed.

Lemma names_update_frontmatter f g name updates w :
  names g (snd (update_frontmatter f name updates w)) = names g w.
Proof.
  destruct (update_frontmatter_shape f name updates w) as [-> | (old & new & Hold & ->)];
    [reflexivity | exact (names_rewrite _ _ _ _ _ _ Hold)].
Qed.

Lemma names_add_note f g name note section now w :
  names g (snd (add_note f name note section now w)) = names g w.
Proof.
  destruct (add_note_shape f name note section now w) as [-> | (old & new & Hold & ->)];
    [reflexivity | exact (names_rewrite _ _ _ _ _ _ Hold)].
Qed.

Lemma mail_log_write_text f name content w :
  mail_log (write_text f name content w) = mail_log w.
Proof. apply mail_log_set_folder. Qed.

Lemma mail_log_unlink f name w : mail_log (unlink f name w) = mail_log w.
Proof. apply mail_log_set_folder. Qed.

Lemma mail_log_update_frontmatter f name updates w :
  mail_log (snd (update_frontmatter f name updates w)) = mail_log w.
Proof.
  destruct (update_frontmatter_shape f name updates w) as [-> | (old & new & _ & ->)];
    [reflexivity | apply mail_log_write_text].
Qed.

Lemma mail_log_move_to_folder f name target w :
  mail_log (snd (move_to_folder f name target w)) = mail_log w.
Proof.
  unfold move_to_folder. destruct (folder f w !! name); [| reflexivity].
  cbn [snd]. now rewrite mail_log_write_text, mail_log_unlink.
Qed.

Lemma conserved_refl src dst w : conserved src dst w w.
Proof. unfold conserved. set_solver. Qed.

Lemma conserved_trans src dst w1 w2 w3 :
  conserved src dst w1 w2 -> conserved src dst w2 w3 -> conserved src dst w1 w3.
Proof. unfold conserved. set_solver. Qed.

Lemma conserved_same_names src dst w w' :
  names src w' = names src w -> names dst w' = names dst w -> conserved src dst w w'.
Proof. unfold conserved. intros -> ->. set_solver. Qed.

Lemma conserved_move src dst name w :
  src <> dst -> conserved src dst w (snd (move_to_folder src name dst w)).
Proof.
  intros Hne. unfold move_to_folder.
  destruct (folder src w !! name) as [content|]; [| apply conserved_refl].
  cbn [snd]. unfold conserved.
  rewrite !names_write_text, !names_unlink.
  destruct (decide (dst = src)) as [-> | _]; [contradiction |].
  destruct (decide (src = src)) as [_ | ?]; [| contradiction].
  destruct (decide (dst = dst)) as [_ | ?]; [| contradiction].
  destruct (decide (src = dst)) as [-> | _]; [contradiction |].
  split; [| set_solver].
  intros x Hx. destruct (decide (x = name)) as [-> | Hxn]; set_solver.
Qed.

Lemma log_extended_refl w : log_extended 0 w w.
Proof. exists []. split; [now rewrite app_nil_r |]. split; [cbn; lia | constructor]. Qed.

Lemma log_extended_same k w w' : mail_log w' = mail_log w -> log_extended k w w'.
Proof.
  intros H. exists []. split; [now rewrite H, app_nil_r |].
  split; [cbn; lia | constructor].
Qed.

Lemma log_extended_trans j k w1 w2 w3 :
  log_extended j w1 w2 -> log_extended k w2 w3 -> log_extended (j + k) w1 w3.
Proof.
  intros (n1 & H1 & L1 & F1) (n2 & H2 & L2 & F2). exists (n1 ++ n2)%list.
  rewrite H2, H1, <- app_assoc. split; [reflexivity |]. split.
  - rewrite length_app. lia.
  - apply List.Forall_app. split; assumption.
Qed.

Lemma log_extended_weaken j k w w' : (j <= k)%nat -> log_extended j w w' -> log_extended k w w'.
Proof.
  intros Hle (n & H & L & F). exists n. split; [exact H |]. split; [lia | exact F].
Qed.

(** The subject both senders form: a subject that is not empty gets the
    prefix unless it has it. *)
Lemma reply_subject_is_ok recipient subject body ok :
  reply_subject_ok
    (mkMail recipient
            (if negb (String.eqb subject "") && negb (startswith "Re:" subject)
             then "Re: " +:+ subject else subject) body, ok).
Proof.
  unfold reply_subject_ok. cbn [fst m_subject].
  destruct (String.eqb subject "") eqn:Ee; cbn [negb andb].
  - left. now apply String.eqb_eq.
  - destruct (startswith "Re:" subject) eqn:Er; cbn [negb]; right; [exact Er | reflexivity].
Qed.

Lemma send_email_extends recipient subject body w :
  (forall ok, reply_subject_ok (mkMail recipient subject body, ok)) ->
  log_extended 1 w (snd (send_email recipient subject body w)).
Proof.
  intros Hok. unfold send_email. cbn [snd].
  eexists. cbn [mail_log]. split; [reflexivity |]. split; [cbn; lia |].
  constructor; [apply Hok | constructor].
Qed.

End StoreMore.

(** * Further properties of the workflow engine *)

Module PlannerMore.
Import PyStr Analyzer Store Planner Ledger StoreMore.

Lemma names_send_email recipient subject body w g :
  names g (snd (send_email recipient subject body w)) = names g w.
Proof. unfold names. now rewrite ExecutorFacts.send_email_keeps_folders. Qed.

Lemma archive_email_effect now name w :
  conserved Needs_Action Done w (_archive_email now name w) /\
  mail_log (_archive_email now name w) = mail_log w.
Proof.
  unfold _archive_email.
  pose proof (names_update_frontmatter Needs_Action Needs_Action name
                [("status", "archived"); ("archived_at", iso now)] w) as Hn.
  pose proof (names_update_frontmatter Needs_Action Done name
                [("status", "archived"); ("archived_at", iso now)] w) as Hd.
  pose proof (mail_log_update_frontmatter Needs_Action name
                [("status", "archived"); ("archived_at", iso now)] w) as Hm.
  destruct (VaultUpdate.update_frontmatter Needs_Action name _ w) as [b w1].
  cbn [snd] in *. split.
  - eapply conserved_trans; [apply conserved_same_names; eassumption |].
    apply conserved_move. discriminate.
  - rewrite mail_log_move_to_folder. exact Hm.
Qed.

Lemma auto_send_email_effect p now name metadata analysis w :
  conserved Needs_Action Done w (snd (_auto_send_email p now name metadata analysis w)) /\
  log_extended 1 w (snd (_auto_send_email p now name metadata analysis w)).
Proof.
  unfold _auto_send_email.
  destruct (email_sender p);
    [| split; [apply conserved_refl | apply log_extended_same; reflexivity]].
  destruct (suggested_reply analysis) as [[|c reply]|];
    try (split; [apply conserved_refl | apply log_extended_same; reflexivity]).
  set (recipient := dict_get_default "from" "" metadata).
  set (subject0 := dict_get_default "subject" "" metadata).
  set (subject := if negb (String.eqb subject0 "") && negb (startswith "Re:" subject0)
                  then "Re: " +:+ subject0 else subject0).
  pose proof (send_email_extends recipient subject (String c reply) w
                (fun ok => reply_subject_is_ok recipient subject0 (String c reply) ok))
    as Hlog.
  pose proof (names_send_email recipient subject (String c reply) w) as Hnames.
  destruct (send_email recipient subject (String c reply) w) as [success w1].
  cbn [snd] in Hlog, Hnames.
  destruct success; cbn [snd];
    [| split; [apply conserved_same_names; apply Hnames | exact Hlog]].
  set (w2 := _log_auto_send p now name recipient subject analysis w1).
  assert (Hn2 : forall g, g <> Auto_Sent -> names g w2 = names g w1).
  { intros g Hg. subst w2. unfold _log_auto_send. rewrite names_write_text.
    destruct (decide (Auto_Sent = g)); [congruence | reflexivity]. }
  assert (Hm2 : mail_log w2 = mail_log w1)
    by (subst w2; unfold _log_auto_send; apply mail_log_write_text).
  pose proof (names_update_frontmatter Needs_Action Needs_Action name
                [("status", "auto_sent"); ("auto_sent_at", iso now)] w2) as Hn3.
  pose proof (names_update_frontmatter Needs_Action Done name
                [("status", "auto_sent"); ("auto_sent_at", iso now)] w2) as Hd3.
  pose proof (mail_log_update_frontmatter Needs_Action name
                [("status", "auto_sent"); ("auto_sent_at", iso now)] w2) as Hm3.
  destruct (VaultUpdate.update_frontmatter Needs_Action name _ w2) as [b w3].
  cbn [snd] in Hn3, Hd3, Hm3.
  pose proof (conserved_move Needs_Action Done name w3 ltac:(discriminate)) as Hmove.
  pose proof (mail_log_move_to_folder Needs_Action name Done w3) as Hm4.
  destruct (VaultUpdate.move_to_folder Needs_Action name Done w3) as [o w4].
  cbn [snd] in *. split.
  - eapply conserved_trans; [| exact Hmove].
    apply conserved_same_names.
    + rewrite Hn3, Hn2 by discriminate. apply Hnames.
    + rewrite Hd3, Hn2 by discriminate. apply Hnames.
  - destruct Hlog as (new & Hnew & Hlen & Hok). exists new.
    split; [| split; assumption]. congruence.
Qed.

Lemma plan_one_effect now st name :
  conserved Needs_Action Done (world st) (world (plan_one now st name)) /\
  log_extended 1 (world st) (world (plan_one now st name)) /\
  (length (results (plan_one now st name)) <= S (length (results st)))%nat.
Proof.
  unfold plan_one.
  destruct (decide (stem name ∈ processed_cache (planner st)));
    [split; [apply conserved_refl | split; [apply log_extended_same; reflexivity | lia]] |].
  destruct (needs_action (world st) !! name) as [content|];
    [| cbn [world results]; rewrite length_app; cbn [length];
       split; [apply conserved_refl | split; [apply log_extended_same; reflexivity | lia]]].
  destruct (_parse_email_file content) as [metadata body].
  set (analysis := analyze_email (planner st) metadata body).
  destruct (needs_reply analysis); cbn [negb].
  - destruct (auto_approve analysis).
    + pose proof (auto_send_email_effect (planner st) now name metadata analysis (world st))
        as [Hc Hl].
      destruct (_auto_send_email (planner st) now name metadata analysis (world st))
        as [success w1].
      cbn [snd world results] in *. rewrite length_app. cbn [length].
      split; [exact Hc | split; [exact Hl | lia]].
    + cbn [_create_review_plan conversation_context world results].
      unfold _create_review_plan, conversation_context. cbn [world results].
      rewrite length_app. cbn [length].
      split; [apply conserved_refl | split; [apply log_extended_same; reflexivity | lia]].
  - cbn [world results]. rewrite length_app. cbn [length].
    destruct (archive_email_effect now name (world st)) as [Hc Hm].
    split; [exact Hc | split; [apply log_extended_same; exact Hm | lia]].
Qed.

Lemma plan_loop_effect now files st :
  conserved Needs_Action Done (world st) (world (plan_loop now files st)) /\
  log_extended (length files) (world st) (world (plan_loop now files st)) /\
  (length (results (plan_loop now files st)) <= length files + length (results st))%nat.
Proof.
  revert st. induction files as [|f files IH]; intros st.
  - cbn. split; [apply conserved_refl | split; [apply log_extended_refl | lia]].
  - rewrite PlannerFacts.plan_loop_cons.
    destruct (plan_one_effect now st f) as (Hc & Hl & Hr).
    destruct (IH (plan_one now st f)) as (IHc & IHl & IHr).
    split; [eapply conserved_trans; eassumption |].
    split; [exact (log_extended_trans 1 (length files) _ _ _ Hl IHl) |].
    cbn [length]. lia.
Qed.

(** X12.  plan_all_emails loses no email: every file that was in
    Needs_Action is afterwards in Needs_Action or in Done, and every
    file that was in Done is still in Done. *)
Theorem planner_loses_no_email (now : Clock) (p : EmailPlanner) (w : World) :
  let w' := snd (plan_all_emails now p w) in
  (forall name, is_Some (needs_action w !! name) ->
                is_Some (needs_action w' !! name) \/ is_Some (done w' !! name)) /\
  (forall name, is_Some (done w !! name) -> is_Some (done w' !! name)).
Proof.
  cbv zeta. unfold plan_all_emails, finish. cbn [snd].
  destruct (plan_loop_effect now (email_files w) (mkLoop p w [])) as ([Hn Hd] & _ & _).
  set (st := plan_loop now (email_files w) (mkLoop p w [])) in *.
  cbn [world] in Hn, Hd. unfold names in Hn, Hd. cbn [folder] in Hn, Hd.
  change (needs_action (_save_cache (planner st) (world st))) with (needs_action (world st)).
  change (done (_save_cache (planner st) (world st))) with (done (world st)).
  split.
  - intros name Hin. apply elem_of_dom in Hin. apply Hn in Hin.
    apply elem_of_union in Hin as [Hin | Hin]; [left | right]; now apply elem_of_dom.
  - intros name Hin. apply elem_of_dom. apply Hd. now apply elem_of_dom.
Qed.

(** X13.  plan_all_emails only adds to the mail log: the calls of the
    send capability that were logged before stay as they are, at most
    one call is added for each listed file, every added call has a
    subject that is empty or opens with 'Re:', and the result list has
    at most one entry for each listed file. *)
Theorem planner_mail_log (now : Clock) (p : EmailPlanner) (w : World) :
  let r := plan_all_emails now p w in
  (exists new,
      mail_log (snd r) = (mail_log w ++ new)%list /\
      (length new <= length (email_files w))%nat /\
      Forall reply_subject_ok new) /\
  (length (fst (fst r)) <= length (email_files w))%nat.
Proof.
  cbv zeta. unfold plan_all_emails, finish. cbn [fst snd].
  destruct (plan_loop_effect now (email_files w) (mkLoop p w [])) as (_ & Hl & Hr).
  cbn [world results length] in Hl, Hr. split; [exact Hl | lia].
Qed.

End PlannerMore.
(** * Facts about the string operations *)

Module StringFacts.
Import PyStr PyStrMore.

Lemma append_cons (c : ascii) (a b : string) :
  String c a +:+ b = String c (a +:+ b).
Proof. reflexivity. Qed.

Lemma append_assoc (a b c : string) : (a +:+ b) +:+ c = a +:+ (b +:+ c).
Proof.
  induction a as [|x a IH]; [reflexivity |].
  rewrite !append_cons. now f_equal.
Qed.

Lemma length_append (a b : string) :
  String.length (a +:+ b) = (String.length a + String.length b)%nat.
Proof. induction a as [|c a IH]; simpl; [reflexivity | now f_equal]. Qed.

Lemma startswith_append (p r : string) : startswith p (p +:+ r) = true.
Proof.
  induction p as [|c p IH]; [reflexivity |].
  simpl. now rewrite Ascii.eqb_refl, IH.
Qed.

Lemma startswith_prefix (p q s : string) :
  startswith (p +:+ q) s = true -> startswith p s = true.
Proof.
  revert s. induction p as [|c p IH]; intros s; [reflexivity |].
  simpl. destruct s as [|d s]; [discriminate |].
  intros H. apply andb_true_iff in H as [Hc Hs]. rewrite Hc. exact (IH s Hs).
Qed.

Lemma drop_append (a b : string) : drop (String.length a) (a +:+ b) = b.
Proof. induction a as [|c a IH]; [reflexivity | exact IH]. Qed.

Lemma take_append (a b : string) : take (String.length a) (a +:+ b) = a.
Proof. induction a as [|c a IH]; [reflexivity | simpl; now rewrite IH]. Qed.

Lemma take_drop (n : nat) (s : string) : take n s +:+ drop n s = s.
Proof.
  revert s. induction n as [|n IH]; intros s; [reflexivity |].
  destruct s as [|c s]; [reflexivity |]. simpl. rewrite append_cons. f_equal. apply IH.
Qed.

Lemma endswith_append (a p : string) : endswith p (a +:+ p) = true.
Proof.
  unfold endswith. rewrite length_append.
  replace (String.length a + String.length p - String.length p)%nat
    with (String.length a) by lia.
  rewrite drop_append, String.eqb_refl, andb_true_r.
  apply Nat.leb_le. lia.
Qed.

(** The stem of a name that ends in '.md' gives the name back. *)
Lemma stem_md (name : string) :
  endswith ".md" name = true -> Store.stem name +:+ ".md" = name.
Proof.
  unfold endswith, Store.stem. intros H. apply andb_true_iff in H as [_ H].
  apply String.eqb_eq in H. cbn [String.length] in H.
  rewrite <- H. apply take_drop.
Qed.

Lemma stem_append_md (a : string) : Store.stem (a +:+ ".md") = a.
Proof.
  unfold Store.stem. rewrite length_append. cbn [String.length].
  replace (String.length a + 3 - 3)%nat with (String.length a) by lia.
  apply take_append.
Qed.

Lemma length_take (n : nat) (s : string) : (String.length (take n s) <= n)%nat.
Proof.
  revert s. induction n as [|n IH]; intros s; [simpl; lia |].
  destruct s as [|c s]; simpl; [lia |]. specialize (IH s). lia.
Qed.

Lemma length_take_le (n : nat) (s : string) :
  (String.length (take n s) <= String.length s)%nat.
Proof.
  revert s. induction n as [|n IH]; intros s; [simpl; lia |].
  destruct s as [|c s]; simpl; [lia |]. specialize (IH s). lia.
Qed.

Lemma length_map_chars f (s : string) : String.length (map_chars f s) = String.length s.
Proof. induction s as [|c s IH]; simpl; [reflexivity | now rewrite IH]. Qed.

Lemma length_span_snd p (s : string) :
  (String.length (snd (span p s)) <= String.length s)%nat.
Proof.
  induction s as [|c s IH]; simpl; [lia |].
  destruct (p c); [| simpl; lia]. destruct (span p s) as [a b]. simpl in *. lia.
Qed.

Lemma length_rstrip_chars p (s : string) :
  (String.length (rstrip_chars p s) <= String.length s)%nat.
Proof.
  induction s as [|c s IH]; simpl; [lia |].
  destruct (rstrip_chars p s) as [|d r]; [destruct (p c); simpl; lia | simpl in *; lia].
Qed.

Lemma length_strip_chars p (s : string) :
  (String.length (strip_chars p s) <= String.length s)%nat.
Proof.
  unfold strip_chars, lstrip_chars.
  pose proof (length_rstrip_chars p (snd (span p s))).
  pose proof (length_span_snd p s). lia.
Qed.

Lemma rstrip_is_rstrip_chars (s : string) : rstrip s = rstrip_chars isspace s.
Proof. induction s as [|c s IH]; simpl; [reflexivity | now rewrite IH]. Qed.

Lemma strip_is_strip_chars (s : string) : strip s = strip_chars isspace s.
Proof. unfold strip, strip_chars, lstrip, lstrip_chars. apply rstrip_is_rstrip_chars. Qed.

Lemma length_collapse_runs p c b (s : string) :
  (String.length (collapse_runs p c b s) <= String.length s)%nat.
Proof.
  revert b. induction s as [|a s IH]; intros b; simpl; [lia |].
  pose proof (IH true). pose proof (IH false).
  destruct (p a); [destruct b |]; simpl; lia.
Qed.

Lemma all_chars_take q n (s : string) : all_chars q s = true -> all_chars q (take n s) = true.
Proof.
  revert s. induction n as [|n IH]; intros s; [reflexivity |].
  destruct s as [|c s]; [reflexivity |]. simpl. intros H.
  apply andb_true_iff in H as [Hc Hs]. now rewrite Hc, IH.
Qed.

Lemma all_chars_span_snd q p (s : string) :
  all_chars q s = true -> all_chars q (snd (span p s)) = true.
Proof.
  induction s as [|c s IH]; [reflexivity |]. cbn [span]. intros H.
  destruct (p c); [| exact H].
  simpl in H. apply andb_true_iff in H as [_ Hs]. specialize (IH Hs).
  destruct (span p s) as [a b]. exact IH.
Qed.

Lemma all_chars_rstrip_chars q p (s : string) :
  all_chars q s = true -> all_chars q (rstrip_chars p s) = true.
Proof.
  induction s as [|c s IH]; [reflexivity |]. simpl. intros H.
  apply andb_true_iff in H as [Hc Hs]. specialize (IH Hs).
  destruct (rstrip_chars p s) as [|d r].
  - destruct (p c); simpl; [reflexivity | now rewrite Hc].
  - change (q c && all_chars q (String d r) = true). now rewrite Hc, IH.
Qed.

Lemma all_chars_strip_chars q p (s : string) :
  all_chars q s = true -> all_chars q (strip_chars p s) = true.
Proof.
  intros H. unfold strip_chars, lstrip_chars.
  now apply all_chars_rstrip_chars, all_chars_span_snd.
Qed.

Lemma all_chars_collapse_runs q p c b (s : string) :
  q c = true ->
  (forall a, In a (list_ascii_of_string s) -> p a = false -> q a = true) ->
  all_chars q (collapse_runs p c b s) = true.
Proof.
  intros Hc. revert b. induction s as [|a s IH]; intros b Hall; [reflexivity |].
  cbn [collapse_runs]. cbn [list_ascii_of_string] in Hall.
  assert (Hs : forall b', all_chars q (collapse_runs p c b' s) = true).
  { intros b'. apply IH. intros x Hx. apply Hall. now right. }
  destruct (p a) eqn:Ea.
  - destruct b; [apply Hs | cbn [all_chars]; now rewrite Hc, Hs].
  - cbn [all_chars]. rewrite (Hall a (or_introl eq_refl) Ea). apply Hs.
Qed.

Lemma all_chars_forall q (s : string) :
  all_chars q s = true <-> forall a, In a (list_ascii_of_string s) -> q a = true.
Proof.
  induction s as [|c s IH]; simpl.
  - split; [intros _ a [] | reflexivity].
  - rewrite andb_true_iff, IH. split.
    + intros [Hc Hs] a [<- | Ha]; auto.
    + intros H. split; [apply H; now left | intros a Ha; apply H; now right].
Qed.

Lemma all_chars_remove q (s : string) :
  all_chars q (remove_chars (fun c => negb (q c)) s) = true.
Proof.
  induction s as [|c s IH]; [reflexivity |]. simpl.
  destruct (q c) eqn:E; simpl; [now rewrite E | exact IH].
Qed.

Lemma all_chars_map q f (s : string) :
  (forall a, In a (list_ascii_of_string s) -> q (f a) = true) ->
  all_chars q (map_chars f s) = true.
Proof.
  induction s as [|c s IH]; intros H; [reflexivity |]. simpl.
  rewrite (H c (or_introl eq_refl)). apply IH. intros a Ha. apply H. now right.
Qed.

End StringFacts.

(** * Properties of the names the watcher gives to files *)

Module WatcherMore.
Import PyStr PyStrMore Store Planner Watcher Ledger StringFacts.

Lemma fmap_fst_is_map (m : gmap string string) :
  (map_to_list m).*1 = map fst (map_to_list m).
Proof. induction (map_to_list m) as [|x l IH]; [reflexivity | simpl; now f_equal]. Qed.

Lemma nodup_names (m : gmap string string) : NoDup (map fst (map_to_list m)).
Proof. rewrite <- fmap_fst_is_map. apply NoDup_fst_map_to_list. Qed.

Lemma in_names (m : gmap string string) (name : string) :
  In name (map fst (map_to_list m)) <-> is_Some (m !! name).
Proof.
  rewrite in_map_iff. split.
  - intros ([k v] & <- & Hin). apply list_elem_of_In, elem_of_map_to_list in Hin.
    now exists v.
  - intros [v Hv]. exists (name, v). split; [reflexivity |].
    now apply list_elem_of_In, elem_of_map_to_list.
Qed.

Lemma occurrences_app name l1 l2 :
  occurrences name (l1 ++ l2)%list = (occurrences name l1 + occurrences name l2)%nat.
Proof. unfold occurrences. now rewrite List.filter_app, length_app. Qed.

Lemma occurrences_absent name q l :
  ~ In name l -> occurrences name (List.filter q l) = O.
Proof.
  unfold occurrences. induction l as [|x l IH]; intros Hn; [reflexivity |].
  simpl. assert (Hx : String.eqb name x = false).
  { apply String.eqb_neq. intros ->. apply Hn. now left. }
  assert (Hl : ~ In name l) by (intros H; apply Hn; now right).
  destruct (q x); simpl; [rewrite Hx |]; now apply IH.
Qed.

Lemma occurrences_filter name q l :
  NoDup l -> In name l ->
  occurrences name (List.filter q l) = if q name then 1%nat else O.
Proof.
  induction 1 as [|x l Hx Hl IH]; intros Hin; [destruct Hin |].
  destruct (String.eqb name x) eqn:E.
  - apply String.eqb_eq in E as <-.
    assert (Hn : ~ In name l) by (now rewrite <- list_elem_of_In).
    pose proof (occurrences_absent name q l Hn) as H0.
    unfold occurrences in *. simpl. destruct (q name); simpl.
    + rewrite String.eqb_refl. simpl. now rewrite H0.
    + exact H0.
  - destruct Hin as [-> | Hin]; [now rewrite String.eqb_refl in E |].
    specialize (IH Hin). unfold occurrences in *. simpl.
    destruct (q x); simpl; [rewrite E |]; exact IH.
Qed.

Lemma occurrences_glob prefix suffix m name :
  is_Some (m !! name) ->
  occurrences name (glob prefix suffix m) =
  if glob_match prefix suffix name then 1%nat else O.
Proof.
  intros H. unfold glob. apply occurrences_filter; [apply nodup_names |].
  now apply in_names.
Qed.

(** A name the pattern 'EMAIL - *.md' matches: 'EMAIL*.md' matches it
    as well, and the patterns for 'WHATSAPP' do not. *)
Lemma email_patterns_overlap name :
  glob_match "EMAIL - " ".md" name = true ->
  glob_match "EMAIL" ".md" name = true /\
  glob_match "WHATSAPP" ".md" name = false /\
  glob_match "WHATSAPP - " ".md" name = false.
Proof.
  unfold glob_match. intros H.
  apply andb_true_iff in H as [H Hlen]. apply andb_true_iff in H as [Hpre Hsuf].
  apply Nat.leb_le in Hlen. simpl String.length in *.
  assert (Hp : startswith "EMAIL" name = true)
    by exact (startswith_prefix "EMAIL" " - " name Hpre).
  assert (Hw : forall r, startswith (String "W" r) name = false).
  { intros r. destruct name as [|c name]; [reflexivity |].
    change (Ascii.eqb "E" c && startswith "MAIL" name = true) in Hp.
    change (Ascii.eqb "W" c && startswith r name = false).
    apply andb_true_iff in Hp as [Hc _].
    apply Ascii.eqb_eq in Hc as <-. reflexivity. }
  rewrite Hp, Hsuf. split; [| split].
  - change (true && true && (8 <=? String.length name)%nat = true).
    apply Nat.leb_le. lia.
  - change "WHATSAPP" with (String "W" "HATSAPP"). now rewrite Hw.
  - change "WHATSAPP - " with (String "W" "HATSAPP - "). now rewrite Hw.
Qed.

Lemma generated_name_matches subject msg_id :
  glob_match "EMAIL - " ".md" (_generate_filename subject msg_id) = true.
Proof.
  unfold glob_match, _generate_filename.
  rewrite startswith_append.
  replace ("EMAIL - " +:+ filename_description subject +:+ "_" +:+ take 8 msg_id +:+ ".md")
    with (("EMAIL - " +:+ filename_description subject +:+ "_" +:+ take 8 msg_id) +:+ ".md").
  2:{ now rewrite !append_assoc. }
  rewrite endswith_append. apply Nat.leb_le. rewrite !length_append.
  change (String.length "EMAIL - ") with 8%nat. change (String.length ".md") with 3%nat. lia.
Qed.

Lemma description_chars subject :
  all_chars word_or_hyphen (filename_description subject) = true.
Proof.
  unfold filename_description.
  set (q0 := fun c => isword c || isspace c || is_hyphen c).
  set (q2 := fun c => isword c || is_hyphen c || Ascii.eqb c " "%char).
  set (d1 := remove_chars (fun c => negb (q0 c)) (strip subject)).
  assert (H1 : all_chars q0 d1 = true) by apply all_chars_remove.
  set (d2 := collapse_runs isspace " "%char false d1).
  assert (H2 : all_chars q2 d2 = true).
  { apply all_chars_collapse_runs; [reflexivity |].
    intros a Ha Hs. apply (proj1 (all_chars_forall q0 d1) H1) in Ha.
    unfold q0 in Ha. unfold q2. rewrite Hs, orb_false_r in Ha. now rewrite Ha. }
  set (d3 := if (27 <? String.length d2)%nat then strip (take 27 d2) else d2).
  assert (H3 : all_chars q2 d3 = true).
  { unfold d3. destruct (27 <? String.length d2)%nat; [| exact H2].
    rewrite strip_is_strip_chars. now apply all_chars_strip_chars, all_chars_take. }
  apply all_chars_strip_chars, all_chars_collapse_runs; [reflexivity |].
  intros a Ha _. revert a Ha. apply all_chars_forall. unfold replace_char.
  apply all_chars_map. intros a Ha.
  apply (proj1 (all_chars_forall q2 d3) H3) in Ha. unfold q2 in Ha.
  destruct (Ascii.eqb a " "%char); [reflexivity |].
  now rewrite orb_false_r in Ha.
Qed.

Lemma description_length subject :
  (String.length (filename_description subject) <= 27)%nat.
Proof.
  unfold filename_description.
  set (d2 := collapse_runs isspace " "%char false _).
  set (d3 := if (27 <? String.length d2)%nat then strip (take 27 d2) else d2).
  assert (H3 : (String.length d3 <= 27)%nat).
  { unfold d3. destruct (27 <? String.length d2)%nat eqn:E.
    - rewrite strip_is_strip_chars.
      pose proof (length_strip_chars isspace (take 27 d2)).
      pose proof (length_take 27 d2). lia.
    - apply Nat.ltb_ge in E. exact E. }
  pose proof (length_strip_chars is_hyphen
                (collapse_runs is_hyphen "-"%char false (replace_char " "%char "-"%char d3))).
  pose proof (length_collapse_runs is_hyphen "-"%char false
                (replace_char " "%char "-"%char d3)).
  unfold replace_char in *. rewrite length_map_chars in *. lia.
Qed.

(** X14.  The description _generate_filename puts into a file name has at
    most 27 characters, each a word character or a hyphen, whatever the
    subject is; the whole name has at most 47 characters. *)
Theorem generated_name_is_safe (subject msg_id : string) :
  let d := filename_description subject in
  (String.length d <= 27)%nat /\
  all_chars word_or_hyphen d = true /\
  (String.length (_generate_filename subject msg_id) <= 47)%nat.
Proof.
  cbv zeta. split; [apply description_length |]. split; [apply description_chars |].
  unfold _generate_filename. rewrite !length_append.
  pose proof (description_length subject). pose proof (length_take 8 msg_id).
  change (String.length "EMAIL - ") with 8%nat. change (String.length "_") with 1%nat.
  change (String.length ".md") with 3%nat. lia.
Qed.

(** X15.  A file named by _generate_filename that lies in Needs_Action is
    listed twice by plan_all_emails, once for 'EMAIL*.md' and once for
    'EMAIL - *.md'; its id is the name without '.md'. *)
Theorem generated_name_listed_twice (subject msg_id : string) (w : World) :
  let name := _generate_filename subject msg_id in
  is_Some (needs_action w !! name) ->
  occurrences name (email_files w) = 2%nat /\
  stem name = "EMAIL - " +:+ filename_description subject +:+ "_" +:+ take 8 msg_id.
Proof.
  cbv zeta. intros Hin. split.
  - destruct (email_patterns_overlap _ (generated_name_matches subject msg_id))
      as (H1 & H2 & H3).
    unfold email_files. rewrite !occurrences_app, !occurrences_glob by exact Hin.
    now rewrite H1, H2, H3, generated_name_matches.
  - unfold _generate_filename.
    rewrite <- (stem_append_md
                  ("EMAIL - " +:+ filename_description subject +:+ "_" +:+ take 8 msg_id)).
    now rewrite !append_assoc.
Qed.

Lemma generated_name_listed_twice_witness :
  occurrences (_generate_filename "Project update: Q3 / budget" "18c2f0a94b7d11e0")
    (email_files
       (write_text Needs_Action
          (_generate_filename "Project update: Q3 / budget" "18c2f0a94b7d11e0")
          Samples.ack_email Samples.empty_world)) = 2%nat.
Proof.
  apply (generated_name_listed_twice "Project update: Q3 / budget" "18c2f0a94b7d11e0").
  vm_compute. eauto.
Defined.

End WatcherMore.

(** * The planner handles a file at most once in a run *)

Module HandlingFacts.
Import PyStr Store Analyzer Planner Handling.

Lemma handled_ids_snoc rs x :
  handled_ids (rs ++ [x])%list =
  (handled_ids rs ++ (if handled x then [stem (res_email_file x)] else []))%list.
Proof.
  unfold handled_ids. rewrite List.filter_app, map_app. simpl.
  now destruct (handled x).
Qed.

(** What one turn of the loop does to the planner and the results: it
    skips the file, or adds an error entry and marks nothing, or adds an
    entry for the file and marks its id, which was not marked before. *)
Lemma plan_one_shape now st name :
  plan_one now st name = st \/
  (exists x, handled x = false /\
             planner (plan_one now st name) = planner st /\
             results (plan_one now st name) = (results st ++ [x])%list) \/
  (exists x, handled x = true /\ res_email_file x = name /\
             (stem name ∉ processed_cache (planner st)) /\
             processed_cache (planner (plan_one now st name)) =
               {[stem name]} ∪ processed_cache (planner st) /\
             results (plan_one now st name) = (results st ++ [x])%list).
Proof.
  unfold plan_one.
  destruct (decide (stem name ∈ processed_cache (planner st))) as [|Hn]; [now left |].
  right.
  destruct (needs_action (world st) !! name) as [content|];
    [| left; eexists; split; [| split; [| reflexivity]]; reflexivity].
  destruct (_parse_email_file content) as [metadata body].
  set (analysis := analyze_email (planner st) metadata body).
  destruct (needs_reply analysis); cbn [negb].
  - destruct (auto_approve analysis).
    + destruct (_auto_send_email (planner st) now name metadata analysis (world st))
        as [success w1].
      right. eexists.
      split; [| split; [| split; [exact Hn | split; [| reflexivity]]]]; reflexivity.
    + unfold _create_review_plan, conversation_context.
      left. eexists. split; [| split; [| reflexivity]]; reflexivity.
  - right. eexists.
    split; [| split; [| split; [exact Hn | split; [| reflexivity]]]]; reflexivity.
Qed.

Lemma plan_loop_handles_once now ids files st :
  ids ⊆ processed_cache (planner st) ->
  NoDup (handled_ids (results st)) ->
  (forall id, In id (handled_ids (results st)) -> id ∈ processed_cache (planner st)) ->
  let st' := plan_loop now files st in
  ids ⊆ processed_cache (planner st') /\
  NoDup (handled_ids (results st')) /\
  (forall id, In id (handled_ids (results st')) -> id ∈ processed_cache (planner st')) /\
  (forall id, In id (handled_ids (results st')) ->
              In id (handled_ids (results st)) \/ id ∉ processed_cache (planner st)).
Proof.
  revert st. induction files as [|f files IH]; intros st Hsub Hnd Hin; cbv zeta.
  - simpl. split; [exact Hsub |]. split; [exact Hnd |]. split; [exact Hin | now left].
  - rewrite PlannerFacts.plan_loop_cons.
    destruct (plan_one_shape now st f) as [E | [(x & Hx & Ep & Er) | (x & Hx & Ef & Hn & Ec & Er)]].
    + rewrite E. now apply IH.
    + assert (Eh : handled_ids (results (plan_one now st f)) = handled_ids (results st)).
      { rewrite Er, handled_ids_snoc, Hx. apply app_nil_r. }
      destruct (IH (plan_one now st f)) as (H1 & H2 & H3 & H4).
      * now rewrite Ep.
      * now rewrite Eh.
      * rewrite Eh, Ep. exact Hin.
      * split; [exact H1 |]. split; [exact H2 |]. split; [exact H3 |].
        intros id Hid. destruct (H4 id Hid) as [H | H].
        -- left. now rewrite <- Eh.
        -- right. now rewrite <- Ep.
    + assert (Eh : handled_ids (results (plan_one now st f)) =
                   (handled_ids (results st) ++ [stem f])%list).
      { now rewrite Er, handled_ids_snoc, Hx, Ef. }
      destruct (IH (plan_one now st f)) as (H1 & H2 & H3 & H4).
      * rewrite Ec. set_solver.
      * rewrite Eh. apply NoDup_app. split; [exact Hnd |]. split.
        -- intros id Hid Hs. apply list_elem_of_In in Hid.
           apply list_elem_of_In in Hs. destruct Hs as [E | []].
           apply Hn. rewrite E. now apply Hin.
        -- apply NoDup_singleton.
      * rewrite Eh, Ec. intros id Hid. apply in_app_iff in Hid as [Hid | [<- | []]].
        -- apply Hin in Hid. set_solver.
        -- set_solver.
      * split; [exact H1 |]. split; [exact H2 |]. split; [exact H3 |].
        intros id Hid. destruct (H4 id Hid) as [H | H].
        -- rewrite Eh in H. apply in_app_iff in H as [H | [<- | []]];
             [now left | now right].
        -- right. rewrite Ec in H. set_solver.
Qed.

(** X16.  In one run of plan_all_emails no file is handled twice, although
    the listing names files twice: the entries of the result that are not
    errors have pairwise different ids, none of which was in the
    processed cache before, and all of which are in it afterwards. *)
Theorem planner_handles_once (now : Clock) (p : EmailPlanner) (w : World) :
  let r := plan_all_emails now p w in
  let ids := handled_ids (fst (fst r)) in
  NoDup ids /\
  (forall id, In id ids ->
     (id ∉ processed_cache p) /\ id ∈ processed_cache (snd (fst r))) /\
  processed_cache p ⊆ processed_cache (snd (fst r)).
Proof.
  cbv zeta. unfold plan_all_emails, finish. cbn [fst snd].
  destruct (plan_loop_handles_once now (processed_cache p) (email_files w) (mkLoop p w []))
    as (H1 & H2 & H3 & H4).
  - reflexivity.
  - apply NoDup_nil_2.
  - intros id [].
  - cbv zeta in *. cbn [planner results] in *.
    split; [exact H2 |]. split; [| exact H1].
    intros id Hid. split; [| now apply H3].
    destruct (H4 id Hid) as [[] | H]. exact H.
Qed.

End HandlingFacts.

(** * Further properties of the approval executor *)

Module ExecutorMore.
Import PyStr Store Executor Ledger Scan PlainNames StringFacts StoreMore.

Lemma accepted_app l1 l2 : accepted (l1 ++ l2)%list = accepted l1 + accepted l2.
Proof. unfold accepted. rewrite List.filter_app, length_app. lia. Qed.

Lemma conserved_lookup src dst w w' :
  conserved src dst w w' ->
  (forall name, is_Some (folder src w !! name) ->
                is_Some (folder src w' !! name) \/ is_Some (folder dst w' !! name)) /\
  (forall name, is_Some (folder dst w !! name) -> is_Some (folder dst w' !! name)).
Proof.
  unfold conserved, names. intros [H1 H2]. split.
  - intros name Hn. apply elem_of_dom in Hn. apply H1 in Hn.
    apply elem_of_union in Hn as [Hn | Hn]; [left | right]; now apply elem_of_dom.
  - intros name Hn. apply elem_of_dom. apply H2. now apply elem_of_dom.
Qed.

Lemma move_plan_to_done_effect now plan_name recipient content w :
  endswith ".md" plan_name = true ->
  let w' := _move_plan_to_done now plan_name (stem plan_name) recipient content w in
  conserved Approved Done w w' /\
  names Needs_Action w' = names Needs_Action w /\
  names Inbox w' = names Inbox w /\
  mail_log w' = mail_log w.
Proof.
  intros Hmd. cbv zeta. unfold _move_plan_to_done.
  destruct (match_frontmatter content) as [[frontmatter rest]|];
    [| split; [apply conserved_refl | repeat split]].
  rewrite (stem_md plan_name Hmd).
  unfold conserved. rewrite !names_unlink, !names_write_text.
  rewrite mail_log_unlink, mail_log_write_text.
  repeat (destruct (decide _) as [? | ?]; try discriminate; try contradiction).
  split; [| repeat split].
  split; [| set_solver].
  intros x Hx. destruct (decide (x = plan_name)) as [-> | Hxn]; set_solver.
Qed.

Lemma plain_email_files_lookup plans name content :
  plain_email_files plans = true -> plans !! name = Some content ->
  plain_email_file content = true.
Proof.
  unfold plain_email_files. intros Hall Hl.
  rewrite forallb_forall in Hall.
  apply (Hall (name, content)). apply list_elem_of_In.
  now apply elem_of_map_to_list.
Qed.

Lemma plain_email_files_subseteq plans plans' :
  plans' ⊆ plans -> plain_email_files plans = true -> plain_email_files plans' = true.
Proof.
  intros Hsub Hall. unfold plain_email_files. apply forallb_forall.
  intros [name content] Hin. apply list_elem_of_In, elem_of_map_to_list in Hin.
  cbn [snd]. apply (plain_email_files_lookup plans name content Hall).
  exact (lookup_weaken _ _ _ _ Hin Hsub).
Qed.

(** Moving the email sends nothing. *)
Lemma mail_log_after_inbox now email_filename plan_id w :
  mail_log (_move_email_to_inbox now email_filename plan_id w) = mail_log w.
Proof.
  destruct (ExecutorFacts.move_email_to_inbox_shape now email_filename plan_id w)
    as [-> | (f & g & name & content & _ & _ & _ & _ & ->)]; [reflexivity |].
  now rewrite mail_log_unlink, mail_log_write_text.
Qed.

(** A text without ['/'] moves a file of Needs_Action to Inbox and
    touches no other folder. *)
Lemma move_email_to_inbox_effect now email_filename plan_id w :
  no_char "/" email_filename = true ->
  let w' := _move_email_to_inbox now email_filename plan_id w in
  conserved Needs_Action Inbox w w' /\
  names Approved w' = names Approved w /\
  names Done w' = names Done w.
Proof.
  intros Hp. cbv zeta.
  destruct (ExecutorFacts.move_email_to_inbox_shape now email_filename plan_id w)
    as [-> | (f & g & name & content & _ & E1 & E2 & _ & ->)];
    [split; [apply conserved_refl | split; reflexivity] |].
  apply (PathFacts.locate_plain _ _ _ _ Hp) in E1 as [-> ->].
  apply (PathFacts.locate_plain _ _ _ _ Hp) in E2 as [-> _].
  unfold conserved. rewrite !names_unlink, !names_write_text.
  repeat (destruct (decide _) as [? | ?]; try discriminate; try contradiction).
  split; [| repeat split].
  split; [| set_solver].
  intros x Hx. destruct (decide (x = email_filename)) as [-> | Hxn]; set_solver.
Qed.

(** The mail log after [_execute_plan]: at most one call of the send
    capability is made, and the answer is [True] exactly when that call
    was accepted. *)
Lemma execute_plan_log now plan_name plan_id ex w :
  let r := _execute_plan now plan_name plan_id ex w in
  exists new,
    mail_log (snd r) = (mail_log w ++ new)%list /\
    (length new <= 1)%nat /\
    Forall reply_subject_ok new /\
    accepted new = (if fst (fst r) then 1 else 0).
Proof.
  cbv zeta.
  assert (Hsame : exists new, mail_log w = (mail_log w ++ new)%list /\
                              (length new <= 1)%nat /\ Forall reply_subject_ok new /\
                              accepted new = 0).
  { exists []. rewrite app_nil_r. repeat split; [simpl; lia | constructor]. }
  unfold _execute_plan.
  destruct (approved w !! plan_name) as [content|]; [| exact Hsame].
  destruct (search_field "email_file:" content) as [email_file_group|]; [| exact Hsame].
  destruct (search_field "from:" content) as [recipient_group|]; [| exact Hsame].
  set (subject0 := match search_field "subject:" content with
                   | Some g => strip g
                   | None => _ end).
  destruct (match search_with fenced_reply_at content with
            | Some g => Some g
            | None => search_with plain_reply_at content
            end) as [g|]; [| exact Hsame].
  destruct (_get_email_sender ex w) as [available ex1].
  destruct available; cbn [negb]; [| exact Hsame].
  set (subject := if negb (String.eqb subject0 "") && negb (startswith "Re:" subject0)
                  then "Re: " +:+ subject0 else subject0).
  pose proof (reply_subject_is_ok (strip recipient_group) subject0 (strip g)) as Hok.
  fold subject in Hok.
  unfold send_email.
  set (ok := match mailer w with [] => false | b :: _ => b end).
  set (w1 := mkWorld _ _ _ _ _ _ _ _ _ _ _).
  assert (Hl1 : mail_log w1 =
                (mail_log w ++ [(mkMail (strip recipient_group) subject (strip g), ok)])%list)
    by reflexivity.
  assert (Hlog : forall w', mail_log w' = mail_log w1 ->
            exists new, mail_log w' = (mail_log w ++ new)%list /\
                        (length new <= 1)%nat /\ Forall reply_subject_ok new /\
                        accepted new = (if ok then 1 else 0)).
  { intros w' Hw'. eexists. split; [rewrite Hw'; exact Hl1 |].
    split; [simpl; lia |]. split; [constructor; [apply Hok | constructor] |].
    unfold accepted. simpl. now destruct ok. }
  destruct ok; cbn [fst snd]; [| now apply Hlog].
  apply Hlog. rewrite mail_log_after_inbox. unfold _move_plan_to_done.
  destruct (match_frontmatter content) as [[frontmatter rest]|]; [| reflexivity].
  now rewrite mail_log_unlink, mail_log_write_text.
Qed.

(** The files after [_execute_plan] of a plan that names its email by a
    file name: no plan and no email is lost. *)
Lemma execute_plan_effect now plan_name ex w :
  endswith ".md" plan_name = true ->
  (forall content, approved w !! plan_name = Some content ->
                   plain_email_file content = true) ->
  let r := _execute_plan now plan_name (stem plan_name) ex w in
  conserved Approved Done w (snd r) /\
  conserved Needs_Action Inbox w (snd r).
Proof.
  intros Hmd Hplain. cbv zeta.
  assert (Hsame : conserved Approved Done w w /\ conserved Needs_Action Inbox w w)
    by (split; apply conserved_refl).
  unfold _execute_plan.
  destruct (approved w !! plan_name) as [content|]; [| exact Hsame].
  specialize (Hplain content eq_refl). unfold plain_email_file in Hplain.
  destruct (search_field "email_file:" content) as [email_file_group|]; [| exact Hsame].
  destruct (search_field "from:" content) as [recipient_group|]; [| exact Hsame].
  destruct (match search_with fenced_reply_at content with
            | Some g => Some g
            | None => search_with plain_reply_at content
            end) as [g|]; [| exact Hsame].
  destruct (_get_email_sender ex w) as [available ex1].
  destruct available; cbn [negb]; [| exact Hsame].
  unfold send_email.
  set (ok := match mailer w with [] => false | b :: _ => b end).
  set (w1 := mkWorld _ _ _ _ _ _ _ _ _ _ _).
  assert (Hn1 : forall f, names f w1 = names f w) by (intros []; reflexivity).
  destruct ok; cbn [fst snd].
  - destruct (move_plan_to_done_effect now plan_name (strip recipient_group) content w1 Hmd)
      as (Hc2 & Hna2 & Hin2 & _).
    set (w2 := _move_plan_to_done now plan_name (stem plan_name)
                                  (strip recipient_group) content w1) in *.
    destruct (move_email_to_inbox_effect now (strip email_file_group) (stem plan_name) w2
                Hplain) as (Hc3 & Hap3 & Hdo3).
    set (w3 := _move_email_to_inbox now (strip email_file_group) (stem plan_name) w2) in *.
    split.
    + apply (conserved_trans _ _ w w1 w3); [now apply conserved_same_names |].
      apply (conserved_trans _ _ w1 w2 w3); [exact Hc2 |].
      now apply conserved_same_names.
    + apply (conserved_trans _ _ w w1 w3); [now apply conserved_same_names |].
      apply (conserved_trans _ _ w1 w2 w3); [now apply conserved_same_names | exact Hc3].
  - split; now apply conserved_same_names.
Qed.

Lemma execute_one_log now st plan_name :
  let st' := execute_one now st plan_name in
  exists new,
    mail_log (world st') = (mail_log (world st) ++ new)%list /\
    (length new <= 1)%nat /\
    Forall reply_subject_ok new /\
    executed_count st' = executed_count st + accepted new.
Proof.
  cbv zeta. unfold execute_one.
  destruct (decide (stem plan_name ∈ processed_plans (executor st))).
  - exists []. rewrite app_nil_r. repeat split; [simpl; lia | constructor |].
    unfold accepted. simpl. lia.
  - pose proof (execute_plan_log now plan_name (stem plan_name) (executor st) (world st))
      as H.
    cbv zeta in H.
    destruct (_execute_plan now plan_name (stem plan_name) (executor st) (world st))
      as [[success ex1] w1].
    cbn [fst snd world executed_count] in *.
    destruct H as (new & Hl & Hk & Hok & Hacc).
    exists new. repeat split; try assumption.
    rewrite Hacc. now destruct success; lia.
Qed.

Lemma execute_one_effect now st plan_name :
  endswith ".md" plan_name = true ->
  plain_email_files (approved (world st)) = true ->
  let st' := execute_one now st plan_name in
  conserved Approved Done (world st) (world st') /\
  conserved Needs_Action Inbox (world st) (world st').
Proof.
  intros Hmd Hplain. cbv zeta. unfold execute_one.
  destruct (decide (stem plan_name ∈ processed_plans (executor st))).
  - split; apply conserved_refl.
  - assert (H := execute_plan_effect now plan_name (executor st) (world st) Hmd
                   (fun content => plain_email_files_lookup _ plan_name content Hplain)).
    cbv zeta in H.
    destruct (_execute_plan now plan_name (stem plan_name) (executor st) (world st))
      as [[success ex1] w1].
    exact H.
Qed.

Lemma execute_loop_log now files st :
  let st' := fold_left (execute_one now) files st in
  exists new,
    mail_log (world st') = (mail_log (world st) ++ new)%list /\
    (length new <= length files)%nat /\
    Forall reply_subject_ok new /\
    executed_count st' = executed_count st + accepted new.
Proof.
  revert st. induction files as [|f files IH]; intros st; cbv zeta.
  - simpl. exists []. rewrite app_nil_r. repeat split; [simpl; lia | constructor |].
    unfold accepted. simpl. lia.
  - simpl fold_left.
    destruct (execute_one_log now st f) as (new1 & Hl1 & Hk1 & Hok1 & Ha1).
    destruct (IH (execute_one now st f)) as (new2 & Hl2 & Hk2 & Hok2 & Ha2).
    exists (new1 ++ new2)%list.
    split; [now rewrite Hl2, Hl1, <- app_assoc |].
    split; [rewrite length_app; simpl; lia |].
    split; [now apply Forall_app |].
    rewrite Ha2, Ha1, accepted_app. lia.
Qed.

Lemma execute_loop_effect now files st :
  List.Forall (fun name => endswith ".md" name = true) files ->
  plain_email_files (approved (world st)) = true ->
  let st' := fold_left (execute_one now) files st in
  conserved Approved Done (world st) (world st') /\
  conserved Needs_Action Inbox (world st) (world st').
Proof.
  intros Hall. revert st. induction Hall as [|f files Hf Hfiles IH];
    intros st Hplain; cbv zeta.
  - simpl. split; apply conserved_refl.
  - simpl fold_left.
    destruct (execute_one_effect now st f Hf Hplain) as (Hc1 & Hc2).
    destruct (ExecutorFacts.execute_one_keeps now st f) as (_ & _ & Hsub & _).
    destruct (IH (execute_one now st f)) as (Ic1 & Ic2).
    { exact (plain_email_files_subseteq _ _ Hsub Hplain). }
    split; eapply conserved_trans; eassumption.
Qed.

Lemma plan_files_md w : List.Forall (fun name => endswith ".md" name = true) (plan_files w).
Proof.
  apply List.Forall_forall. intros name Hin. unfold plan_files, glob in Hin.
  apply filter_In in Hin as [_ Hm]. unfold glob_match in Hm.
  apply andb_true_iff in Hm as [Hm _]. now apply andb_true_iff in Hm as [_ Hm].
Qed.

Lemma names_save_processed ex f w : names f (_save_processed_plans ex w) = names f w.
Proof. now destruct f. Qed.

Lemma mail_log_save_processed ex w : mail_log (_save_processed_plans ex w) = mail_log w.
Proof. reflexivity. Qed.

(** X17.  When every plan in Approved gives as its email file a text
    without a slash, check_and_execute loses no file: a plan that was in
    Approved is afterwards in Approved or in Done, an email that was in
    Needs_Action is afterwards in Needs_Action or in Inbox, and nothing
    leaves Done or Inbox. *)
Theorem executor_loses_no_file (now : Clock) (ex : ApprovedPlanExecutor) (w : World) :
  plain_email_files (approved w) = true ->
  let w' := snd (check_and_execute now ex w) in
  (forall name, is_Some (approved w !! name) ->
                is_Some (approved w' !! name) \/ is_Some (done w' !! name)) /\
  (forall name, is_Some (needs_action w !! name) ->
                is_Some (needs_action w' !! name) \/ is_Some (inbox w' !! name)) /\
  (forall name, is_Some (done w !! name) -> is_Some (done w' !! name)) /\
  (forall name, is_Some (inbox w !! name) -> is_Some (inbox w' !! name)).
Proof.
  intros Hplain. cbv zeta. unfold check_and_execute. cbn [snd].
  destruct (execute_loop_effect now (plan_files w) (mkLoop ex w 0) (plan_files_md w) Hplain)
    as (Hc1 & Hc2).
  cbn [world] in Hc1, Hc2.
  set (st := fold_left (execute_one now) (plan_files w) (mkLoop ex w 0)) in *.
  set (w' := if 0 <? executed_count st
             then _save_processed_plans (executor st) (world st) else world st).
  assert (Hn : forall f, names f w' = names f (world st)).
  { intros f. unfold w'. destruct (0 <? executed_count st); [| reflexivity].
    apply names_save_processed. }
  assert (C1 : conserved Approved Done w w').
  { eapply conserved_trans; [exact Hc1 | now apply conserved_same_names]. }
  assert (C2 : conserved Needs_Action Inbox w w').
  { eapply conserved_trans; [exact Hc2 | now apply conserved_same_names]. }
  apply conserved_lookup in C1 as [A1 A2]. apply conserved_lookup in C2 as [B1 B2].
  split; [exact A1 |]. split; [exact B1 |]. split; [exact A2 | exact B2].
Qed.

Lemma executor_loses_no_file_witness :
  let w := PlanSamples.invoice_watcher_world in
  let w' := snd (check_and_execute Samples.later (Samples.fresh_executor w) w) in
  plain_email_files (approved w) = true /\
  (is_Some (approved w' !! "PLAN_20260109_120000_Invoice.md") \/
   is_Some (done w' !! "PLAN_20260109_120000_Invoice.md")) /\
  (is_Some (needs_action w' !! "EMAIL - Invoice_18c2f0a9.md") \/
   is_Some (inbox w' !! "EMAIL - Invoice_18c2f0a9.md")).
Proof.
  cbv zeta.
  assert (Hp : plain_email_files (approved PlanSamples.invoice_watcher_world) = true)
    by (vm_compute; reflexivity).
  destruct (executor_loses_no_file Samples.later
              (Samples.fresh_executor PlanSamples.invoice_watcher_world)
              PlanSamples.invoice_watcher_world Hp) as (A & B & _).
  split; [exact Hp |]. split; [apply A | apply B]; vm_compute; eauto.
Defined.

(** X29.  The executor follows the path a plan gives as its email file:
    for an approved plan with the line 'email_file: ../Done/NOTES.md'
    and an accepted reply, check_and_execute returns 1, moves the plan
    to Done, and rewrites and removes the file NOTES.md of Done, while
    Needs_Action and Inbox stay as they were. *)
Lemma executor_follows_path :
  let w := Samples.stray_approved_world in
  let r := check_and_execute Samples.later (Samples.fresh_executor w) w in
  plain_email_files (approved w) = false /\
  is_Some (done w !! "NOTES.md") /\
  fst (fst r) = 1 /\
  is_Some (done (snd r) !! "PLAN_20260109_120000_Hello.md") /\
  done (snd r) !! "NOTES.md" = None /\
  needs_action (snd r) = needs_action w /\
  inbox (snd r) = inbox w.
Proof. vm_compute. repeat split; eauto. Qed.

(** X18.  check_and_execute calls the send capability at most once for
    each listed plan, always with the subject of a reply, and the number
    it returns is the number of those calls that were accepted. *)
Theorem executor_counts_accepted_sends (now : Clock) (ex : ApprovedPlanExecutor)
    (w : World) :
  let r := check_and_execute now ex w in
  exists new,
    mail_log (snd r) = (mail_log w ++ new)%list /\
    (length new <= length (plan_files w))%nat /\
    Forall reply_subject_ok new /\
    fst (fst r) = accepted new.
Proof.
  cbv zeta. unfold check_and_execute. cbn [fst snd].
  destruct (execute_loop_log now (plan_files w) (mkLoop ex w 0))
    as (new & Hl & Hk & Hok & Ha).
  cbn [world executed_count] in *.
  exists new. split; [| split; [exact Hk | split; [exact Hok | lia]]].
  destruct (0 <? executed_count _); [rewrite mail_log_save_processed |]; exact Hl.
Qed.

End ExecutorMore.

(** * What reaches the cache file of the executor *)

Module ExecutorCache.
Import PyStr Store Executor.

Lemma cache_set_folder f m w :
  executor_cache_file (set_folder f m w) = executor_cache_file w.
Proof. now destruct f. Qed.

Lemma cache_move_plan_to_done now plan_name plan_id recipient content w :
  executor_cache_file (_move_plan_to_done now plan_name plan_id recipient content w)
  = executor_cache_file w.
Proof.
  unfold _move_plan_to_done.
  destruct (match_frontmatter content) as [[frontmatter rest]|]; [| reflexivity].
  unfold unlink, write_text. now rewrite !cache_set_folder.
Qed.

Lemma cache_move_email_to_inbox now email_filename plan_id w :
  executor_cache_file (_move_email_to_inbox now email_filename plan_id w)
  = executor_cache_file w.
Proof.
  destruct (ExecutorFacts.move_email_to_inbox_shape now email_filename plan_id w)
    as [-> | (f & g & name & content & _ & _ & _ & _ & ->)]; [reflexivity |].
  unfold unlink, write_text. now rewrite !cache_set_folder.
Qed.

Lemma cache_execute_plan now plan_name plan_id ex w :
  executor_cache_file (snd (_execute_plan now plan_name plan_id ex w))
  = executor_cache_file w.
Proof.
  unfold _execute_plan.
  destruct (approved w !! plan_name) as [content|]; [| reflexivity].
  destruct (search_field "email_file:" content) as [email_file_group|]; [| reflexivity].
  destruct (search_field "from:" content) as [recipient_group|]; [| reflexivity].
  destruct (match search_with fenced_reply_at content with
            | Some g => Some g
            | None => search_with plain_reply_at content
            end) as [g|]; [| reflexivity].
  destruct (_get_email_sender ex w) as [available ex1].
  destruct available; cbn [negb]; [| reflexivity].
  unfold send_email.
  destruct (match mailer w with [] => false | b :: _ => b end); cbn [snd];
    [| reflexivity].
  now rewrite cache_move_email_to_inbox, cache_move_plan_to_done.
Qed.

Lemma cache_execute_one now st plan_name :
  executor_cache_file (world (execute_one now st plan_name))
  = executor_cache_file (world st).
Proof.
  unfold execute_one.
  destruct (decide (stem plan_name ∈ processed_plans (executor st))); [reflexivity |].
  pose proof (cache_execute_plan now plan_name (stem plan_name) (executor st) (world st))
    as H.
  destruct (_execute_plan now plan_name (stem plan_name) (executor st) (world st))
    as [[success ex1] w1].
  exact H.
Qed.

Lemma cache_execute_loop now files st :
  executor_cache_file (world (fold_left (execute_one now) files st))
  = executor_cache_file (world st).
Proof.
  revert st. induction files as [|f files IH]; intros st; [reflexivity |].
  simpl. now rewrite IH, cache_execute_one.
Qed.

(** X19.  The marks of the executor reach its cache file only in a run
    that executed a plan: when check_and_execute returns 0 the cache file
    is left as it was, so an executor built afterwards starts from the
    ids the file held before the run; when it returns another number, an
    executor built afterwards starts with exactly the ids the run ended
    with. *)
Theorem executor_persists_marks (now : Clock) (ex : ApprovedPlanExecutor) (w : World) :
  let r := check_and_execute now ex w in
  (fst (fst r) = 0 ->
   executor_cache_file (snd r) = executor_cache_file w /\
   processed_plans (new_executor (snd r)) = processed_plans (new_executor w)) /\
  (fst (fst r) <> 0 ->
   processed_plans (new_executor (snd r)) = processed_plans (snd (fst r))).
Proof.
  cbv zeta. unfold check_and_execute. cbn [fst snd].
  pose proof (cache_execute_loop now (plan_files w) (mkLoop ex w 0)) as Hc.
  destruct (ExecutorFacts.execute_loop_keeps now (plan_files w) (mkLoop ex w 0))
    as (_ & _ & _ & Hpos & _).
  cbn [world executed_count] in Hc, Hpos.
  set (st := fold_left (execute_one now) (plan_files w) (mkLoop ex w 0)) in *.
  split.
  - intros H0. rewrite H0. cbn [Z.ltb Z.compare].
    split; [exact Hc |]. unfold new_executor, _load_processed_plans. now rewrite Hc.
  - intros Hne. assert (H : (0 <? executed_count st) = true) by (apply Z.ltb_lt; lia).
    rewrite H. unfold new_executor, _load_processed_plans, _save_processed_plans.
    cbn [processed_plans executor_cache_file set_executor_cache].
    apply list_to_set_elements_L.
Qed.

End ExecutorCache.

(** * Properties of the mover of answered emails *)

Module MoverFacts.
Import PyStr Store Mover Ledger Scan PlainNames StringFacts StoreMore.

(** What one turn of the loop does: the listed id is marked, no mark is
    lost, and either the folders stay as they are, or the email the plan
    names is moved along the two paths built from that text and the
    count goes up by one. *)
Lemma move_one_shape now st plan_name :
  let st' := move_one now st plan_name in
  stem plan_name ∈ processed_plans (mover st') /\
  processed_plans (mover st) ⊆ processed_plans (mover st') /\
  ((folders st' = folders st /\ moved_count st' = moved_count st) \/
   (exists plan group f g email content new,
      done (folders st) !! plan_name = Some plan /\
      Executor.search_field "email_file:" plan = Some group /\
      locate Needs_Action (strip group) = File_of f email /\
      locate Inbox (strip group) = File_of g email /\
      (g = f \/ (f = Needs_Action /\ g = Inbox)) /\
      folder f (folders st) !! email = Some content /\
      folders st' = unlink f email (write_text g email new (folders st)) /\
      moved_count st' = moved_count st + 1)).
Proof.
  cbv zeta. unfold move_one.
  destruct (decide (stem plan_name ∈ processed_plans (mover st))) as [Hin | Hn].
  - split; [exact Hin |]. split; [reflexivity | now left].
  - assert (Hm : forall w c,
        stem plan_name ∈ processed_plans
          (mover (mkLoop (mkMover ({[stem plan_name]} ∪ processed_plans (mover st))) w c)) /\
        processed_plans (mover st) ⊆ processed_plans
          (mover (mkLoop (mkMover ({[stem plan_name]} ∪ processed_plans (mover st))) w c))).
    { intros w c. cbn [mover processed_plans]. set_solver. }
    destruct (done (folders st) !! plan_name) as [plan|] eqn:Hplan;
      [| split; [exact (proj1 (Hm _ _)) | split; [exact (proj2 (Hm _ _)) | now left]]].
    destruct (Executor.search_field "email_file:" plan) as [group|] eqn:Hgroup;
      [| split; [exact (proj1 (Hm _ _)) | split; [exact (proj2 (Hm _ _)) | now left]]].
    destruct (locate Needs_Action (strip group)) as [| | |f email|] eqn:E1;
      try (split; [exact (proj1 (Hm _ _)) | split; [exact (proj2 (Hm _ _)) | now left]]).
    destruct (locate Inbox (strip group)) as [| | |g email'|] eqn:E2;
      try (split; [exact (proj1 (Hm _ _)) | split; [exact (proj2 (Hm _ _)) | now left]]).
    destruct (PathFacts.locate_pair _ _ _ _ _ E1 E2) as [-> Hfg].
    destruct (folder f (folders st) !! email) as [email_content|] eqn:E;
      [| split; [exact (proj1 (Hm _ _)) | split; [exact (proj2 (Hm _ _)) | now left]]].
    destruct (Executor.match_frontmatter email_content) as [[frontmatter rest]|];
      [| split; [exact (proj1 (Hm _ _)) | split; [exact (proj2 (Hm _ _)) | now left]]].
    split; [exact (proj1 (Hm _ _)) | split; [exact (proj2 (Hm _ _)) |]]. right.
    exists plan, group, f, g, email, email_content. eexists.
    repeat (split; [reflexivity || assumption |]). reflexivity.
Qed.

Lemma size_names_moved email content new w :
  needs_action w !! email = Some content ->
  Z.of_nat (size (names Needs_Action
                    (unlink Needs_Action email (write_text Inbox email new w)))) + 1
  = Z.of_nat (size (names Needs_Action w)).
Proof.
  intros H. rewrite names_unlink, names_write_text.
  destruct (decide (Needs_Action = Needs_Action)) as [_ | ?]; [| contradiction].
  destruct (decide (Inbox = Needs_Action)) as [? | _]; [discriminate |].
  assert (Hin : email ∈ names Needs_Action w).
  { unfold names. cbn [folder]. apply elem_of_dom. now exists content. }
  assert (Hs : size (names Needs_Action w) =
               (size ({[email]} : gset string) + size (names Needs_Action w ∖ {[email]}))%nat).
  { rewrite <- size_union by set_solver. f_equal.
    apply set_eq. intros x. destruct (decide (x = email)) as [-> | ?]; set_solver. }
  rewrite Hs, size_singleton. lia.
Qed.

(** Whatever the plans say: every listed id is marked, no mark is lost,
    no folder but Inbox gains a file or has one rewritten, nothing is
    sent and the count does not go down. *)
Lemma move_loop_keeps now files st :
  let st' := fold_left (move_one now) files st in
  (forall name, In name files -> stem name ∈ processed_plans (mover st')) /\
  processed_plans (mover st) ⊆ processed_plans (mover st') /\
  (forall f, f <> Inbox -> folder f (folders st') ⊆ folder f (folders st)) /\
  mail_log (folders st') = mail_log (folders st) /\
  moved_count st <= moved_count st'.
Proof.
  revert st. induction files as [|f files IH]; intros st; cbv zeta.
  - simpl. split; [intros name [] |]. split; [reflexivity |].
    split; [reflexivity |]. split; [reflexivity | lia].
  - simpl fold_left.
    destruct (IH (move_one now st f)) as (I1 & I2 & I3 & I4 & I5).
    destruct (move_one_shape now st f) as (S1 & S2 & S3).
    split.
    { intros name [<- | Hin]; [apply I2, S1 | now apply I1]. }
    split; [etransitivity; eassumption |].
    destruct S3 as [[Ew Ec] |
                    (plan & group & f1 & g1 & email & content & new &
                     _ & _ & _ & _ & Hfg & _ & Ew & Ec)].
    + rewrite Ew, Ec in *. split; [exact I3 |]. split; [exact I4 | exact I5].
    + split.
      { intros h Hh. etransitivity; [exact (I3 h Hh) |]. rewrite Ew.
        now apply PathFacts.moved_folder. }
      split; [now rewrite I4, Ew, mail_log_unlink, mail_log_write_text | lia].
Qed.

(** When the plans in Done name their emails by file names, emails only
    go from Needs_Action to Inbox, and each one counts. *)
Lemma move_loop_effect now files st :
  plain_email_files (done (folders st)) = true ->
  let st' := fold_left (move_one now) files st in
  conserved Needs_Action Inbox (folders st) (folders st') /\
  (forall f, f <> Needs_Action -> f <> Inbox ->
             folder f (folders st') = folder f (folders st)) /\
  Z.of_nat (size (names Needs_Action (folders st'))) + moved_count st'
  = Z.of_nat (size (names Needs_Action (folders st))) + moved_count st.
Proof.
  revert st. induction files as [|f files IH]; intros st Hplain; cbv zeta.
  - simpl. split; [apply conserved_refl |]. split; reflexivity.
  - simpl fold_left.
    destruct (move_one_shape now st f) as (_ & _ & S3).
    destruct S3 as [[Ew Ec] |
                    (plan & group & f1 & g1 & email & content & new &
                     Hplan & Hgroup & E1 & E2 & _ & Hl & Ew & Ec)].
    + destruct (IH (move_one now st f)) as (I3 & I4 & I6); [now rewrite Ew |].
      rewrite Ew, Ec in *. split; [exact I3 |]. split; [exact I4 | exact I6].
    + assert (Hp : no_char "/" (strip group) = true).
      { pose proof (ExecutorMore.plain_email_files_lookup _ _ _ Hplain Hplan) as H.
        unfold plain_email_file in H. now rewrite Hgroup in H. }
      apply (PathFacts.locate_plain _ _ _ _ Hp) in E1 as [-> ->].
      apply (PathFacts.locate_plain _ _ _ _ Hp) in E2 as [-> _].
      cbn [folder] in Hl.
      assert (Hd : forall g, g <> Needs_Action -> g <> Inbox ->
                  folder g (folders (move_one now st f)) = folder g (folders st)).
      { intros g Hg1 Hg2. rewrite Ew.
        rewrite folder_unlink_other by congruence.
        now rewrite folder_write_other by congruence. }
      destruct (IH (move_one now st f)) as (I3 & I4 & I6).
      { change (done (folders (move_one now st f)))
          with (folder Done (folders (move_one now st f))).
        rewrite Hd by discriminate. exact Hplain. }
      assert (C : conserved Needs_Action Inbox (folders st) (folders (move_one now st f))).
      { rewrite Ew. unfold conserved. rewrite !names_unlink, !names_write_text.
        repeat (destruct (decide _) as [? | ?]; try discriminate; try contradiction).
        split; [| set_solver].
        intros x Hx. destruct (decide (x = strip group)) as [-> | Hxn]; set_solver. }
      split; [eapply conserved_trans; eassumption |].
      split.
      { intros g Hg1 Hg2. now rewrite (I4 g Hg1 Hg2), Hd. }
      rewrite I6, Ec, Ew.
      pose proof (size_names_moved (strip group) content new (folders st) Hl).
      lia.
Qed.

Lemma move_loop_all_processed now files st :
  (forall name, In name files -> stem name ∈ processed_plans (mover st)) ->
  fold_left (move_one now) files st = st.
Proof.
  induction files as [|f files IH]; intros H; [reflexivity |].
  simpl. assert (E : move_one now st f = st).
  { unfold move_one. destruct (decide _) as [_ | Hn]; [reflexivity |].
    exfalso. apply Hn, H. now left. }
  rewrite E. apply IH. intros name Hin. apply H. now right.
Qed.

(** A folder that has only lost files lists no new plan. *)
Lemma plan_files_subseteq w w' name :
  done w' ⊆ done w -> In name (plan_files w') -> In name (plan_files w).
Proof.
  unfold plan_files, glob. intros Hsub Hin.
  apply filter_In in Hin as [Hin Hm]. apply filter_In. split; [| exact Hm].
  apply in_map_iff in Hin as ([name' content] & <- & Hin).
  apply in_map_iff. exists (name', content). split; [reflexivity |].
  apply list_elem_of_In, elem_of_map_to_list.
  apply list_elem_of_In, elem_of_map_to_list in Hin.
  exact (lookup_weaken _ _ _ _ Hin Hsub).
Qed.

(** X20.  When every plan in Done gives as its email file a text without
    a slash, check_and_move only takes emails from Needs_Action to
    Inbox: no email name is lost, every other folder stays as it was,
    nothing is sent, and the number it returns is the number of files by
    which Needs_Action has shrunk. *)
Theorem mover_moves_only_emails (now : Clock) (mv : EmailToInboxMover) (v : Vault) :
  plain_email_files (done (world v)) = true ->
  let r := check_and_move now mv v in
  let w := world v in
  let w' := world (snd r) in
  (forall name, is_Some (needs_action w !! name) ->
                is_Some (needs_action w' !! name) \/ is_Some (inbox w' !! name)) /\
  (forall name, is_Some (inbox w !! name) -> is_Some (inbox w' !! name)) /\
  (forall f, f <> Needs_Action -> f <> Inbox -> folder f w' = folder f w) /\
  mail_log w' = mail_log w /\
  Z.of_nat (size (dom (needs_action w'))) + fst (fst r) = Z.of_nat (size (dom (needs_action w))) /\
  0 <= fst (fst r).
Proof.
  intros Hplain. cbv zeta. unfold check_and_move. cbn [fst snd].
  destruct (move_loop_effect now (plan_files (world v)) (mkLoop mv (world v) 0) Hplain)
    as (Hc & Hf & Hs).
  destruct (move_loop_keeps now (plan_files (world v)) (mkLoop mv (world v) 0))
    as (_ & _ & _ & Hl & Hpos).
  cbn [folders moved_count] in *.
  set (st := fold_left (move_one now) (plan_files (world v)) (mkLoop mv (world v) 0)) in *.
  assert (Hw : world (if 0 <? moved_count st
                      then _save_processed_plans (mover st)
                             (mkVault (folders st) (processed_plans_file v))
                      else mkVault (folders st) (processed_plans_file v)) = folders st)
    by (now destruct (0 <? moved_count st)).
  rewrite Hw.
  destruct (ExecutorMore.conserved_lookup _ _ _ _ Hc) as [A1 A2].
  split; [exact A1 |]. split; [exact A2 |]. split; [exact Hf |]. split; [exact Hl |].
  unfold names in Hs. cbn [folder] in Hs. split; [lia | exact Hpos].
Qed.

Lemma mover_moves_only_emails_witness :
  let v := mkVault Samples.completed_world None in
  let r := check_and_move Samples.later (new_mover v) v in
  plain_email_files (done (world v)) = true /\
  Z.of_nat (size (dom (needs_action (world (snd r))))) + fst (fst r) = 1 /\
  done (world (snd r)) = done (world v).
Proof.
  cbv zeta.
  assert (Hp : plain_email_files (done (world (mkVault Samples.completed_world None)))
               = true) by (vm_compute; reflexivity).
  destruct (mover_moves_only_emails Samples.later
              (new_mover (mkVault Samples.completed_world None))
              (mkVault Samples.completed_world None) Hp) as (_ & _ & Hf & _ & Hs & _).
  split; [exact Hp |]. split.
  - etransitivity; [exact Hs | vm_compute; reflexivity].
  - apply (Hf Done); discriminate.
Defined.

(** X30.  The mover follows the path a plan gives as its email file: for
    a plan in Done with the line 'email_file: ../Done/NOTES.md',
    check_and_move returns 1 and rewrites and removes the file NOTES.md
    of Done, while Needs_Action and Inbox stay as they were. *)
Lemma mover_follows_path :
  let v := mkVault Samples.stray_done_world None in
  let r := check_and_move Samples.later (new_mover v) v in
  plain_email_files (done (world v)) = false /\
  is_Some (done (world v) !! "NOTES.md") /\
  fst (fst r) = 1 /\
  done (world (snd r)) !! "NOTES.md" = None /\
  needs_action (world (snd r)) = needs_action (world v) /\
  inbox (world (snd r)) = inbox (world v).
Proof. vm_compute. repeat split; eauto. Qed.

(** X21.  check_and_move marks every plan it lists in Done, and a second
    call on the same mover moves nothing: it returns 0 and leaves the
    mover, the folders and the cache file as they are. *)
Theorem mover_second_call_moves_nothing (now now2 : Clock) (mv : EmailToInboxMover)
    (v : Vault) :
  let first := check_and_move now mv v in
  let mv1 := snd (fst first) in
  let v1 := snd first in
  (forall name, In name (plan_files (world v)) -> stem name ∈ processed_plans mv1) /\
  processed_plans mv ⊆ processed_plans mv1 /\
  check_and_move now2 mv1 v1 = (0, mv1, v1).
Proof.
  cbv zeta.
  destruct (move_loop_keeps now (plan_files (world v)) (mkLoop mv (world v) 0))
    as (Hall & Hsub & Hf & _).
  cbn [folders mover] in *.
  set (st := fold_left (move_one now) (plan_files (world v)) (mkLoop mv (world v) 0)) in *.
  set (v1 := if 0 <? moved_count st
             then _save_processed_plans (mover st)
                    (mkVault (folders st) (processed_plans_file v))
             else mkVault (folders st) (processed_plans_file v)).
  change (check_and_move now mv v) with (moved_count st, mover st, v1).
  cbn [fst snd].
  split; [exact Hall |]. split; [exact Hsub |].
  assert (Hw : world v1 = folders st) by (unfold v1; now destruct (0 <? moved_count st)).
  assert (Hfiles : forall name, In name (plan_files (world v1)) ->
                                stem name ∈ processed_plans (mover st)).
  { intros name Hin. apply Hall. rewrite Hw in Hin.
    apply (plan_files_subseteq (world v) (folders st)); [| exact Hin].
    apply (Hf Done). discriminate. }
  unfold check_and_move. rewrite move_loop_all_processed by exact Hfiles.
  cbn [moved_count mover folders Z.ltb Z.compare]. now destruct v1.
Qed.

(** X22.  The marks of the mover reach its cache file only in a call that
    moved an email: when check_and_move returns 0 the file is left as it
    was, and otherwise a mover built afterwards starts with exactly the
    ids the call ended with. *)
Theorem mover_persists_marks (now : Clock) (mv : EmailToInboxMover) (v : Vault) :
  let r := check_and_move now mv v in
  (fst (fst r) = 0 -> processed_plans_file (snd r) = processed_plans_file v) /\
  (fst (fst r) <> 0 ->
   processed_plans (new_mover (snd r)) = processed_plans (snd (fst r))).
Proof.
  cbv zeta. unfold check_and_move. cbn [fst snd].
  destruct (move_loop_keeps now (plan_files (world v)) (mkLoop mv (world v) 0))
    as (_ & _ & _ & _ & Hpos).
  cbn [moved_count] in Hpos.
  set (st := fold_left (move_one now) (plan_files (world v)) (mkLoop mv (world v) 0)) in *.
  split.
  - intros H0. rewrite H0. reflexivity.
  - intros Hne. assert (H : (0 <? moved_count st) = true) by (apply Z.ltb_lt; lia).
    rewrite H. unfold new_mover, _load_processed_plans, _save_processed_plans.
    cbn [processed_plans processed_plans_file]. apply list_to_set_elements_L.
Qed.

End MoverFacts.

(** * Facts about searching a text for a key *)

Module ScanFacts.
Import PyStr PyStrMore Scan Executor StringFacts.

Lemma append_nil_l (s : string) : "" +:+ s = s.
Proof. reflexivity. Qed.

Lemma append_nil_r (s : string) : s +:+ "" = s.
Proof. induction s as [|c s IH]; [reflexivity | rewrite append_cons; now f_equal]. Qed.

Lemma startswith_cons a p b s :
  startswith (String a p) (String b s) = Ascii.eqb a b && startswith p s.
Proof. reflexivity. Qed.

Lemma free_cons key c r :
  free key (String c r) <->
  (forall rest, startswith key (String c (r +:+ rest)) = false) /\ free key r.
Proof. reflexivity. Qed.

Lemma free_app key a b : free key a -> free key b -> free key (a +:+ b).
Proof.
  intros Ha Hb. induction a as [|c a IH]; [exact Hb |].
  rewrite append_cons. apply free_cons. destruct (proj1 (free_cons key c a) Ha) as [H1 H2].
  split; [| now apply IH].
  intros rest. rewrite append_assoc. apply H1.
Qed.

Lemma clash_false key x rest :
  clash key x = false -> startswith key (x +:+ rest) = false.
Proof.
  unfold clash. revert x. induction key as [|k key IH]; intros x H.
  - discriminate.
  - destruct x as [|a x]; [discriminate |].
    rewrite append_cons, startswith_cons.
    rewrite !startswith_cons in H.
    destruct (Ascii.eqb k a) eqn:E; [| reflexivity].
    apply Ascii.eqb_eq in E as ->. rewrite Ascii.eqb_refl in H.
    cbn [andb] in *. now apply IH.
Qed.

Lemma free_b_sound key s : free_b key s = true -> free key s.
Proof.
  induction s as [|c s IH]; [easy |].
  intros H. change (negb (clash key (String c s)) && free_b key s = true) in H.
  apply andb_true_iff in H as [H1 H2]. apply negb_true_iff in H1.
  apply free_cons. split; [| now apply IH].
  intros rest. rewrite <- append_cons. now apply clash_false.
Qed.

Lemma no_char_cons c a s : no_char c (String a s) = negb (Ascii.eqb a c) && no_char c s.
Proof. reflexivity. Qed.

(** A key without the character [c] that matches at the start of
    [v ++ c ...] matches inside [v]. *)
Lemma startswith_before_sep key c v rest :
  no_char c key = true ->
  startswith key (v +:+ String c rest) = true -> startswith key v = true.
Proof.
  revert v. induction key as [|k key IH]; intros v Hc H; [reflexivity |].
  rewrite no_char_cons in Hc. apply andb_true_iff in Hc as [Hk Hc].
  destruct v as [|a v].
  - rewrite append_nil_l, startswith_cons in H.
    apply andb_true_iff in H as [H _]. now rewrite H in Hk.
  - rewrite append_cons, startswith_cons in H. rewrite startswith_cons.
    apply andb_true_iff in H as [H1 H2]. rewrite H1. now apply IH.
Qed.

Lemma contains_cons key a v :
  contains key (String a v) = startswith key (String a v) || contains key v.
Proof. reflexivity. Qed.

(** A text without the key, closed by a character the key does not
    have, is free of the key. *)
Lemma free_var_sep key c v :
  key <> "" -> no_char c key = true -> contains key v = false ->
  free key (v +:+ String c "").
Proof.
  intros Hk Hc. induction v as [|a v IH]; intros Hv.
  - rewrite append_nil_l. apply free_cons. split; [| easy].
    intros rest. destruct key as [|k key]; [contradiction |].
    rewrite startswith_cons. rewrite no_char_cons in Hc.
    apply andb_true_iff in Hc as [Hc _]. apply negb_true_iff in Hc. now rewrite Hc.
  - rewrite contains_cons in Hv. apply orb_false_iff in Hv as [Hs Hv].
    rewrite append_cons. apply free_cons. split; [| now apply IH].
    intros rest. rewrite append_assoc, <- append_cons.
    destruct (startswith key (String a v +:+ String c "" +:+ rest)) eqn:E; [| reflexivity].
    rewrite append_cons in E. change (String c "" +:+ rest) with (String c rest) in E.
    rewrite <- append_cons in E.
    apply (startswith_before_sep key c (String a v) rest Hc) in E. congruence.
Qed.

(** A text without the character [c] does not contain a key that has it. *)
Lemma contains_no_char key c v :
  no_char c v = true -> no_char c key = false -> contains key v = false.
Proof.
  intros Hv Hk.
  assert (Hs : forall x, no_char c x = true -> startswith key x = false).
  { clear v Hv. induction key as [|k key IH]; intros x Hx; [discriminate |].
    destruct x as [|a x]; [reflexivity |].
    rewrite startswith_cons. rewrite no_char_cons in Hk, Hx.
    apply andb_true_iff in Hx as [Ha Hx].
    destruct (Ascii.eqb k a) eqn:E; [| reflexivity].
    apply Ascii.eqb_eq in E as ->. rewrite Ha in Hk. cbn [andb] in *. now apply IH. }
  induction v as [|a v IH].
  - change (contains key "") with (startswith key "" || false).
    rewrite (Hs "" eq_refl). reflexivity.
  - rewrite contains_cons, (Hs _ Hv). rewrite no_char_cons in Hv.
    apply andb_true_iff in Hv as [_ Hv]. now apply IH.
Qed.

Lemma search_field_unfold key content :
  search_field key content =
  match (if startswith key content
         then field_at (drop (String.length key) content) else None) with
  | Some g => Some g
  | None =>
      match content with
      | EmptyString => None
      | String _ r => search_field key r
      end
  end.
Proof. now destruct content. Qed.

Lemma search_field_skip key pre rest :
  free key pre -> search_field key (pre +:+ rest) = search_field key rest.
Proof.
  induction pre as [|c pre IH]; intros H; [reflexivity |].
  destruct (proj1 (free_cons key c pre) H) as [H1 H2].
  rewrite append_cons, search_field_unfold, (H1 rest). now apply IH.
Qed.

Lemma search_field_here key rest g :
  field_at rest = Some g -> search_field key (key +:+ rest) = Some g.
Proof.
  intros H. rewrite search_field_unfold, startswith_append, drop_append, H. reflexivity.
Qed.

Lemma search_with_unfold at_start content :
  search_with at_start content =
  match at_start content with
  | Some g => Some g
  | None =>
      match content with
      | EmptyString => None
      | String _ r => search_with at_start r
      end
  end.
Proof. now destruct content. Qed.

Lemma search_with_skip key at_start pre rest :
  (forall x, startswith key x = false -> at_start x = None) ->
  free key pre -> search_with at_start (pre +:+ rest) = search_with at_start rest.
Proof.
  intros Hat. induction pre as [|c pre IH]; intros H; [reflexivity |].
  destruct (proj1 (free_cons key c pre) H) as [H1 H2].
  rewrite append_cons, search_with_unfold, (Hat _ (H1 rest)). now apply IH.
Qed.

End ScanFacts.

(** * Facts about the groups the executor reads *)

Module FieldFacts.
Import PyStr PyStrMore Scan Executor StringFacts ScanFacts.

Lemma lstrip_cons (c : ascii) (s : string) :
  lstrip (String c s) = if isspace c then lstrip s else String c s.
Proof.
  unfold lstrip. simpl. destruct (isspace c); [| reflexivity].
  now destruct (span isspace s).
Qed.

Lemma span_cons p (c : ascii) (s : string) :
  span p (String c s) =
  if p c then (String c (fst (span p s)), snd (span p s)) else (EmptyString, String c s).
Proof. simpl. destruct (p c); [| reflexivity]. now destruct (span p s). Qed.

(** The text after leading whitespace is empty or opens with a character
    that is not whitespace. *)
Lemma lstrip_head (v : string) :
  lstrip v = "" \/ exists c r, lstrip v = String c r /\ isspace c = false.
Proof.
  induction v as [|c v IH]; [now left |].
  rewrite lstrip_cons. destruct (isspace c) eqn:E; [exact IH |].
  right. now exists c, v.
Qed.

Lemma span_isspace_app (v t : string) :
  lstrip v <> "" ->
  span isspace (v +:+ t) = (fst (span isspace v), lstrip v +:+ t).
Proof.
  induction v as [|c v IH]; intros H; [now contradiction H |].
  rewrite lstrip_cons in H. rewrite append_cons, !span_cons, lstrip_cons.
  destruct (isspace c); [| reflexivity].
  rewrite (IH H). reflexivity.
Qed.

Lemma lstrip_app (v t : string) : lstrip v <> "" -> lstrip (v +:+ t) = lstrip v +:+ t.
Proof. intros H. unfold lstrip at 1. now rewrite span_isspace_app. Qed.

Lemma span_line (u tail : string) :
  all_chars not_newline u = true ->
  fst (span not_newline (u +:+ String (ascii_of_nat 10) tail)) = u.
Proof.
  induction u as [|c u IH]; intros H; [reflexivity |].
  change (not_newline c && all_chars not_newline u = true) in H.
  apply andb_true_iff in H as [Hc Hu].
  rewrite append_cons, span_cons, Hc. cbn [fst]. now rewrite (IH Hu).
Qed.

Lemma strip_nonempty (v : string) : strip v <> "" -> lstrip v <> "".
Proof. unfold strip. intros H E. apply H. now rewrite E. Qed.

(** The group of a key whose line holds [v]: the line from its first
    character that is not whitespace. *)
Lemma field_at_line (v tail : string) :
  all_chars not_newline v = true -> strip v <> "" ->
  field_at (String " " (v +:+ String (ascii_of_nat 10) tail)) = Some (lstrip v).
Proof.
  intros Hn Hs. apply strip_nonempty in Hs.
  unfold field_at. rewrite span_cons. change (isspace " ") with true. cbv iota.
  rewrite (span_isspace_app v _ Hs). cbn [fst snd].
  assert (Hl : all_chars not_newline (lstrip v) = true)
    by (now apply all_chars_span_snd).
  destruct (lstrip_head v) as [E | (c & r & E & _)]; [contradiction |].
  pose proof (span_line (lstrip v) tail Hl) as Hsp.
  rewrite E in *. rewrite append_cons in *. now rewrite Hsp.
Qed.

Lemma lstrip_idem (v : string) : lstrip (lstrip v) = lstrip v.
Proof.
  destruct (lstrip_head v) as [-> | (c & r & -> & Hc)]; [reflexivity |].
  now rewrite lstrip_cons, Hc.
Qed.

Lemma strip_lstrip (v : string) : strip (lstrip v) = strip v.
Proof. unfold strip. now rewrite lstrip_idem. Qed.

Lemma rstrip_cons (c : ascii) (s : string) :
  rstrip (String c s) =
  match rstrip s with
  | EmptyString => if isspace c then EmptyString else String c EmptyString
  | r' => String c r'
  end.
Proof. reflexivity. Qed.

Lemma rstrip_cons_visible (c : ascii) (s : string) :
  isspace c = false -> rstrip (String c s) = String c (rstrip s).
Proof. intros H. rewrite rstrip_cons, H. now destruct (rstrip s). Qed.

Lemma rstrip_idem (s : string) : rstrip (rstrip s) = rstrip s.
Proof.
  induction s as [|c s IH]; [reflexivity |].
  rewrite rstrip_cons. destruct (rstrip s) as [|d r] eqn:E.
  - destruct (isspace c) eqn:Ec; [reflexivity |].
    now rewrite rstrip_cons, Ec.
  - rewrite rstrip_cons, IH. reflexivity.
Qed.

Lemma strip_idem (s : string) : strip (strip s) = strip s.
Proof.
  unfold strip. destruct (lstrip_head s) as [-> | (c & r & -> & Hc)]; [reflexivity |].
  rewrite rstrip_cons_visible by exact Hc.
  rewrite lstrip_cons, Hc, <- rstrip_cons_visible by exact Hc.
  apply rstrip_idem.
Qed.

(** Whether the closing fence comes next after [u], for a [u] without
    backticks: exactly when [u] is whitespace only. *)
Lemma closer_after (u tail : string) :
  no_char "`" u = true ->
  startswith "```" (lstrip tail) = true ->
  startswith "```" (lstrip (u +:+ tail)) =
  match rstrip u with EmptyString => true | _ => false end.
Proof.
  intros Hu Ht. induction u as [|c u IH]; [exact Ht |].
  rewrite no_char_cons in Hu. apply andb_true_iff in Hu as [Hc Hu].
  rewrite append_cons, lstrip_cons, rstrip_cons.
  destruct (isspace c) eqn:E.
  - rewrite (IH Hu). now destruct (rstrip u).
  - rewrite startswith_cons. apply negb_true_iff in Hc.
    rewrite Ascii.eqb_sym, Hc. now destruct (rstrip u).
Qed.

Lemma lazy_until_unfold closer s :
  lazy_until closer s =
  if startswith closer (lstrip s) then Some EmptyString
  else match s with
       | EmptyString => None
       | String c r => option_map (String c) (lazy_until closer r)
       end.
Proof. now destruct s. Qed.

(** The lazy group before the closing fence is the text without its
    trailing whitespace. *)
Lemma lazy_until_fence (u tail : string) :
  no_char "`" u = true ->
  startswith "```" (lstrip tail) = true ->
  lazy_until "```" (u +:+ tail) = Some (rstrip u).
Proof.
  intros Hu Ht. induction u as [|c u IH].
  - rewrite append_nil_l, lazy_until_unfold, Ht. reflexivity.
  - pose proof (closer_after (String c u) tail Hu Ht) as Hc.
    rewrite no_char_cons in Hu. apply andb_true_iff in Hu as [Hcc Hu].
    rewrite append_cons in *.
    rewrite lazy_until_unfold, Hc, (IH Hu). rewrite rstrip_cons.
    destruct (rstrip u) as [|d r]; [| reflexivity].
    now destruct (isspace c).
Qed.

End FieldFacts.

(** * The plans of the watcher read back by the executor *)

Module PlanTextFacts.
Import PyStr PyStrMore Analyzer Store Executor Watcher Scan PlanText.
Import StringFacts ScanFacts FieldFacts.

Lemma contains_unfold key hay :
  contains key hay =
  startswith key hay ||
  match hay with
  | EmptyString => false
  | String _ r => contains key r
  end.
Proof. now destruct hay. Qed.

Lemma startswith_nil s : startswith "" s = true.
Proof. now destruct s. Qed.

Lemma startswith_app_r key x t :
  startswith key x = true -> startswith key (x +:+ t) = true.
Proof.
  revert x. induction key as [|k key IH]; intros x H; [apply startswith_nil |].
  destruct x as [|a x]; [discriminate |].
  rewrite append_cons, startswith_cons. rewrite startswith_cons in H.
  apply andb_true_iff in H as [H1 H2]. now rewrite H1, IH.
Qed.

Lemma contains_app_r key x t : contains key t = true -> contains key (x +:+ t) = true.
Proof.
  intros H. induction x as [|a x IH]; [exact H |].
  rewrite append_cons, contains_cons, IH. apply orb_true_r.
Qed.

Lemma contains_app_l key x t : contains key x = true -> contains key (x +:+ t) = true.
Proof.
  induction x as [|a x IH]; intros H.
  - rewrite contains_unfold, orb_false_r in H.
    rewrite append_nil_l, contains_unfold.
    destruct key; [now rewrite startswith_nil | discriminate].
  - rewrite contains_cons in H. rewrite append_cons, contains_cons.
    apply orb_true_iff in H as [H | H].
    + rewrite <- append_cons, (startswith_app_r _ _ t H). reflexivity.
    + rewrite (IH H). apply orb_true_r.
Qed.

Lemma span_app p (s : string) : fst (span p s) +:+ snd (span p s) = s.
Proof.
  induction s as [|c s IH]; [reflexivity |].
  rewrite span_cons. destruct (p c); [| reflexivity].
  cbn [fst snd]. rewrite append_cons. now f_equal.
Qed.

Lemma rstrip_chars_prefix p (s : string) : exists t, s = rstrip_chars p s +:+ t.
Proof.
  induction s as [|c s [t IH]]; [now exists "" |].
  simpl. destruct (rstrip_chars p s) as [|d r].
  - destruct (p c).
    + now exists (String c s).
    + exists t. rewrite append_cons. f_equal. exact IH.
  - exists t. rewrite append_cons. f_equal. exact IH.
Qed.

Lemma contains_take key n s : contains key (take n s) = true -> contains key s = true.
Proof. intros H. rewrite <- (take_drop n s). now apply contains_app_l. Qed.

Lemma contains_strip_chars key p s :
  contains key (strip_chars p s) = true -> contains key s = true.
Proof.
  unfold strip_chars, lstrip_chars. intros H.
  rewrite <- (span_app p s). apply contains_app_r.
  destruct (rstrip_chars_prefix p (snd (span p s))) as [t Ht].
  rewrite Ht. now apply contains_app_l.
Qed.

Lemma startswith_map_chars key f x :
  (forall a, f a = a \/ no_char (f a) key = true) ->
  startswith key (map_chars f x) = true -> startswith key x = true.
Proof.
  intros Hf. revert x. induction key as [|k key IH]; intros x H; [apply startswith_nil |].
  destruct x as [|a x]; [discriminate |].
  change (map_chars f (String a x)) with (String (f a) (map_chars f x)) in H.
  rewrite startswith_cons in *. apply andb_true_iff in H as [H1 H2].
  assert (Hf' : forall a, f a = a \/ no_char (f a) key = true).
  { intros b. destruct (Hf b) as [E | E]; [now left | right].
    rewrite no_char_cons in E. now apply andb_true_iff in E as [_ E]. }
  rewrite (IH Hf' x H2), andb_true_r.
  destruct (Hf a) as [E | E]; [now rewrite <- E |].
  rewrite no_char_cons in E. apply andb_true_iff in E as [E _].
  apply negb_true_iff in E. congruence.
Qed.

Lemma contains_map_chars key f x :
  (forall a, f a = a \/ no_char (f a) key = true) ->
  contains key (map_chars f x) = true -> contains key x = true.
Proof.
  intros Hf. induction x as [|a x IH]; intros H.
  - exact H.
  - change (map_chars f (String a x)) with (String (f a) (map_chars f x)) in H.
    rewrite contains_cons in *. apply orb_true_iff in H as [H | H].
    + change (String (f a) (map_chars f x)) with (map_chars f (String a x)) in H.
      now rewrite (startswith_map_chars key f _ Hf H).
    + rewrite (IH H). apply orb_true_r.
Qed.

Lemma collapse_runs_cons p c b a r :
  collapse_runs p c b (String a r) =
  if p a then
    if b then collapse_runs p c true r else String c (collapse_runs p c true r)
  else String a (collapse_runs p c false r).
Proof. reflexivity. Qed.

Lemma no_char_head c k key a :
  no_char c (String k key) = true -> Ascii.eqb a c = true -> Ascii.eqb k a = false.
Proof.
  rewrite no_char_cons. intros H E. apply andb_true_iff in H as [H _].
  apply negb_true_iff in H. apply Ascii.eqb_eq in E as ->. exact H.
Qed.

Lemma startswith_collapse key r :
  no_char "-" key = true ->
  startswith key (collapse_runs is_hyphen "-" false r) = true -> startswith key r = true.
Proof.
  revert r. induction key as [|k key IH]; intros r Hk H; [apply startswith_nil |].
  destruct r as [|a r]; [discriminate |].
  rewrite collapse_runs_cons in H. unfold is_hyphen in H at 1.
  destruct (Ascii.eqb a "-") eqn:E.
  - rewrite startswith_cons in H. apply andb_true_iff in H as [H _].
    rewrite no_char_cons in Hk. apply andb_true_iff in Hk as [Hk _].
    apply negb_true_iff in Hk. congruence.
  - rewrite startswith_cons in *. apply andb_true_iff in H as [H1 H2].
    rewrite H1. apply IH; [| exact H2].
    rewrite no_char_cons in Hk. now apply andb_true_iff in Hk as [_ Hk].
Qed.

Lemma contains_collapse key b s :
  key <> "" -> no_char "-" key = true ->
  contains key (collapse_runs is_hyphen "-" b s) = true -> contains key s = true.
Proof.
  intros Hne Hk. destruct key as [|k key]; [contradiction |].
  revert b. induction s as [|a s IH]; intros b H; [exact H |].
  rewrite collapse_runs_cons in H. rewrite contains_cons.
  unfold is_hyphen in H at 1. destruct (Ascii.eqb a "-") eqn:E.
  - destruct b.
    + rewrite (IH _ H). apply orb_true_r.
    + rewrite contains_cons, startswith_cons in H.
      rewrite (no_char_head "-" k key "-" Hk eq_refl) in H. cbn [andb orb] in H.
      rewrite (IH _ H). apply orb_true_r.
  - rewrite contains_cons in H. apply orb_true_iff in H as [H | H].
    + rewrite startswith_cons in *. apply andb_true_iff in H as [H1 H2].
      rewrite H1. rewrite no_char_cons in Hk. apply andb_true_iff in Hk as [_ Hk].
      now rewrite (startswith_collapse key s Hk H2).
    + rewrite (IH _ H). apply orb_true_r.
Qed.

(** A key without hyphens and without the characters that are replaced
    occurs in the cleaned subject only if it occurs in the subject. *)
Lemma contains_safe_subject key subject :
  key <> "" -> no_char "-" key = true ->
  all_chars (fun c => negb (invalid_in_filenames c)) key = true ->
  contains key subject = false -> contains key (safe_subject subject) = false.
Proof.
  intros Hne Hh Hv Hs. destruct (contains key (safe_subject subject)) eqn:E; [| reflexivity].
  unfold safe_subject in E.
  apply contains_strip_chars, contains_take, contains_collapse in E; [| exact Hne | exact Hh].
  apply contains_map_chars in E; [congruence |].
  intros a. destruct (invalid_in_filenames a); [right; exact Hh | now left].
Qed.

Lemma all_chars_weaken (q q' : ascii -> bool) s :
  (forall c, q c = true -> q' c = true) -> all_chars q s = true -> all_chars q' s = true.
Proof.
  intros Hq. induction s as [|c s IH]; [reflexivity |]. simpl.
  intros H. apply andb_true_iff in H as [H1 H2]. now rewrite (Hq c H1), IH.
Qed.

Lemma all_chars_app q a b :
  all_chars q (a +:+ b) = all_chars q a && all_chars q b.
Proof.
  induction a as [|c a IH]; [reflexivity |].
  rewrite append_cons. simpl. now rewrite IH, andb_assoc.
Qed.

Lemma no_char_app c a b : no_char c (a +:+ b) = no_char c a && no_char c b.
Proof. apply all_chars_app. Qed.

Lemma safe_subject_no_colon subject : no_char ":" (safe_subject subject) = true.
Proof.
  unfold safe_subject, no_char.
  apply all_chars_strip_chars, all_chars_take.
  apply (all_chars_weaken (fun c => negb (invalid_in_filenames c))).
  { intros c H. destruct (Ascii.eqb c ":") eqn:E; [| reflexivity].
    apply Ascii.eqb_eq in E as ->. discriminate. }
  apply all_chars_collapse_runs; [reflexivity |].
  intros a Ha _. revert a Ha. apply all_chars_forall, all_chars_map.
  intros a _. now destruct (invalid_in_filenames a) eqn:E; [| rewrite E].
Qed.

Lemma word_or_hyphen_plain c :
  word_or_hyphen c = true ->
  negb (Ascii.eqb c ":") && negb (Ascii.eqb c "#") && not_newline c && negb (isspace c) = true.
Proof.
  destruct c as [[] [] [] [] [] [] [] []]; vm_compute; intros H; congruence.
Qed.

Lemma isword_plain c :
  isword c = true ->
  negb (Ascii.eqb c ":") && negb (Ascii.eqb c "#") && not_newline c && negb (isspace c) = true.
Proof. intros H. apply word_or_hyphen_plain. unfold word_or_hyphen. now rewrite H. Qed.

Lemma free_lit key lit rest :
  free_b key lit = true -> free key rest -> free key (lit +:+ rest).
Proof. intros H. apply free_app. now apply free_b_sound. Qed.

Lemma free_line key v :
  key <> "" -> no_char (ascii_of_nat 10) key = true -> contains key v = false ->
  free key (v +:+ nl).
Proof. apply free_var_sep. Qed.

(** The keys the executor searches for. *)
Lemma keys_plain key :
  In key ["email_file:"; "from:"; "subject:"; reply_heading] ->
  key <> "" /\ no_char (ascii_of_nat 10) key = true /\ no_char "." key = true.
Proof.
  intros [<- | [<- | [<- | [<- | []]]]]; (split; [discriminate | split; reflexivity]).
Qed.

Lemma colon_keys key :
  In key ["email_file:"; "from:"; "subject:"] -> no_char ":" key = false.
Proof. intros [<- | [<- | [<- | []]]]; reflexivity. Qed.

Lemma plan_id_no_colon now subject :
  no_char ":" (stamp now) = true -> no_char ":" (direct_plan_id now subject) = true.
Proof.
  intros H. unfold direct_plan_id.
  rewrite !no_char_app, H, safe_subject_no_colon. reflexivity.
Qed.

Lemma free_plan_id_line key now subject :
  In key ["email_file:"; "from:"; "subject:"; reply_heading] ->
  no_char ":" (stamp now) = true -> no_char "#" (stamp now) = true ->
  contains reply_heading subject = false ->
  free key (direct_plan_id now subject +:+ nl).
Proof.
  intros Hkey Hc Hh Hs. destruct (keys_plain key Hkey) as (Hne & Hnl & _).
  destruct Hkey as [<- | [<- | [<- | [<- | []]]]].
  1-3: apply free_line; [exact Hne | exact Hnl |];
       apply (contains_no_char _ ":"); [now apply plan_id_no_colon | reflexivity].
  unfold direct_plan_id.
  replace (("PLAN_" +:+ stamp now +:+ "_" +:+ safe_subject subject) +:+ nl)
    with ("PLAN_" +:+ (stamp now +:+ String "_" "") +:+ (safe_subject subject +:+ nl))
    by (rewrite !append_assoc; reflexivity).
  apply free_lit; [reflexivity |]. apply free_app.
  - apply free_var_sep; [discriminate | reflexivity |].
    now apply (contains_no_char _ "#").
  - apply free_line; [discriminate | reflexivity |].
    now apply contains_safe_subject.
Qed.

Lemma file_name_plain subject msg_id :
  all_chars isword (take 8 msg_id) = true ->
  all_chars (fun c => negb (Ascii.eqb c ":") && negb (Ascii.eqb c "#") && not_newline c)
            (_generate_filename subject msg_id) = true.
Proof.
  intros H. unfold _generate_filename. rewrite !all_chars_app.
  assert (H1 : all_chars (fun c => negb (Ascii.eqb c ":") && negb (Ascii.eqb c "#")
                                   && not_newline c) (filename_description subject) = true).
  { apply (all_chars_weaken word_or_hyphen); [| apply WatcherMore.description_chars].
    intros c Hc. apply word_or_hyphen_plain in Hc.
    now apply andb_true_iff in Hc as [Hc _]. }
  assert (H2 : all_chars (fun c => negb (Ascii.eqb c ":") && negb (Ascii.eqb c "#")
                                   && not_newline c) (take 8 msg_id) = true).
  { apply (all_chars_weaken isword); [| exact H].
    intros c Hc. apply isword_plain in Hc. now apply andb_true_iff in Hc as [Hc _]. }
  now rewrite H1, H2.
Qed.

Lemma file_name_contains key subject msg_id :
  In key ["email_file:"; "from:"; "subject:"; reply_heading] ->
  all_chars isword (take 8 msg_id) = true ->
  contains key (_generate_filename subject msg_id) = false.
Proof.
  intros Hkey H. pose proof (file_name_plain subject msg_id H) as Hp.
  destruct Hkey as [<- | [<- | [<- | [<- | []]]]].
  1-3: apply (contains_no_char _ ":"); [| reflexivity];
       refine (all_chars_weaken _ _ _ _ Hp); intros c Hc;
       apply andb_true_iff in Hc as [Hc _]; now apply andb_true_iff in Hc as [Hc _].
  apply (contains_no_char _ "#"); [| reflexivity].
  refine (all_chars_weaken _ _ _ _ Hp). intros c Hc.
  apply andb_true_iff in Hc as [Hc _]. now apply andb_true_iff in Hc as [_ Hc].
Qed.

Lemma rstrip_app_visible s c :
  isspace c = false -> rstrip (s +:+ String c "") = s +:+ String c "".
Proof.
  intros Hc. induction s as [|a s IH].
  - rewrite append_nil_l, rstrip_cons, Hc. reflexivity.
  - rewrite append_cons, rstrip_cons, IH. now destruct s.
Qed.

(** The name the watcher gives to a file has no whitespace at its ends. *)
Lemma strip_file_name subject msg_id :
  strip (_generate_filename subject msg_id) = _generate_filename subject msg_id.
Proof.
  unfold strip.
  assert (E : lstrip (_generate_filename subject msg_id) = _generate_filename subject msg_id)
    by reflexivity.
  rewrite E. unfold _generate_filename.
  replace ("EMAIL - " +:+ filename_description subject +:+ "_" +:+ take 8 msg_id +:+ ".md")
    with (("EMAIL - " +:+ filename_description subject +:+ "_" +:+ take 8 msg_id +:+ ".m")
          +:+ String "d" "")
    by (rewrite !append_assoc; reflexivity).
  now apply rstrip_app_visible.
Qed.

Lemma plan_direct_content_lines now plan_id email_filename sender subject date
    message_id body analysis :
  plan_direct_content now plan_id email_filename sender subject date message_id body
                      analysis =
  lines_before_email_file plan_id +:+ "email_file:" +:+
  String " " (email_filename +:+ String (ascii_of_nat 10)
    (lines_before_from analysis +:+ "from:" +:+
     String " " (sender +:+ String (ascii_of_nat 10)
       ("subject:" +:+
        String " " (subject +:+ String (ascii_of_nat 10)
          (lines_before_reply now sender subject analysis +:+ reply_heading +:+
           nl +:+ nl +:+ "```" +:+ nl +:+
           (reply_text analysis +:+
            lines_after_reply sender subject date message_id body))))))).
Proof.
  unfold plan_direct_content, lines_before_email_file, lines_before_from,
    lines_before_reply, lines_after_reply, reply_text, reply_heading.
  rewrite !append_assoc. reflexivity.
Qed.

Lemma key_line_assoc pre key v tail :
  pre +:+ key +:+ String " " (v +:+ String (ascii_of_nat 10) tail) =
  (pre +:+ (key +:+ " ") +:+ (v +:+ nl)) +:+ tail.
Proof.
  rewrite !append_assoc. reflexivity.
Qed.

Lemma free_lines_before_email_file key plan_id :
  In key ["email_file:"; "from:"; "subject:"; reply_heading] ->
  free key (plan_id +:+ nl) -> free key (lines_before_email_file plan_id).
Proof.
  intros Hkey H. unfold lines_before_email_file.
  destruct Hkey as [<- | [<- | [<- | [<- | []]]]];
    repeat (apply free_lit; [reflexivity |]); exact H.
Qed.

Lemma free_key_line key name v :
  In key ["email_file:"; "from:"; "subject:"; reply_heading] ->
  free_b key (name +:+ " ") = true -> contains key v = false ->
  free key ((name +:+ " ") +:+ (v +:+ nl)).
Proof.
  intros Hkey Hb Hv. destruct (keys_plain key Hkey) as (Hne & Hnl & _).
  apply free_lit; [exact Hb |]. now apply free_line.
Qed.

Lemma free_lines_before_from key analysis :
  In key ["from:"; "subject:"; reply_heading] ->
  contains key (priority_label analysis) = false ->
  contains key (risk_level analysis) = false ->
  free key (lines_before_from analysis).
Proof.
  intros Hkey HL HR. unfold lines_before_from.
  assert (Hkey' : In key ["email_file:"; "from:"; "subject:"; reply_heading])
    by (now right).
  destruct (keys_plain key Hkey') as (Hne & Hnl & _).
  assert (Hb : forall b, contains key (py_bool b) = false).
  { intros b. destruct Hkey as [<- | [<- | [<- | []]]]; now destruct b. }
  apply free_app; [destruct Hkey as [<- | [<- | [<- | []]]]; now apply free_b_sound |].
  apply free_app; [now apply free_line |].
  apply free_app; [destruct Hkey as [<- | [<- | [<- | []]]]; now apply free_b_sound |].
  apply free_app; [now apply free_line |].
  apply free_app; [destruct Hkey as [<- | [<- | [<- | []]]]; now apply free_b_sound |].
  apply free_app; [now apply free_line |].
  apply free_app; [destruct Hkey as [<- | [<- | [<- | []]]]; now apply free_b_sound |].
  now apply free_line.
Qed.

Lemma no_char_upper c s :
  upper_char c = c -> (forall a, upper_char a = c -> a = c) ->
  no_char c s = true -> no_char c (upper s) = true.
Proof.
  intros _ Hc. induction s as [|a s IH]; [reflexivity |].
  change (upper (String a s)) with (String (upper_char a) (upper s)).
  rewrite !no_char_cons. intros H. apply andb_true_iff in H as [H1 H2].
  rewrite (IH H2), andb_true_r. apply negb_true_iff. apply negb_true_iff in H1.
  destruct (Ascii.eqb (upper_char a) c) eqn:E; [| reflexivity].
  apply Ascii.eqb_eq, Hc in E. subst a. now rewrite Ascii.eqb_refl in H1.
Qed.

Lemma upper_no_hash s : no_char "#" s = true -> no_char "#" (upper s) = true.
Proof.
  apply no_char_upper; [reflexivity |].
  intros a. destruct a as [[] [] [] [] [] [] [] []]; vm_compute; congruence.
Qed.

Lemma free_lines_before_reply now sender subject analysis :
  no_char "#" (iso now) = true ->
  contains reply_heading sender = false ->
  contains reply_heading subject = false ->
  no_char "#" (priority_label analysis) = true ->
  no_char "#" (risk_level analysis) = true ->
  no_char "#" (reason analysis) = true ->
  no_char "#" (category analysis) = true ->
  free reply_heading (lines_before_reply now sender subject analysis).
Proof.
  intros Hiso Hs Hj HL HR Hre Hca. unfold lines_before_reply.
  assert (Hh : forall v, no_char "#" v = true -> free reply_heading (v +:+ nl)).
  { intros v Hv. apply free_line; [discriminate | reflexivity |].
    now apply (contains_no_char _ "#"). }
  assert (Hc : forall v, contains reply_heading v = false -> free reply_heading (v +:+ nl)).
  { intros v Hv. now apply free_line. }
  repeat first
    [ apply free_lit; [reflexivity |]
    | apply free_app; [first [ apply Hh; first [assumption | now apply upper_no_hash]
                             | apply Hc; assumption ] |] ].
  apply free_b_sound. reflexivity.
Qed.

Lemma readable_fields_parts now sender subject message_id analysis :
  readable_fields now sender subject message_id analysis = true ->
  (no_char ":" (stamp now) = true /\ no_char "#" (stamp now) = true /\
   no_char "#" (iso now) = true /\ all_chars isword (take 8 message_id) = true) /\
  (all_chars not_newline sender = true /\ strip sender <> "" /\
   contains "subject:" sender = false /\ contains reply_heading sender = false) /\
  (all_chars not_newline subject = true /\ strip subject <> "" /\
   contains reply_heading subject = false) /\
  (no_char ":" (priority_label analysis) = true /\
   no_char "#" (priority_label analysis) = true /\
   no_char ":" (risk_level analysis) = true /\
   no_char "#" (risk_level analysis) = true /\
   no_char "#" (reason analysis) = true /\ no_char "#" (category analysis) = true) /\
  (no_char "`" (reply_text analysis) = true /\ strip (reply_text analysis) <> "").
Proof.
  unfold readable_fields, one_line, visible.
  rewrite !andb_true_iff, !negb_true_iff, !String.eqb_neq. tauto.
Qed.

Lemma split_before_unfold closer s :
  split_before closer s =
  if startswith closer s then Some (EmptyString, drop (String.length closer) s)
  else match s with
       | EmptyString => None
       | String c r =>
           match split_before closer r with
           | Some (g, rest) => Some (String c g, rest)
           | None => None
           end
       end.
Proof. now destruct s. Qed.

Lemma split_before_found closer a b :
  exists g rest, split_before closer (a +:+ closer +:+ b) = Some (g, rest).
Proof.
  induction a as [|c a (g & rest & IH)].
  - rewrite append_nil_l, split_before_unfold, startswith_append. eauto.
  - rewrite append_cons, split_before_unfold.
    destruct (startswith closer (String c (a +:+ closer +:+ b))); [eauto |].
    rewrite IH. eauto.
Qed.

(** The text of a plan opens with a frontmatter block. *)
Lemma plan_has_frontmatter now plan_id email_filename sender subject date message_id
    body analysis :
  exists frontmatter rest,
    match_frontmatter
      (plan_direct_content now plan_id email_filename sender subject date message_id body
                           analysis) = Some (frontmatter, rest).
Proof.
  unfold match_frontmatter.
  assert (E : exists a b,
             drop 4 (plan_direct_content now plan_id email_filename sender subject date
                                         message_id body analysis)
             = a +:+ (nl +:+ "---" +:+ nl) +:+ b).
  { exists ("type: email_plan" +:+ nl +:+ "plan_id: " +:+ plan_id +:+ nl +:+
            "email_file: " +:+ email_filename +:+ nl +:+
            "priority: " +:+ priority_label analysis +:+ nl +:+
            "risk_level: " +:+ risk_level analysis +:+ nl +:+
            "needs_reply: " +:+ py_bool (needs_reply analysis) +:+ nl +:+
            "auto_approve: " +:+ py_bool (auto_approve analysis) +:+ nl +:+
            "from: " +:+ sender +:+ nl +:+ "subject: " +:+ subject +:+ nl +:+
            "created: " +:+ iso now).
    eexists. unfold plan_direct_content. rewrite !append_assoc. reflexivity. }
  destruct E as (a & b & E). rewrite E.
  change (startswith ("---" +:+ nl) _) with true. cbv iota.
  apply split_before_found.
Qed.

Lemma fenced_reply_none x : startswith reply_heading x = false -> fenced_reply_at x = None.
Proof. unfold fenced_reply_at, reply_heading. now intros ->. Qed.

(** The reply between the fences, read by the executor. *)
Lemma fenced_reply_here reply after :
  no_char "`" reply = true -> strip reply <> "" ->
  startswith "```" (lstrip after) = true ->
  fenced_reply_at (reply_heading +:+ nl +:+ nl +:+ "```" +:+ nl +:+ (reply +:+ after))
  = Some (strip reply).
Proof.
  intros Hb Hv Ha.
  change (fenced_reply_at (reply_heading +:+ nl +:+ nl +:+ "```" +:+ nl +:+ (reply +:+ after)))
    with (lazy_until "```" (lstrip (String (ascii_of_nat 10) (reply +:+ after)))).
  rewrite lstrip_cons. change (isspace (ascii_of_nat 10)) with true. cbv iota.
  rewrite lstrip_app by now apply strip_nonempty.
  apply lazy_until_fence; [| exact Ha].
  now apply all_chars_span_snd.
Qed.

Lemma key_line_pieces key v tail :
  key +:+ String " " (v +:+ String (ascii_of_nat 10) tail) =
  (key +:+ " ") +:+ (v +:+ nl) +:+ tail.
Proof. rewrite !append_assoc. reflexivity. Qed.

Lemma free_b_key_line key name v :
  In key ["email_file:"; "from:"; "subject:"; reply_heading] ->
  free_b key (name +:+ " ") = true -> contains key v = false ->
  free key (name +:+ " ") /\ free key (v +:+ nl).
Proof.
  intros Hkey Hb Hv. destruct (keys_plain key Hkey) as (Hne & Hnl & _).
  split; [now apply free_b_sound | now apply free_line].
Qed.

Section ReadBack.

Variable now : Clock.
Variables sender subject date message_id body : string.
Variable analysis : KeywordAnalysis.
Hypothesis Hfields : readable_fields now sender subject message_id analysis = true.

Lemma read_email_file :
  search_field "email_file:"
    (watcher_plan_text now sender subject date message_id body analysis)
  = Some (_generate_filename subject message_id).
Proof.
  destruct (readable_fields_parts _ _ _ _ _ Hfields)
    as ((Hs1 & Hs2 & Hiso & Hid) & (Hsn & Hsv & Hss & Hsh) & (Hjn & Hjv & Hjh) &
        (HL1 & HL2 & HR1 & HR2 & Hre & Hca) & (Hrb & Hrv)).
  unfold watcher_plan_text. rewrite plan_direct_content_lines.
  rewrite search_field_skip.
  2:{ apply free_lines_before_email_file; [now left |].
      apply free_plan_id_line; [now left | assumption..]. }
  apply search_field_here. rewrite field_at_line; [reflexivity | |].
  - refine (all_chars_weaken _ _ _ _ (file_name_plain subject message_id Hid)).
    intros c Hc. now apply andb_true_iff in Hc as [_ Hc].
  - rewrite strip_file_name. discriminate.
Qed.

Lemma read_from :
  search_field "from:"
    (watcher_plan_text now sender subject date message_id body analysis)
  = Some (lstrip sender).
Proof.
  destruct (readable_fields_parts _ _ _ _ _ Hfields)
    as ((Hs1 & Hs2 & Hiso & Hid) & (Hsn & Hsv & Hss & Hsh) & (Hjn & Hjv & Hjh) &
        (HL1 & HL2 & HR1 & HR2 & Hre & Hca) & (Hrb & Hrv)).
  assert (Hkey : In "from:" ["email_file:"; "from:"; "subject:"; reply_heading])
    by (right; now left).
  unfold watcher_plan_text. rewrite plan_direct_content_lines.
  rewrite search_field_skip.
  2:{ apply free_lines_before_email_file; [exact Hkey |].
      apply free_plan_id_line; [exact Hkey | assumption..]. }
  rewrite key_line_pieces.
  destruct (free_b_key_line "from:" "email_file:" (_generate_filename subject message_id)
              Hkey eq_refl (file_name_contains _ _ _ Hkey Hid)) as [F1 F2].
  rewrite !search_field_skip by assumption.
  rewrite search_field_skip.
  2:{ apply free_lines_before_from; [now left | |];
        apply (contains_no_char _ ":"); (assumption || reflexivity). }
  apply search_field_here. now apply field_at_line.
Qed.

Lemma read_subject :
  search_field "subject:"
    (watcher_plan_text now sender subject date message_id body analysis)
  = Some (lstrip subject).
Proof.
  destruct (readable_fields_parts _ _ _ _ _ Hfields)
    as ((Hs1 & Hs2 & Hiso & Hid) & (Hsn & Hsv & Hss & Hsh) & (Hjn & Hjv & Hjh) &
        (HL1 & HL2 & HR1 & HR2 & Hre & Hca) & (Hrb & Hrv)).
  assert (Hkey : In "subject:" ["email_file:"; "from:"; "subject:"; reply_heading])
    by (right; right; now left).
  unfold watcher_plan_text. rewrite plan_direct_content_lines.
  rewrite search_field_skip.
  2:{ apply free_lines_before_email_file; [exact Hkey |].
      apply free_plan_id_line; [exact Hkey | assumption..]. }
  rewrite key_line_pieces.
  destruct (free_b_key_line "subject:" "email_file:" (_generate_filename subject message_id)
              Hkey eq_refl (file_name_contains _ _ _ Hkey Hid)) as [F1 F2].
  rewrite !search_field_skip by assumption.
  rewrite search_field_skip.
  2:{ apply free_lines_before_from; [right; now left | |];
        apply (contains_no_char _ ":"); (assumption || reflexivity). }
  rewrite key_line_pieces.
  destruct (free_b_key_line "subject:" "from:" sender Hkey eq_refl Hss) as [F3 F4].
  rewrite !search_field_skip by assumption.
  apply search_field_here. now apply field_at_line.
Qed.

Lemma read_reply :
  search_with fenced_reply_at
    (watcher_plan_text now sender subject date message_id body analysis)
  = Some (strip (reply_text analysis)).
Proof.
  destruct (readable_fields_parts _ _ _ _ _ Hfields)
    as ((Hs1 & Hs2 & Hiso & Hid) & (Hsn & Hsv & Hss & Hsh) & (Hjn & Hjv & Hjh) &
        (HL1 & HL2 & HR1 & HR2 & Hre & Hca) & (Hrb & Hrv)).
  assert (Hkey : In reply_heading ["email_file:"; "from:"; "subject:"; reply_heading])
    by (right; right; right; now left).
  unfold watcher_plan_text. rewrite plan_direct_content_lines.
  rewrite (search_with_skip reply_heading) by
    (first [exact fenced_reply_none
           | apply free_lines_before_email_file; [exact Hkey |];
             apply free_plan_id_line; [exact Hkey | assumption..]]).
  rewrite key_line_pieces.
  destruct (free_b_key_line reply_heading "email_file:"
              (_generate_filename subject message_id)
              Hkey eq_refl (file_name_contains _ _ _ Hkey Hid)) as [F1 F2].
  rewrite !(search_with_skip reply_heading) by (exact fenced_reply_none || assumption).
  rewrite (search_with_skip reply_heading) by
    (first [exact fenced_reply_none
           | apply free_lines_before_from; [right; right; now left | |];
             apply (contains_no_char _ "#"); (assumption || reflexivity)]).
  rewrite key_line_pieces.
  destruct (free_b_key_line reply_heading "from:" sender Hkey eq_refl Hsh) as [F3 F4].
  rewrite !(search_with_skip reply_heading) by (exact fenced_reply_none || assumption).
  rewrite key_line_pieces.
  destruct (free_b_key_line reply_heading "subject:" subject Hkey eq_refl Hjh) as [F5 F6].
  rewrite !(search_with_skip reply_heading) by (exact fenced_reply_none || assumption).
  rewrite (search_with_skip reply_heading) by
    (first [exact fenced_reply_none | now apply free_lines_before_reply]).
  rewrite search_with_unfold, fenced_reply_here; [reflexivity | assumption.. | reflexivity].
Qed.

End ReadBack.

Lemma word_or_hyphen_no_slash c :
  word_or_hyphen c = true -> negb (Ascii.eqb c "/") = true.
Proof.
  destruct c as [[] [] [] [] [] [] [] []]; vm_compute; intros H; congruence.
Qed.

(** The name the watcher gives to a file holds no ['/']. *)
Lemma file_name_no_slash subject msg_id :
  all_chars isword (take 8 msg_id) = true ->
  no_char "/" (_generate_filename subject msg_id) = true.
Proof.
  intros H. unfold no_char, _generate_filename. rewrite !all_chars_app.
  assert (H1 : all_chars (fun a => negb (Ascii.eqb a "/")) (filename_description subject)
               = true).
  { apply (all_chars_weaken word_or_hyphen); [| apply WatcherMore.description_chars].
    exact word_or_hyphen_no_slash. }
  assert (H2 : all_chars (fun a => negb (Ascii.eqb a "/")) (take 8 msg_id) = true).
  { apply (all_chars_weaken isword); [| exact H].
    intros c Hc. apply word_or_hyphen_no_slash. unfold word_or_hyphen. now rewrite Hc. }
  now rewrite H1, H2.
Qed.

(** Joined to the path of a folder it names a file of that folder. *)
Lemma locate_file_name f subject msg_id :
  all_chars isword (take 8 msg_id) = true ->
  locate f (_generate_filename subject msg_id)
  = File_of f (_generate_filename subject msg_id).
Proof.
  intros H. apply PathFacts.locate_name; [now apply file_name_no_slash | ..].
  all: unfold _generate_filename; rewrite append_cons; discriminate.
Qed.

Lemma done_after_inbox now email_filename plan_id w :
  no_char "/" email_filename = true ->
  done (_move_email_to_inbox now email_filename plan_id w) = done w.
Proof.
  intros Hp.
  destruct (ExecutorFacts.move_email_to_inbox_shape now email_filename plan_id w)
    as [-> | (f & g & name & content & _ & E1 & E2 & _ & ->)]; [reflexivity |].
  apply (PathFacts.locate_plain _ _ _ _ Hp) in E1 as [-> ->].
  apply (PathFacts.locate_plain _ _ _ _ Hp) in E2 as [-> _].
  reflexivity.
Qed.

(** X23.  A plan written by _create_plan_direct and moved to Approved is
    read back by the executor as it was meant: for an email whose fields
    are readable, _execute_plan calls the send capability once, with the
    sender of the email as recipient, the subject opened by 'Re:' and the
    suggested reply as body, and answers what the capability answers;
    when the message is accepted the plan goes from Approved to Done and
    the email the watcher saved goes from Needs_Action to Inbox, and
    when it is refused no folder changes. *)
Theorem watcher_plan_is_executed (now0 now : Clock)
    (sender subject date message_id body : string) (analysis : KeywordAnalysis)
    (plan_name : string) (ex : ApprovedPlanExecutor) (w : World) :
  readable_fields now0 sender subject message_id analysis = true ->
  approved w !! plan_name
  = Some (watcher_plan_text now0 sender subject date message_id body analysis) ->
  sender_loadable w = true ->
  let ok := match mailer w with [] => false | b :: _ => b end in
  let email_filename := _generate_filename subject message_id in
  let r := _execute_plan now plan_name (stem plan_name) ex w in
  fst (fst r) = ok /\
  mail_log (snd r) =
    (mail_log w ++
     [(mkMail (strip sender) (reply_subject subject) (strip (reply_text analysis)), ok)])%list /\
  (ok = true ->
   approved (snd r) !! plan_name = None /\
   is_Some (done (snd r) !! (stem plan_name +:+ ".md")) /\
   (forall email frontmatter rest,
       needs_action w !! email_filename = Some email ->
       match_frontmatter email = Some (frontmatter, rest) ->
       needs_action (snd r) !! email_filename = None /\
       is_Some (inbox (snd r) !! email_filename))) /\
  (ok = false -> forall f, folder f (snd r) = folder f w).
Proof.
  intros Hfields Hplan Hload. cbv zeta.
  destruct (readable_fields_parts _ _ _ _ _ Hfields)
    as ((_ & _ & _ & Hid) & (_ & Hsv & _) & (_ & Hjv & _) & _ & _).
  unfold _execute_plan. rewrite Hplan.
  rewrite (read_email_file _ _ _ _ _ _ _ Hfields), (read_from _ _ _ _ _ _ _ Hfields),
    (read_subject _ _ _ _ _ _ _ Hfields), (read_reply _ _ _ _ _ _ _ Hfields).
  rewrite strip_file_name, !strip_lstrip, strip_idem.
  assert (Hsubj : (if negb (String.eqb (strip subject) "") &&
                      negb (startswith "Re:" (strip subject))
                   then "Re: " +:+ strip subject else strip subject)
                  = reply_subject subject).
  { unfold reply_subject. apply String.eqb_neq in Hjv. rewrite Hjv. cbn [negb andb].
    now destruct (startswith "Re:" (strip subject)). }
  rewrite Hsubj.
  assert (Hav : exists ex1, _get_email_sender ex w = (true, ex1)).
  { unfold _get_email_sender. destruct (email_sender ex); [eauto |]. rewrite Hload. eauto. }
  destruct Hav as [ex1 ->]. cbn [negb].
  unfold send_email.
  set (ok := match mailer w with [] => false | b :: _ => b end).
  set (mail := mkMail (strip sender) (reply_subject subject) (strip (reply_text analysis))).
  set (w1 := mkWorld _ _ _ _ _ _ _ _ _ _ _).
  set (content := watcher_plan_text now0 sender subject date message_id body analysis).
  destruct ok eqn:Eok; cbn [fst snd].
  - split; [reflexivity |].
    destruct (plan_has_frontmatter now0 (direct_plan_id now0 subject)
                (_generate_filename subject message_id) sender subject date message_id
                body analysis) as (fm & rest & Hfm).
    fold (watcher_plan_text now0 sender subject date message_id body analysis) in Hfm.
    fold content in Hfm.
    assert (Hw2 : exists new,
               _move_plan_to_done now plan_name (stem plan_name) (strip sender) content w1
               = unlink Approved plan_name
                        (write_text Done (stem plan_name +:+ ".md") new w1)).
    { unfold _move_plan_to_done. rewrite Hfm. eauto. }
    destruct Hw2 as [new Hw2]. rewrite Hw2.
    set (w2 := unlink Approved plan_name
                      (write_text Done (stem plan_name +:+ ".md") new w1)).
    assert (Hna2 : needs_action w2 = needs_action w) by reflexivity.
    split; [| split; [| discriminate]].
    { now rewrite ExecutorMore.mail_log_after_inbox. }
    intros _. split; [| split].
    + eapply lookup_weaken_None; [| apply ExecutorFacts.approved_after_inbox].
      unfold w2.
      change (approved (unlink Approved plan_name ?x))
        with (folder Approved (unlink Approved plan_name x)).
      rewrite StoreMore.folder_unlink_same. apply lookup_delete_eq.
    + rewrite done_after_inbox by now apply file_name_no_slash. unfold w2.
      change (done ?x) with (folder Done x).
      rewrite StoreMore.folder_unlink_other by discriminate.
      rewrite StoreMore.folder_write_same, lookup_insert_eq. eauto.
    + intros email frontmatter rest' He Hm.
      unfold _move_email_to_inbox. rewrite !locate_file_name by exact Hid.
      cbn [folder]. rewrite Hna2, He, Hm.
      split.
      * change (needs_action ?x) with (folder Needs_Action x).
        rewrite StoreMore.folder_unlink_same. apply lookup_delete_eq.
      * change (inbox ?x) with (folder Inbox x).
        rewrite StoreMore.folder_unlink_other by discriminate.
        rewrite StoreMore.folder_write_same, lookup_insert_eq. eauto.
  - split; [reflexivity |]. split; [reflexivity |]. split; [discriminate |].
    intros _ f. now destruct f.
Qed.

Lemma watcher_plan_is_executed_witness :
  let r := _execute_plan Samples.later
             (direct_plan_id Samples.noon "Invoice" +:+ ".md")
             (stem (direct_plan_id Samples.noon "Invoice" +:+ ".md"))
             (Samples.fresh_executor PlanSamples.invoice_watcher_world)
             PlanSamples.invoice_watcher_world in
  fst (fst r) = true /\
  map (fun entry => (m_to (fst entry), m_subject (fst entry), snd entry)) (mail_log (snd r))
  = [("Bob <bob@example.org>", "Re: Invoice", true)] /\
  approved (snd r) !! (direct_plan_id Samples.noon "Invoice" +:+ ".md") = None /\
  is_Some (done (snd r) !! "PLAN_20260109_120000_Invoice.md") /\
  is_Some (inbox (snd r) !! "EMAIL - Invoice_18c2f0a9.md").
Proof.
  destruct (watcher_plan_is_executed Samples.noon Samples.later
              "Bob <bob@example.org>" "Invoice" "Fri, 9 Jan 2026 11:58:00 +0000"
              PlanSamples.invoice_id "Can you send the invoice by Friday?"
              PlanSamples.invoice_analysis
              (direct_plan_id Samples.noon "Invoice" +:+ ".md")
              (Samples.fresh_executor PlanSamples.invoice_watcher_world)
              PlanSamples.invoice_watcher_world)
    as (H1 & H2 & H3 & _).
  - vm_compute. reflexivity.
  - vm_compute. reflexivity.
  - reflexivity.
  - cbv zeta. split; [exact H1 |]. split; [rewrite H2; reflexivity |].
    destruct (H3 eq_refl) as (A & D & M). split; [exact A |]. split; [exact D |].
    refine (proj2 (M Samples.invoice_email _ _ _ _)); vm_compute; reflexivity.
Defined.

End PlanTextFacts.

(** * The plan file of the watcher and the listing of the executor *)

Module PlanFileFacts.
Import PyStr PyStrMore Analyzer Store Executor Watcher Scan PlanText.
Import StringFacts.

Lemma safe_subject_chars subject :
  all_chars (fun c => negb (invalid_in_filenames c)) (safe_subject subject) = true.
Proof.
  unfold safe_subject. apply all_chars_strip_chars, all_chars_take.
  apply all_chars_collapse_runs; [reflexivity |].
  intros a Ha _. revert a Ha. apply all_chars_forall, all_chars_map.
  intros a _. now destruct (invalid_in_filenames a) eqn:E; [| rewrite E].
Qed.

Lemma safe_subject_length subject : (String.length (safe_subject subject) <= 50)%nat.
Proof.
  unfold safe_subject.
  pose proof (length_strip_chars is_hyphen
                (take 50 (collapse_runs is_hyphen "-" false
                            (map_chars (fun c => if invalid_in_filenames c then "-"%char else c)
                                       subject)))).
  pose proof (length_take 50 (collapse_runs is_hyphen "-" false
                                (map_chars (fun c => if invalid_in_filenames c
                                                     then "-"%char else c) subject))).
  lia.
Qed.

(** X24.  _create_plan_direct writes the plan to Plans under its id with
    '.md'; that name is one the executor lists once the file lies in
    Approved, and the id the executor derives from the name is the id of
    the plan.  The part of the id taken from the subject has at most 50
    characters and none of the characters that are invalid in file
    names. *)
Theorem created_plan_is_listed (now : Clock)
    (sender subject date message_id body : string) (analysis : KeywordAnalysis)
    (w : World) :
  let r := _create_plan_direct now sender subject date message_id body analysis w in
  let name := fst r +:+ ".md" in
  plans (snd r) !! name
  = Some (watcher_plan_text now sender subject date message_id body analysis) /\
  stem name = fst r /\
  (forall w', is_Some (approved w' !! name) -> In name (plan_files w')) /\
  fst r = "PLAN_" +:+ stamp now +:+ "_" +:+ safe_subject subject /\
  (String.length (safe_subject subject) <= 50)%nat /\
  all_chars (fun c => negb (invalid_in_filenames c)) (safe_subject subject) = true.
Proof.
  cbv zeta. unfold _create_plan_direct. cbn [fst snd].
  split.
  { change (plans ?x) with (folder Plans x).
    rewrite StoreMore.folder_write_same. apply lookup_insert_eq. }
  split; [apply stem_append_md |].
  split.
  { intros w' Hin. unfold plan_files, glob. apply filter_In. split.
    - now apply WatcherMore.in_names.
    - unfold glob_match, direct_plan_id.
      rewrite !append_assoc, startswith_append.
      replace ("PLAN_" +:+ stamp now +:+ "_" +:+ safe_subject subject +:+ ".md")
        with (("PLAN_" +:+ stamp now +:+ "_" +:+ safe_subject subject) +:+ ".md")
        by (now rewrite !append_assoc).
      rewrite endswith_append, !length_append.
      apply Nat.leb_le. simpl String.length. lia. }
  split; [reflexivity |].
  split; [apply safe_subject_length | apply safe_subject_chars].
Qed.

End PlanFileFacts.

(** * What the planner does with an email it handles *)

Module PlannerPaths.
Import PyStr Analyzer Store VaultUpdate Planner Handling StoreMore.

(** After [update_frontmatter] a file that was there is still there, and
    only its folder can have changed. *)
Lemma update_frontmatter_keeps f name updates w old :
  folder f w !! name = Some old ->
  let w1 := snd (update_frontmatter f name updates w) in
  is_Some (folder f w1 !! name) /\
  (forall g, g <> f -> folder g w1 = folder g w) /\
  mail_log w1 = mail_log w.
Proof.
  intros Hold. cbv zeta.
  destruct (update_frontmatter_shape f name updates w) as [-> | (o & new & _ & ->)].
  - split; [eauto |]. split; reflexivity.
  - split; [rewrite folder_write_same, lookup_insert_eq; eauto |].
    split; [intros g Hg; now apply folder_write_other |].
    apply mail_log_write_text.
Qed.

(** A file of Needs_Action that is updated and moved to Done. *)
Lemma update_then_move name updates w old :
  needs_action w !! name = Some old ->
  let w2 := snd (move_to_folder Needs_Action name Done
                   (snd (update_frontmatter Needs_Action name updates w))) in
  needs_action w2 !! name = None /\
  is_Some (done w2 !! name) /\
  mail_log w2 = mail_log w /\
  auto_sent w2 = auto_sent w.
Proof.
  intros Hold. cbv zeta.
  destruct (update_frontmatter_keeps Needs_Action name updates w old Hold)
    as ([c Hc] & Hother & Hlog).
  set (w1 := snd (update_frontmatter Needs_Action name updates w)) in *.
  unfold move_to_folder. rewrite Hc. cbn [snd].
  split; [| split; [| split]].
  - change (needs_action ?x) with (folder Needs_Action x).
    rewrite folder_write_other by discriminate.
    rewrite folder_unlink_same. apply lookup_delete_eq.
  - change (done ?x) with (folder Done x).
    rewrite folder_write_same, lookup_insert_eq. eauto.
  - now rewrite mail_log_write_text, mail_log_unlink.
  - change (auto_sent ?x) with (folder Auto_Sent x).
    rewrite folder_write_other, folder_unlink_other by discriminate.
    now apply Hother.
Qed.

(** X25.  An email that needs no reply is archived: when the loop of
    plan_all_emails reaches a file of Needs_Action that is not marked
    and whose analysis says that no reply is needed, the file leaves
    Needs_Action and is in Done afterwards, nothing is sent, the id is
    marked and the result gets an entry 'archived' for the file. *)
Theorem no_reply_email_is_archived (now : Clock) (st : LoopState)
    (name content : string) :
  needs_action (world st) !! name = Some content ->
  stem name ∉ processed_cache (planner st) ->
  needs_reply (analyze_email (planner st) (fst (_parse_email_file content))
                             (snd (_parse_email_file content))) = false ->
  let st' := plan_one now st name in
  needs_action (world st') !! name = None /\
  is_Some (done (world st') !! name) /\
  mail_log (world st') = mail_log (world st) /\
  stem name ∈ processed_cache (planner st') /\
  exists x, results st' = (results st ++ [x])%list /\
            res_email_file x = name /\ res_action x = "archived".
Proof.
  intros Hc Hnew Hnr. cbv zeta. unfold plan_one.
  rewrite decide_False by exact Hnew. rewrite Hc.
  destruct (_parse_email_file content) as [metadata body]. cbn [fst snd] in Hnr.
  rewrite Hnr. cbn [negb world planner results].
  unfold _archive_email.
  pose proof (update_then_move name [("status", "archived"); ("archived_at", iso now)]
                (world st) content Hc) as H.
  cbv zeta in H.
  destruct (update_frontmatter Needs_Action name _ (world st)) as [b w1].
  cbn [snd] in H. destruct H as (H1 & H2 & H3 & _).
  split; [exact H1 |]. split; [exact H2 |]. split; [exact H3 |].
  split; [cbn [processed_cache with_processed]; apply elem_of_union_l, elem_of_singleton; reflexivity |].
  eexists. split; [reflexivity |]. split; reflexivity.
Qed.

Lemma no_reply_email_is_archived_witness :
  let st' := plan_one Samples.noon
               (mkLoop (Samples.fresh_planner Samples.empty_world)
                       (write_text Needs_Action "EMAIL_thanks.md"
                          (Samples.email_text "Alice <alice@example.org>" ""
                                              "Thanks, got it!")
                          Samples.empty_world) [])
               "EMAIL_thanks.md" in
  needs_action (world st') !! "EMAIL_thanks.md" = None /\
  is_Some (done (world st') !! "EMAIL_thanks.md").
Proof.
  destruct (no_reply_email_is_archived Samples.noon
              (mkLoop (Samples.fresh_planner Samples.empty_world)
                      (write_text Needs_Action "EMAIL_thanks.md"
                         (Samples.email_text "Alice <alice@example.org>" ""
                                             "Thanks, got it!")
                         Samples.empty_world) [])
              "EMAIL_thanks.md"
              (Samples.email_text "Alice <alice@example.org>" "" "Thanks, got it!"))
    as (H1 & H2 & _).
  - vm_compute. reflexivity.
  - vm_compute. set_solver.
  - vm_compute. reflexivity.
  - split; [exact H1 | exact H2].
Defined.

(** A reply is there whenever one is needed, and it is not empty. *)
Lemma reply_when_needed {M : Type} (self : KeywordAnalyzer)
    (sender subject body : string) (history : option (list M)) :
  needs_reply (analyze self sender subject body history) = true ->
  exists c r, suggested_reply (analyze self sender subject body history)
              = Some (String c r).
Proof.
  unfold analyze. cbn [needs_reply suggested_reply].
  set (text := combined_text subject body).
  set (items := _extract_action_items text).
  unfold _generate_reply. intros ->. cbn [negb].
  set (sender_name := match capitalize _ with EmptyString => "there" | n => n end).
  destruct (any_in SAFE_PATTERNS _); [eexists _, _; reflexivity |].
  destruct (assoc_get _ (category_replies sender_name)) as [r|] eqn:Er;
    [| eexists _, _; reflexivity].
  pose proof (AnalyzerMore.category_reply_greets _ _ _ Er) as Hg.
  destruct r as [|c r]; [discriminate |]. now exists c, r.
Qed.

(** X26.  A safe reply is sent at once: when the loop of plan_all_emails
    reaches a file of Needs_Action that is not marked, whose analysis
    asks for a reply and approves it, and the send capability is there
    and accepts, then one message goes to the sender of the email, with
    the subject opened by 'Re:' and the suggested reply as body; the
    file leaves Needs_Action and is in Done, a record of the sending is
    written to Auto_Sent, the id is marked, and the result gets an entry
    'auto_sent' with success. *)
Theorem safe_reply_is_sent (now : Clock) (st : LoopState) (name content : string)
    (answers : list bool) :
  needs_action (world st) !! name = Some content ->
  stem name ∉ processed_cache (planner st) ->
  email_sender (planner st) = true ->
  mailer (world st) = true :: answers ->
  let metadata := fst (_parse_email_file content) in
  let analysis := analyze_email (planner st) metadata (snd (_parse_email_file content)) in
  needs_reply analysis = true ->
  auto_approve analysis = true ->
  let st' := plan_one now st name in
  let subject := dict_get_default "subject" "" metadata in
  (exists reply,
      suggested_reply analysis = Some reply /\ reply <> "" /\
      mail_log (world st') =
        (mail_log (world st) ++
         [(mkMail (dict_get_default "from" "" metadata)
                  (if negb (String.eqb subject "") && negb (startswith "Re:" subject)
                   then "Re: " +:+ subject else subject)
                  reply, true)])%list) /\
  needs_action (world st') !! name = None /\
  is_Some (done (world st') !! name) /\
  is_Some (auto_sent (world st') !! ("AUTO_SENT_" +:+ stamp now +:+ ".md")) /\
  mailer (world st') = answers /\
  stem name ∈ processed_cache (planner st') /\
  exists x, results st' = (results st ++ [x])%list /\
            res_email_file x = name /\ res_action x = "auto_sent" /\
            res_success x = Some true.
Proof.
  intros Hc Hnew Hsender Hmailer. cbv zeta. intros Hnr Happ.
  unfold plan_one. rewrite decide_False by exact Hnew. rewrite Hc.
  destruct (_parse_email_file content) as [metadata body]. cbn [fst snd] in *.
  destruct (reply_when_needed (analyzer (planner st))
              (dict_get_default "from" "" metadata)
              (dict_get_default "subject" "" metadata) body (@None (list unit)) Hnr)
    as (c & r & Hreply).
  fold (analyze_email (planner st) metadata body) in Hreply.
  set (analysis := analyze_email (planner st) metadata body) in *.
  rewrite Hnr, Happ. cbn [negb].
  unfold _auto_send_email. rewrite Hsender, Hreply.
  set (subject := if negb (String.eqb (dict_get_default "subject" "" metadata) "") &&
                     negb (startswith "Re:" (dict_get_default "subject" "" metadata))
                  then "Re: " +:+ dict_get_default "subject" "" metadata
                  else dict_get_default "subject" "" metadata).
  unfold send_email. rewrite Hmailer. cbn [tl].
  set (w1 := mkWorld _ _ _ _ _ _ _ _ _ _ _).
  set (w2 := _log_auto_send (planner st) now name _ subject analysis w1).
  assert (Hna2 : needs_action w2 !! name = Some content) by exact Hc.
  pose proof (update_then_move name [("status", "auto_sent"); ("auto_sent_at", iso now)]
                w2 content Hna2) as H.
  cbv zeta in H.
  pose proof (update_frontmatter_keeps Needs_Action name
                [("status", "auto_sent"); ("auto_sent_at", iso now)] w2 content Hna2)
    as (_ & Hother & _).
  assert (Hmailer3 : forall f n u w0, mailer (snd (update_frontmatter f n u w0)) = mailer w0).
  { intros f n u w0.
    destruct (update_frontmatter_shape f n u w0) as [-> | (o & new & _ & ->)];
      [reflexivity | apply mailer_set_folder]. }
  pose proof (Hmailer3 Needs_Action name
                [("status", "auto_sent"); ("auto_sent_at", iso now)] w2) as Hm3.
  destruct (update_frontmatter Needs_Action name _ w2) as [b w3].
  cbn [snd] in H, Hm3.
  assert (Hm4 : mailer (snd (move_to_folder Needs_Action name Done w3)) = mailer w3).
  { unfold move_to_folder.
    destruct (folder Needs_Action w3 !! name); [| reflexivity].
    cbn [snd]. unfold write_text, unlink. now rewrite !mailer_set_folder. }
  destruct (move_to_folder Needs_Action name Done w3) as [moved w4].
  cbn [snd world planner results] in *. destruct H as (H1 & H2 & H3 & H4).
  split.
  { exists (String c r). split; [reflexivity |]. split; [discriminate |].
    rewrite H3. reflexivity. }
  split; [exact H1 |]. split; [exact H2 |].
  split.
  { rewrite H4. unfold w2, _log_auto_send.
    change (auto_sent ?x) with (folder Auto_Sent x).
    rewrite folder_write_same, lookup_insert_eq. eauto. }
  split; [rewrite Hm4, Hm3; reflexivity |].
  split; [cbn [processed_cache with_processed]; apply elem_of_union_l, elem_of_singleton; reflexivity |].
  eexists. split; [reflexivity |]. repeat split.
Qed.

Lemma safe_reply_is_sent_witness :
  let w := {| needs_action := {[ "EMAIL_hello.md" := Samples.ack_email ]};
              plans := ∅; approved := ∅; done := ∅; inbox := ∅; auto_sent := ∅;
              planner_cache_file := None; executor_cache_file := None;
              sender_loadable := true; mailer := [true]; mail_log := [] |} in
  let st' := plan_one Samples.noon (mkLoop (Samples.fresh_planner w) w []) "EMAIL_hello.md" in
  needs_action (world st') !! "EMAIL_hello.md" = None /\
  is_Some (done (world st') !! "EMAIL_hello.md") /\
  is_Some (auto_sent (world st') !! "AUTO_SENT_20260109_120000.md") /\
  map (fun entry => (m_to (fst entry), m_subject (fst entry), snd entry))
      (mail_log (world st'))
  = [("Alice <alice@example.org>", "Re: Hello", true)].
Proof.
  cbv zeta.
  set (w := {| needs_action := {[ "EMAIL_hello.md" := Samples.ack_email ]};
               plans := ∅; approved := ∅; done := ∅; inbox := ∅; auto_sent := ∅;
               planner_cache_file := None; executor_cache_file := None;
               sender_loadable := true; mailer := [true]; mail_log := [] |}).
  destruct (safe_reply_is_sent Samples.noon (mkLoop (Samples.fresh_planner w) w [])
              "EMAIL_hello.md" Samples.ack_email [])
    as ((reply & _ & _ & Hlog) & H1 & H2 & H3 & _).
  - vm_compute. reflexivity.
  - vm_compute. set_solver.
  - reflexivity.
  - reflexivity.
  - vm_compute. reflexivity.
  - vm_compute. reflexivity.
  - split; [exact H1 |]. split; [exact H2 |]. split; [exact H3 |].
    rewrite Hlog. reflexivity.
Defined.
End PlannerPaths.

(** * Reading back what [_build_frontmatter] writes *)

Module FrontmatterFacts.
Import PyStr PyStrMore Scan Store VaultUpdate FrontmatterText.
Import StringFacts ScanFacts FieldFacts PlanTextFacts.

Lemma split_on_cons p c r :
  split_on p (String c r) =
  if p c then EmptyString :: split_on p r
  else match split_on p r with
       | [] => [String c EmptyString]
       | w :: ws => String c w :: ws
       end.
Proof. reflexivity. Qed.

Lemma split_line (l : string) :
  no_char (ascii_of_nat 10) l = true -> split_char (ascii_of_nat 10) l = [l].
Proof.
  unfold split_char. induction l as [|c l IH]; [reflexivity |].
  rewrite no_char_cons. intros H. apply andb_true_iff in H as [Hc Hl].
  apply negb_true_iff in Hc. rewrite Ascii.eqb_sym in Hc.
  rewrite split_on_cons, Hc, (IH Hl). reflexivity.
Qed.

Lemma split_line_app (l rest : string) :
  no_char (ascii_of_nat 10) l = true ->
  split_char (ascii_of_nat 10) (l +:+ nl +:+ rest) = l :: split_char (ascii_of_nat 10) rest.
Proof.
  unfold split_char. intros Hl. induction l as [|a l IH].
  - reflexivity.
  - rewrite no_char_cons in Hl. apply andb_true_iff in Hl as [Ha Hl].
    apply negb_true_iff in Ha. rewrite Ascii.eqb_sym in Ha.
    rewrite append_cons, split_on_cons, Ha, (IH Hl). reflexivity.
Qed.

Lemma join_cons sep p q ps : join sep (p :: q :: ps) = p +:+ sep +:+ join sep (q :: ps).
Proof. reflexivity. Qed.

Lemma split_join (lines : list string) :
  lines <> [] -> Forall (fun l => no_char (ascii_of_nat 10) l = true) lines ->
  split_char (ascii_of_nat 10) (join nl lines) = lines.
Proof.
  induction lines as [|p lines IH]; [contradiction |]. intros _ H.
  apply Forall_cons in H as [Hp Hl].
  destruct lines as [|q ps]; [now apply split_line |].
  rewrite join_cons, split_line_app by exact Hp. f_equal. now apply IH.
Qed.

Lemma rstrip_app_r (a b : string) : rstrip b <> "" -> rstrip (a +:+ b) = a +:+ rstrip b.
Proof.
  intros Hb. induction a as [|c a IH]; [reflexivity |].
  rewrite append_cons, rstrip_cons, IH, append_cons.
  destruct (a +:+ rstrip b) eqn:E; [| reflexivity].
  destruct a; [rewrite append_nil_l in E; contradiction | discriminate].
Qed.

Lemma rstrip_app_blank (a b : string) : rstrip b = "" -> rstrip (a +:+ b) = rstrip a.
Proof.
  intros Hb. induction a as [|c a IH]; [exact Hb |].
  now rewrite append_cons, !rstrip_cons, IH.
Qed.

Lemma append_nonempty (a b : string) : a <> "" -> a +:+ b <> "".
Proof. destruct a; [contradiction | discriminate]. Qed.

Lemma join_nonempty sep (l : string) ls : l <> "" -> join sep (l :: ls) <> "".
Proof.
  intros Hl. destruct ls as [|q ps]; [exact Hl |].
  rewrite join_cons. now apply append_nonempty.
Qed.

Lemma rstrip_nonempty (l : string) : rstrip l <> "" -> l <> "".
Proof. intros H ->. now apply H. Qed.

(** Stripping the end of a block of lines strips its last line. *)
Lemma rstrip_join (lines : list string) :
  lines <> [] -> Forall (fun l => rstrip l <> "") lines ->
  exists lines',
    rstrip (join nl lines) = join nl lines' /\ lines' <> [] /\
    Forall2 (fun l' l => l' = l \/ l' = rstrip l) lines' lines /\
    join nl lines' <> "".
Proof.
  induction lines as [|p lines IH]; [contradiction |]. intros _ H.
  apply Forall_cons in H as [Hp Hl].
  destruct lines as [|q ps].
  - exists [rstrip p]. split; [reflexivity |]. split; [discriminate |].
    split; [| exact Hp]. constructor; [now right | constructor].
  - destruct (IH ltac:(discriminate) Hl) as (lines' & E & Hne & Hall & Hj).
    exists (p :: lines'). rewrite join_cons.
    assert (Hr : rstrip (nl +:+ join nl (q :: ps)) = nl +:+ join nl lines').
    { rewrite rstrip_app_r, E; [reflexivity |]. now rewrite E. }
    rewrite rstrip_app_r by (rewrite Hr; discriminate).
    rewrite Hr. destruct lines' as [|q' ps']; [contradiction |].
    split; [reflexivity |]. split; [discriminate |].
    split; [constructor; [now left | exact Hall] |].
    apply join_nonempty. now apply rstrip_nonempty.
Qed.

(** A text without whitespace at its ends: it is empty or opens with a
    character that is not whitespace, and stripping either end changes
    nothing. *)
Lemma stripped_head (k : string) :
  strip k = k -> k = "" \/ exists c r, k = String c r /\ isspace c = false.
Proof.
  unfold strip. intros H.
  destruct (lstrip_head k) as [E | (c & r & E & Hc)].
  - left. now rewrite E in H.
  - right. rewrite E, rstrip_cons_visible in H by exact Hc. now exists c, (rstrip r).
Qed.

Lemma stripped_rstrip (v : string) : strip v = v -> rstrip v = v.
Proof. intros H. rewrite <- H at 1. unfold strip. rewrite rstrip_idem. exact H. Qed.

Lemma stripped_lstrip (v : string) : strip v = v -> lstrip v = v.
Proof.
  intros H. destruct (stripped_head v H) as [-> | (c & r & -> & Hc)]; [reflexivity |].
  now rewrite lstrip_cons, Hc.
Qed.

Lemma split_once_cons c d r :
  split_once c (String d r) =
  if Ascii.eqb c d then (EmptyString, Some r)
  else (String d (fst (split_once c r)), snd (split_once c r)).
Proof. simpl. destruct (Ascii.eqb c d); [reflexivity |]. now destruct (split_once c r). Qed.

Lemma split_once_key (k rest : string) :
  no_char ":" k = true -> split_once ":" (k +:+ String ":" rest) = (k, Some rest).
Proof.
  intros Hk. induction k as [|a k IH].
  - reflexivity.
  - rewrite no_char_cons in Hk. apply andb_true_iff in Hk as [Ha Hk].
    apply negb_true_iff in Ha. rewrite Ascii.eqb_sym in Ha.
    rewrite append_cons, split_once_cons, Ha, (IH Hk). reflexivity.
Qed.

Lemma clean_entry_parts kv :
  clean_entry kv = true ->
  strip (fst kv) = fst kv /\ no_char ":" (fst kv) = true /\
  no_char (ascii_of_nat 10) (fst kv) = true /\
  strip (snd kv) = snd kv /\ no_char (ascii_of_nat 10) (snd kv) = true.
Proof.
  unfold clean_entry. rewrite !andb_true_iff, !String.eqb_eq. tauto.
Qed.

(** The line of an entry, as written or without the whitespace at its
    end, reads as the entry. *)
Lemma entry_line_reads kv l' :
  clean_entry kv = true ->
  l' = fst kv +:+ ": " +:+ snd kv \/ l' = rstrip (fst kv +:+ ": " +:+ snd kv) ->
  no_char (ascii_of_nat 10) l' = true /\
  exists v', split_once ":" l' = (fst kv, Some v') /\ strip v' = snd kv.
Proof.
  intros Hc Hl. destruct kv as [k v]. cbn [fst snd] in *.
  destruct (clean_entry_parts _ Hc) as (Hk & Hkc & Hkn & Hv & Hvn). cbn [fst snd] in *.
  assert (Hline : no_char (ascii_of_nat 10) (k +:+ ": " +:+ v) = true).
  { rewrite !no_char_app, Hkn, Hvn. reflexivity. }
  assert (Hfull : exists v', split_once ":" (k +:+ ": " +:+ v) = (k, Some v') /\ strip v' = v).
  { exists (String " " v). split; [now apply split_once_key |].
    unfold strip. rewrite lstrip_cons. exact Hv. }
  destruct Hl as [-> | ->]; [now split |].
  destruct v as [|c v].
  - assert (E : rstrip (k +:+ ": " +:+ "") = k +:+ ":").
    { rewrite (rstrip_app_r k) by (vm_compute; discriminate). reflexivity. }
    rewrite E. split.
    + rewrite no_char_app, Hkn. reflexivity.
    + exists "". split; [now apply split_once_key | reflexivity].
  - assert (E : rstrip (k +:+ ": " +:+ String c v) = k +:+ ": " +:+ String c v).
    { rewrite rstrip_app_r; rewrite rstrip_app_r; rewrite (stripped_rstrip _ Hv);
        (reflexivity || discriminate). }
    rewrite E. now split.
Qed.

Lemma entry_line_visible kv :
  clean_entry kv = true ->
  rstrip (fst kv +:+ ": " +:+ snd kv) <> "" /\
  lstrip ((fst kv +:+ ": " +:+ snd kv)) = fst kv +:+ ": " +:+ snd kv.
Proof.
  intros Hc. destruct kv as [k v]. cbn [fst snd].
  destruct (clean_entry_parts _ Hc) as (Hk & _). cbn [fst snd] in *.
  split.
  - destruct v as [|c v].
    + rewrite (rstrip_app_r k) by (vm_compute; discriminate).
      intros E. apply (f_equal String.length) in E. rewrite length_append in E.
      simpl in E. lia.
    + destruct (clean_entry_parts _ Hc) as (_ & _ & _ & Hv & _). cbn [snd] in Hv.
      rewrite rstrip_app_r; rewrite rstrip_app_r; rewrite (stripped_rstrip _ Hv);
        try discriminate.
      intros E. apply (f_equal String.length) in E. rewrite !length_append in E.
      simpl in E. lia.
  - destruct (stripped_head k Hk) as [-> | (c & r & -> & Hcs)]; [reflexivity |].
    now rewrite append_cons, lstrip_cons, Hcs.
Qed.

Lemma dict_set_fresh k v (acc : list (string * string)) :
  ~ In k (map fst acc) -> dict_set k v acc = (acc ++ [(k, v)])%list.
Proof.
  induction acc as [|[k' v'] acc IH]; intros H; [reflexivity |].
  simpl. destruct (String.eqb k k') eqn:E.
  - apply String.eqb_eq in E. exfalso. apply H. left. now symmetry.
  - f_equal. apply IH. intros Hin. apply H. now right.
Qed.

Lemma dict_fold_fresh (d acc : list (string * string)) :
  List.NoDup (map fst (acc ++ d)%list) ->
  fold_left (fun a kv => dict_set (fst kv) (snd kv) a) d acc = (acc ++ d)%list.
Proof.
  revert acc. induction d as [|[k v] d IH]; intros acc H.
  - simpl. now rewrite app_nil_r.
  - simpl fold_left. rewrite dict_set_fresh.
    + rewrite IH; rewrite <- app_assoc; [reflexivity | exact H].
    + rewrite map_app in H. apply List.NoDup_remove_2 in H.
      intros Hin. apply H. apply in_or_app. now left.
Qed.

Lemma parse_lines lines (d acc : list (string * string)) :
  Forall2 (fun l' kv => exists v', split_once ":" l' = (fst kv, Some v') /\
                                   strip (fst kv) = fst kv /\ strip v' = snd kv) lines d ->
  fold_left
    (fun acc line =>
       match split_once ":"%char line with
       | (key, Some value) => dict_set (strip key) (strip value) acc
       | (_, None) => acc
       end) lines acc
  = fold_left (fun a kv => dict_set (fst kv) (snd kv) a) d acc.
Proof.
  intros H. revert acc. induction H as [|l kv lines d (v' & Hs & Hk & Hv) _ IH]; intros acc.
  - reflexivity.
  - simpl fold_left. rewrite Hs, Hk, Hv. apply IH.
Qed.

Lemma lines_read (d : list (string * string)) (lines' : list string) :
  Forall (fun kv => clean_entry kv = true) d ->
  Forall2 (fun l' l => l' = l \/ l' = rstrip l) lines'
          (map (fun kv => fst kv +:+ ": " +:+ snd kv) d) ->
  Forall (fun l => no_char (ascii_of_nat 10) l = true) lines' /\
  Forall2 (fun l' kv => exists v', split_once ":" l' = (fst kv, Some v') /\
                                   strip (fst kv) = fst kv /\ strip v' = snd kv) lines' d.
Proof.
  revert lines'. induction d as [|kv d IH]; intros lines' Hc H.
  - inversion H. split; constructor.
  - cbn [map] in H. inversion H as [|l' l ls' ls Hl Hrest]; subst.
    apply Forall_cons in Hc as [Hkv Hd].
    destruct (IH ls' Hd Hrest) as [I1 I2].
    destruct (entry_line_reads kv l' Hkv Hl) as (Hn & v' & Hs & Hv).
    destruct (clean_entry_parts kv Hkv) as (Hk & _).
    split; constructor; eauto.
Qed.

(** Parsing a built block gives the dictionary back. *)
Lemma frontmatter_round_trip_aux (d : list (string * string)) :
  clean_dict d = true -> List.NoDup (map fst d) ->
  _parse_frontmatter (_build_frontmatter d) = d.
Proof.
  intros Hclean Hnd. destruct d as [|kv0 d0]; [reflexivity |].
  set (d := kv0 :: d0) in *.
  set (lines := map (fun kv => fst kv +:+ ": " +:+ snd kv) d).
  assert (Hall : Forall (fun kv => clean_entry kv = true) d).
  { apply List.Forall_forall. intros kv Hin. unfold clean_dict in Hclean.
    rewrite forallb_forall in Hclean. now apply Hclean. }
  assert (Hvis : Forall (fun l => rstrip l <> "") lines).
  { unfold lines. apply List.Forall_forall. intros l Hin.
    apply in_map_iff in Hin as (kv & <- & Hin).
    apply entry_line_visible. rewrite List.Forall_forall in Hall. now apply Hall. }
  assert (Hne : lines <> []) by discriminate.
  destruct (rstrip_join lines Hne Hvis) as (lines' & E & Hne' & Hrel & _).
  assert (H0 : clean_entry kv0 = true) by (now apply Forall_cons in Hall as [H0 _]).
  assert (Hstrip : strip (_build_frontmatter d) = join nl lines').
  { unfold _build_frontmatter, strip. fold lines.
    change (nl +:+ join nl lines +:+ nl) with (String (ascii_of_nat 10) (join nl lines +:+ nl)).
    rewrite lstrip_cons. change (isspace (ascii_of_nat 10)) with true. cbv iota.
    assert (Hl : lstrip (join nl lines +:+ nl) = join nl lines +:+ nl).
    { destruct (clean_entry_parts kv0 H0) as (Hk & _).
      assert (Hj : exists rest, join nl lines +:+ nl = fst kv0 +:+ String ":" rest).
      { unfold lines, d. cbn [map]. destruct (map _ d0) as [|q ps].
        - cbn [join]. eexists. rewrite !append_assoc. reflexivity.
        - rewrite join_cons. eexists. rewrite !append_assoc. reflexivity. }
      destruct Hj as [rest ->].
      destruct (stripped_head (fst kv0) Hk) as [-> | (c & r & -> & Hc)]; [reflexivity |].
      now rewrite append_cons, lstrip_cons, Hc. }
    rewrite Hl, rstrip_app_blank by reflexivity. exact E. }
  unfold _parse_frontmatter, parse_frontmatter_lines. rewrite Hstrip.
  destruct (lines_read d lines' Hall Hrel) as [Hnl Hread].
  rewrite split_join by assumption.
  rewrite (parse_lines lines' d [] Hread).
  now apply dict_fold_fresh.
Qed.

(** X27.  What _build_frontmatter writes, _parse_frontmatter reads back:
    for a dictionary with different keys, whose keys and values have no
    line feed and no whitespace at their ends and whose keys have no
    colon, parsing the built block gives the dictionary again, in the
    same order. *)
Theorem frontmatter_round_trip (d : list (string * string)) :
  clean_dict d = true -> List.NoDup (map fst d) ->
  _parse_frontmatter (_build_frontmatter d) = d.
Proof. apply frontmatter_round_trip_aux. Qed.

Lemma frontmatter_round_trip_witness :
  _parse_frontmatter
    (_build_frontmatter [("type", "email"); ("subject", "Re: Hello"); ("status", "")])
  = [("type", "email"); ("subject", "Re: Hello"); ("status", "")].
Proof.
  apply frontmatter_round_trip; [reflexivity |].
  repeat constructor; cbn; intuition discriminate.
Defined.

Lemma find_unfold sub s :
  find sub s =
  if startswith sub s then Some O
  else match s with
       | EmptyString => None
       | String _ r => option_map S (find sub r)
       end.
Proof. now destruct s. Qed.

Lemma find_after sub pre rest :
  free sub pre -> find sub (pre +:+ sub +:+ rest) = Some (String.length pre).
Proof.
  induction pre as [|c pre IH]; intros H.
  - rewrite append_nil_l, find_unfold, startswith_append. reflexivity.
  - destruct (proj1 (free_cons sub c pre) H) as [H1 H2].
    rewrite append_cons, find_unfold, (H1 (sub +:+ rest)), (IH H2). reflexivity.
Qed.

Lemma contains_false_app_l key x t : contains key (x +:+ t) = false -> contains key x = false.
Proof.
  intros H. destruct (contains key x) eqn:E; [| reflexivity].
  now rewrite (contains_app_l key x t E) in H.
Qed.

(** The block between the fences of a file that [_build_frontmatter]
    wrote, and what follows it. *)
Lemma cut_built_frontmatter (d : list (string * string)) (body : string) :
  contains "---" (_build_frontmatter d) = false ->
  cut_frontmatter ("---" +:+ _build_frontmatter d +:+ "---" +:+ body)
  = Some (_build_frontmatter d, body).
Proof.
  intros Hfree. set (B := _build_frontmatter d) in *.
  assert (HB : free "---" B).
  { unfold B, _build_frontmatter in *.
    rewrite <- append_assoc in *.
    apply free_var_sep; [discriminate | reflexivity |].
    now apply contains_false_app_l in Hfree. }
  unfold cut_frontmatter. rewrite startswith_append.
  unfold find_from.
  assert (Hlen : (String.length ("---" +:+ B +:+ "---" +:+ body) <? 3)%nat = false).
  { apply Nat.ltb_ge. rewrite length_append. simpl. lia. }
  rewrite Hlen.
  change (drop 3 ("---" +:+ B +:+ "---" +:+ body)) with (B +:+ "---" +:+ body).
  rewrite (find_after "---" B body HB). cbn [option_map].
  replace (String.length B + 3 - 3)%nat with (String.length B) by lia.
  rewrite take_append. f_equal. f_equal.
  replace (String.length B + 3 + 3)%nat with (String.length ("---" +:+ B +:+ "---"))
    by (rewrite !length_append; simpl; lia).
  rewrite <- (drop_append ("---" +:+ B +:+ "---") body) at 2.
  now rewrite !append_assoc.
Qed.

Lemma dict_set_keys k v (d : list (string * string)) x :
  In x (map fst (dict_set k v d)) <-> x = k \/ In x (map fst d).
Proof.
  induction d as [|[k' v'] d IH]; simpl; [intuition congruence |].
  destruct (String.eqb k k') eqn:E; simpl.
  - apply String.eqb_eq in E as <-. intuition congruence.
  - rewrite IH. intuition congruence.
Qed.

Lemma dict_set_nodup k v (d : list (string * string)) :
  List.NoDup (map fst d) -> List.NoDup (map fst (dict_set k v d)).
Proof.
  induction d as [|[k' v'] d IH]; intros H; simpl.
  - constructor; [intros [] | constructor].
  - apply List.NoDup_cons_iff in H as [Hn Hd]. cbn [fst] in Hn.
    destruct (String.eqb k k') eqn:E; simpl.
    + apply String.eqb_eq in E as <-. now constructor.
    + constructor; [| now apply IH].
      rewrite dict_set_keys. intros [-> | Hin]; [| contradiction].
      now rewrite String.eqb_refl in E.
Qed.

Lemma dict_set_clean k v (d : list (string * string)) :
  clean_entry (k, v) = true -> clean_dict d = true -> clean_dict (dict_set k v d) = true.
Proof.
  intros Hkv. unfold clean_dict. induction d as [|[k' v'] d IH]; simpl.
  - now rewrite Hkv.
  - intros H. apply andb_true_iff in H as [H1 H2].
    destruct (String.eqb k k'); simpl; [now rewrite Hkv | now rewrite H1, IH].
Qed.

Lemma dict_update_clean (d updates : list (string * string)) :
  clean_dict updates = true -> clean_dict d = true -> List.NoDup (map fst d) ->
  clean_dict (dict_update d updates) = true /\
  List.NoDup (map fst (dict_update d updates)).
Proof.
  unfold dict_update. revert d. induction updates as [|[k v] updates IH]; intros d Hu Hd Hn.
  - now split.
  - simpl in Hu. apply andb_true_iff in Hu as [Hkv Hu]. simpl fold_left.
    apply IH; [exact Hu | now apply dict_set_clean | now apply dict_set_nodup].
Qed.

Lemma dict_get_set k v (d : list (string * string)) x :
  dict_get x (dict_set k v d) = if String.eqb x k then Some v else dict_get x d.
Proof.
  induction d as [|[k' v'] d IH]; simpl.
  - reflexivity.
  - destruct (String.eqb k k') eqn:E; simpl.
    + apply String.eqb_eq in E as <-. now destruct (String.eqb x k).
    + rewrite IH. destruct (String.eqb x k) eqn:Ex; [| reflexivity].
      apply String.eqb_eq in Ex as ->. now rewrite E.
Qed.

(** A key of the updated dictionary has the value the last update of
    that key gave it, and the value it had when no update names it. *)
Lemma dict_get_update (d updates : list (string * string)) x :
  dict_get x (dict_update d updates) =
  match dict_get x (rev updates) with
  | Some v => Some v
  | None => dict_get x d
  end.
Proof.
  unfold dict_update. revert d.
  induction updates as [|[k v] updates IH] using rev_ind; intros d; [reflexivity |].
  rewrite fold_left_app, rev_app_distr. simpl. rewrite dict_get_set.
  destruct (String.eqb x k); [reflexivity | apply IH].
Qed.

(** X28.  update_frontmatter on a file that holds a block written by
    _build_frontmatter: it succeeds, the body of the file stays as it
    is, and the new block holds the old entries in their order with the
    updates applied, so that reading it back gives every updated key its
    last new value and every other key the value it had. *)
Theorem update_frontmatter_sets_fields (f : Folder) (name : string)
    (d updates : list (string * string)) (body : string) (w : World) :
  folder f w !! name = Some ("---" +:+ _build_frontmatter d +:+ "---" +:+ body) ->
  clean_dict d = true -> List.NoDup (map fst d) ->
  contains "---" (_build_frontmatter d) = false ->
  clean_dict updates = true ->
  let r := update_frontmatter f name updates w in
  let d' := dict_update d updates in
  fst r = true /\
  folder f (snd r) !! name = Some ("---" +:+ _build_frontmatter d' +:+ "---" +:+ body) /\
  (forall other, other <> name -> folder f (snd r) !! other = folder f w !! other) /\
  _parse_frontmatter (_build_frontmatter d') = d' /\
  (forall key, dict_get key d' =
               match dict_get key (rev updates) with
               | Some v => Some v
               | None => dict_get key d
               end).
Proof.
  intros Hfile Hclean Hnd Hfree Hupd. cbv zeta.
  unfold update_frontmatter. rewrite Hfile, startswith_append.
  rewrite (cut_built_frontmatter d body Hfree).
  rewrite (frontmatter_round_trip_aux d Hclean Hnd). cbn [fst snd].
  destruct (dict_update_clean d updates Hupd Hclean Hnd) as [Hc' Hn'].
  split; [reflexivity |].
  split; [rewrite StoreMore.folder_write_same; apply lookup_insert_eq |].
  split.
  { intros other Hne. rewrite StoreMore.folder_write_same. now apply lookup_insert_ne. }
  split; [now apply frontmatter_round_trip_aux | apply dict_get_update].
Qed.

Lemma update_frontmatter_sets_fields_witness :
  let content :=
    "---" +:+ _build_frontmatter [("type", "email"); ("status", "pending")] +:+ "---" +:+
    nl +:+ "Hello" +:+ nl in
  let w := write_text Needs_Action "EMAIL_hello.md" content Samples.empty_world in
  let r := update_frontmatter Needs_Action "EMAIL_hello.md"
             [("status", "archived"); ("archived_at", "2026-01-09T12:00:00")] w in
  fst r = true /\
  folder Needs_Action (snd r) !! "EMAIL_hello.md"
  = Some ("---" +:+
          _build_frontmatter [("type", "email"); ("status", "archived");
                              ("archived_at", "2026-01-09T12:00:00")] +:+
          "---" +:+ nl +:+ "Hello" +:+ nl).
Proof.
  cbv zeta.
  destruct (update_frontmatter_sets_fields Needs_Action "EMAIL_hello.md"
              [("type", "email"); ("status", "pending")]
              [("status", "archived"); ("archived_at", "2026-01-09T12:00:00")]
              (nl +:+ "Hello" +:+ nl)
              (write_text Needs_Action "EMAIL_hello.md"
                 ("---" +:+ _build_frontmatter [("type", "email"); ("status", "pending")] +:+
                  "---" +:+ nl +:+ "Hello" +:+ nl) Samples.empty_world))
    as (H1 & H2 & _).
  - vm_compute. reflexivity.
  - reflexivity.
  - repeat constructor; cbn; intuition discriminate.
  - reflexivity.
  - reflexivity.
  - split; [exact H1 | exact H2].
Defined.

End FrontmatterFacts.
